(** * Meister: the scheduler core, its resource accountant and two job creators

    A shallow embedding of
      - [meister/schedulers/__init__.py] (quantity parsing, the pod template,
        the resource accountant, [schedule], [terminate], [run]),
      - [meister/creators/rex.py] and
      - [meister/creators/network_poll_sanitizer.py],
    together with the properties the specification states about them.

    Conventions of the embedding.
      - Python ints and longs are integers [Z]; Python floats are binary64
        numbers, [spec_float] of the Standard Library, with infinities,
        signed zeros and NaN, and with operations that round to nearest,
        ties to even. The resource hints of a job, which the pod template
        only compares, doubles and prints, are rationals [Q].
      - Python dictionaries of strings are [gmap string _].
      - A Python call that may raise returns a [result]; code that also
        mutates the scheduler object, the cluster or the log lives in the
        monad [M]. *)

From Stdlib Require Import ZArith QArith Lqa Ascii String List DecimalString SpecFloat.
From Stdlib Require PrimFloat FloatOps.
From stdpp Require Import base option list gmap strings fin_maps.

Close Scope Q_scope.
Open Scope string_scope.
Open Scope list_scope.

(** ** Python exceptions and results *)

(** The exception classes the code under study raises or catches. *)
Inductive exn : Type :=
  | KeyError (key : string)
  | ValueError (msg : string)
  | IndexError
  | NotImplementedError (msg : string)
  | RequestsHTTPError (status_code : Z)
  | PykubeHTTPError (msg : string)
  | RequestsConnectionError
  | OverflowError.

Inductive result (A : Type) : Type :=
  | Ok (a : A)
  | Raise (e : exn).
Arguments Ok {A} a.
Arguments Raise {A} e.

Definition rbind {A B} (r : result A) (k : A → result B) : result B :=
  match r with
  | Ok a => k a
  | Raise e => Raise e
  end.

Definition rmap {A B} (f : A → B) (r : result A) : result B :=
  rbind r (fun a => Ok (f a)).

Definition is_Ok {A} (r : result A) : Prop :=
  match r with Ok _ => True | Raise _ => False end.

(** ** Python built-ins on strings *)

Module Py.

Fixpoint take (n : nat) (s : string) : string :=
    match n, s with
    | S n', String c s' => String c (take n' s')
    | _, _ => ""
    end.

Fixpoint drop (n : nat) (s : string) : string :=
    match n, s with
    | S n', String _ s' => drop n' s'
    | _, _ => s
    end.

  (** [s[:-k]] for a positive literal [k]. *)
Definition slice_to_neg (k : nat) (s : string) : string :=
    take (String.length s - k) s.

  (** [s.endswith(suffix)] *)
Definition endswith (s suffix : string) : bool :=
    (String.length suffix <=? String.length s)%nat
    && String.eqb (drop (String.length s - String.length suffix) s) suffix.

Definition is_space (c : ascii) : bool :=
    let n := nat_of_ascii c in
    ((9 <=? n) && (n <=? 13) || (n =? 32))%nat.

Fixpoint lstrip (s : string) : string :=
    match s with
    | String c s' => if is_space c then lstrip s' else s
    | "" => ""
    end.

Definition strip (s : string) : string :=
    String.rev (lstrip (String.rev (lstrip s))).

Definition digit (c : ascii) : option Z :=
    let n := nat_of_ascii c in
    if ((48 <=? n) && (n <=? 57))%nat then Some (Z.of_nat (n - 48)) else None.

  (** Reads a run of decimal digits: the value read so far, the number of
      digits read, and the rest of the string. *)
Fixpoint digits (acc : Z) (count : nat) (s : string) : Z * nat * string :=
    match s with
    | String c s' =>
        match digit c with
        | Some d => digits (acc * 10 + d) (S count) s'
        | None => (acc, count, s)
        end
    | "" => (acc, count, s)
    end.

  (** An optional sign: the factor it stands for and the rest. *)
Definition sign (s : string) : Z * string :=
    match s with
    | String "-" s' => ((-1)%Z, s')
    | String "+" s' => (1%Z, s')
    | _ => (1%Z, s)
    end.

  (** [int(s)] on a string, base ten: surrounding white space, an optional
      sign and one or more digits; anything else is a [ValueError]. *)
Definition int (s : string) : result Z :=
    let '(sg, body) := sign (strip s) in
    match digits 0 0 body with
    | (n, S _, "") => Ok (sg * n)%Z
    | _ => Raise (ValueError "invalid literal for int() with base 10")
    end.

Definition lower (c : ascii) : ascii :=
    let n := nat_of_ascii c in
    if ((65 <=? n) && (n <=? 90))%nat then ascii_of_nat (n + 32) else c.

Fixpoint lowercase (s : string) : string :=
    match s with
    | String c s' => String (lower c) (lowercase s')
    | "" => ""
    end.

  (** The optional exponent part of a float literal. *)
Definition exponent (s : string) : option Z :=
    match s with
    | "" => Some 0%Z
    | String c s' =>
        if Ascii.eqb (lower c) "e" then
          let '(sg, body) := sign s' in
          match digits 0 0 body with
          | (n, S _, "") => Some (sg * n)%Z
          | _ => None
          end
        else None
    end.

  (** *** Floats *)

  (** Binary64: 53 bits of precision, exponents below 1024. *)
Definition prec : Z := 53.
Definition emax : Z := 1024.

  (** [x + y], [x - y] and [x * y] on floats. *)
Definition fadd (x y : spec_float) : spec_float := SFadd prec emax x y.
Definition fsub (x y : spec_float) : spec_float := SFsub prec emax x y.
Definition fmul (x y : spec_float) : spec_float := SFmul prec emax x y.

  (** The float nearest to an integer. *)
Definition round_int (z : Z) : spec_float := binary_normalize prec emax z 0 false.

  (** The conversion of an int to a float, as [float(z)] and as the
      coercion of the int operand of an operation with a float: an int
      beyond the floats is an [OverflowError]. *)
Definition float_of_int (z : Z) : result spec_float :=
    match round_int z with
    | S754_infinity _ => Raise OverflowError
    | x => Ok x
    end.

  (** The float nearest to [m * 10 ^ e], for [m] not negative, with the
      sign [neg]: the quotient of two integers is rounded once. *)
Definition round_decimal (neg : bool) (m : Z) (e : Z) : spec_float :=
    match m with
    | Zpos p =>
        if (0 <=? e)%Z
        then binary_normalize prec emax (cond_Zopp neg (Zpos p * 10 ^ e)) 0 false
        else SFdiv prec emax (S754_finite neg p 0)
                             (S754_finite false (Z.to_pos (10 ^ (- e))) 0)
    | _ => S754_zero neg
    end.

  (** [float(s)] on a string: surrounding white space, an optional sign,
      and then [inf], [infinity] or [nan] in any case, or a decimal numeral
      with an optional fraction and an optional exponent, which is rounded
      to the nearest float. *)
Definition float (s : string) : result spec_float :=
    let '(sg, body) := sign (strip s) in
    let neg := (sg <? 0)%Z in
    if bool_decide (lowercase body ∈ ["inf"; "infinity"])
    then Ok (S754_infinity neg)
    else if bool_decide (lowercase body = "nan")
    then Ok S754_nan
    else
      let '(ip, ni, rest) := digits 0 0 body in
      let '(m, nf, rest') :=
        match rest with
        | String "." r => digits ip 0 r
        | _ => (ip, 0%nat, rest)
        end in
      match (ni + nf)%nat, exponent rest' with
      | S _, Some e => Ok (round_decimal neg m (e - Z.of_nat nf))
      | _, _ => Raise (ValueError "could not convert string to float")
      end.

  (** [x / 1000.] for an int [x]. *)
Definition div1000 (x : Z) : result spec_float :=
    rmap (λ y, SFdiv prec emax y (round_int 1000)) (float_of_int x).

  (** [0 <= x] on a float. *)
Definition nonneg (x : spec_float) : bool := SFleb (S754_zero false) x.

  (** *** Numbers *)

  (** A value that is an int or a float, as the entries of the dictionary
      of available resources are. *)
Inductive number : Type :=
    | Int (z : Z)
    | Float (x : spec_float).

Definition to_float (a : number) : result spec_float :=
    match a with
    | Int z => float_of_int z
    | Float x => Ok x
    end.

  (** [a - b] and [a * b]: between ints the operation of the integers,
      otherwise that of the floats, on the operands converted. *)
Definition sub (a b : number) : result number :=
    match a, b with
    | Int x, Int y => Ok (Int (x - y))
    | _, _ => rbind (to_float a) (λ x, rbind (to_float b) (λ y, Ok (Float (fsub x y))))
    end.

Definition mul (a b : number) : result number :=
    match a, b with
    | Int x, Int y => Ok (Int (x * y))
    | _, _ => rbind (to_float a) (λ x, rbind (to_float b) (λ y, Ok (Float (fmul x y))))
    end.

  (** [0 <= a] on a number. *)
Definition num_nonneg (a : number) : bool :=
    match a with
    | Int z => (0 <=? z)%Z
    | Float x => nonneg x
    end.

End Py.

(** ** Kubernetes quantities *)

(** [cpu2float]: Kubernetes CPU numbers to float. *)
Definition cpu2float (cpu : string) : result spec_float :=
  if Py.endswith cpu "m"
  then rbind (Py.int (Py.slice_to_neg 1 cpu)) Py.div1000
  else Py.float cpu.

(** [memory2int]: Kubernetes memory amounts to integers. The multiplier is
    chosen by the suffix; the last two characters are dropped whatever the
    suffix was. *)
Definition memory2int (memory : string) : result Z :=
  let multiplier : Z :=
    (if Py.endswith memory "Ki" then 1024
     else if Py.endswith memory "Mi" then 1024 ^ 2
     else if Py.endswith memory "Gi" then 1024 ^ 3
     else 1)%Z in
  rmap (fun n => n * multiplier)%Z (Py.int (Py.slice_to_neg 2 memory)).


#[global] Instance result_ret : MRet result := λ A a, Ok a.
#[global] Instance result_bind : MBind result := λ A B k r, rbind r k.

(** [str(n)] for an int. *)
Definition str_int (n : Z) : string := NilZero.string_of_int (Z.to_int n).

(** [a < b] on numbers. *)
Definition Qltb (a b : Q) : bool := negb (Qle_bool b a).

(** ** Jobs *)

(** The columns of the job table that the scheduler core reads or writes. *)
Inductive field : Type :=
  | F_worker | F_cbn | F_payload
  | F_request_cpu | F_request_memory | F_limit_cpu | F_limit_memory
  | F_restart | F_kvm_access | F_data_access | F_priority.

#[global] Instance field_eq_dec : EqDecision field.
Proof. solve_decision. Defined.

(** Modelled from the spec: the [Job] model of the state store (package
    farnsworth), section 3 of the specification: an identifier assigned on
    insert, a worker tag, an opaque payload, four resource hints that may be
    unset, three capability flags and a mutable priority. [dirty_fields]
    lists the fields assigned on the instance since it was loaded or
    saved. *)
Record Job : Type := {
  job_id : option Z;
  worker : string;
  cbn : option Z;
  payload : list (string * Z);
  request_cpu : option Q;
  request_memory : option Q;
  limit_cpu : option Q;
  limit_memory : option Q;
  restart : bool;
  kvm_access : bool;
  data_access : bool;
  priority : Z;
  dirty_fields : list field
}.

(** Modelled from the spec: the defaults of the four resource columns,
    [Job.request_cpu.default] and the like, declared with the schema. *)
Record JobSchema : Type := {
  request_cpu_default : Q;
  request_memory_default : Q;
  limit_cpu_default : Q;
  limit_memory_default : Q
}.

(** ** Pod specifications *)

Record resources_dict : Type := {
  requests : option (gmap string string);
  limits : option (gmap string string)
}.

Record container : Type := {
  container_name : string;
  image : string;
  imagePullPolicy : string;
  resources : resources_dict;
  env : list (string * string);
  volumeMounts : list (string * string);
  securityContext : gmap string bool
}.

Inductive volume : Type :=
  | emptyDir (name medium : string)
  | hostPath (name path : string).

Record config : Type := {
  metadata_name : string;
  metadata_labels : gmap string string;
  restartPolicy : string;
  containers : list container;
  volumes : list volume
}.

(** [os.environ[key]] *)
Definition environ_get (environ : gmap string string) (key : string) : result string :=
  match environ !! key with
  | Some v => Ok v
  | None => Raise (KeyError key)
  end.

(** [str(job.id)]; an instance that was never saved has [id = None]. *)
Definition str_id (job_id : option Z) : string :=
  match job_id with
  | Some n => str_int n
  | None => "None"
  end.

(** [KubernetesScheduler._worker_name] *)
Definition _worker_name (job_id : option Z) : string := "worker-" +:+ str_id job_id.

(** [KubernetesScheduler._is_kubernetes_unavailable] *)
Definition _is_kubernetes_unavailable (environ : gmap string string) : bool :=
  match environ !! "KUBERNETES_SERVICE_HOST" with
  | None => true
  | Some host => String.eqb host ""
  end.

Section PodTemplate.

  (** [str(x)] on the number of a resource hint. Whether a hint is an int or
      a float is the schema's business, so its rendering is left open. *)
Variable py_str : Q → string.

Variable schema : JobSchema.

  (** The local variables [request_cpu], [request_memory], [limit_cpu] and
      [limit_memory] of [_kube_pod_template], first part of its body. *)
Record job_resources : Type := {
    jr_request_cpu : Q;
    jr_request_memory : Q;
    jr_limit_cpu : Q;
    jr_limit_memory : Q
  }.

Definition pod_request (hint : option Q) (default : Q) : Q :=
    match hint with
    | None => default
    | Some r => r
    end.

Definition pod_limit (request : Q) (hint : option Q) (default : Q) : Q :=
    match hint with
    | None => default
    | Some l =>
        if Qltb request l
        then l                   (* limit is set to a reasonable value *)
        else (request * 2)%Q     (* better add some padding *)
    end.

Definition pod_resources (job : Job) : job_resources :=
    let request_cpu := pod_request (request_cpu job) (request_cpu_default schema) in
    let request_memory := pod_request (request_memory job) (request_memory_default schema) in
    let limit_cpu := pod_limit request_cpu (limit_cpu job) (limit_cpu_default schema) in
    let limit_memory := pod_limit request_memory (limit_memory job) (limit_memory_default schema) in
    {| jr_request_cpu := request_cpu;
       jr_request_memory := request_memory;
       jr_limit_cpu := limit_cpu;
       jr_limit_memory := limit_memory |}.

  (** [KubernetesScheduler._kube_pod_template] *)
Definition _kube_pod_template (environ : gmap string string) (job : Job) : result config :=
    let name := _worker_name (job_id job) in
    let r := pod_resources job in
    let restart_policy := if restart job then "OnFailure" else "Never" in
    let volumes0 := [emptyDir "devshm" "Memory"] in
    let volume_mounts0 := [("devshm", "/dev/shm")] in
    let security_context0 : gmap string bool := ∅ in
    let '(volumes1, volume_mounts1, security_context) :=
      if kvm_access job
      then (volumes0 ++ [hostPath "devkvm" "/dev/kvm"],
            volume_mounts0 ++ [("devkvm", "/dev/kvm")],
            <["privileged" := true]> security_context0)
      else (volumes0, volume_mounts0, security_context0) in
    let '(volumes2, volume_mounts) :=
      if data_access job
      then (volumes1 ++ [hostPath "data" "/data"],
            volume_mounts1 ++ [("data", "/data")])
      else (volumes1, volume_mounts1) in
    let postgres_use_slaves :=
      match environ !! "POSTGRES_USE_SLAVES" with
      | Some _ => [("POSTGRES_USE_SLAVES", "true")]
      | None => []
      end in
    worker_image ← environ_get environ "WORKER_IMAGE";
    pull_policy ← environ_get environ "WORKER_IMAGE_PULL_POLICY";
    db_user ← environ_get environ "POSTGRES_DATABASE_USER";
    db_password ← environ_get environ "POSTGRES_DATABASE_PASSWORD";
    db_name ← environ_get environ "POSTGRES_DATABASE_NAME";
    mret
      {| metadata_name := name;
         metadata_labels :=
           <["app" := "worker"]>
             (<["worker" := worker job]> (<["job_id" := str_id (job_id job)]> ∅));
         restartPolicy := restart_policy;
         containers :=
           [ {| container_name := name;
                image := worker_image;
                imagePullPolicy := pull_policy;
                resources :=
                  {| requests :=
                       Some (<["cpu" := py_str (jr_request_cpu r)]>
                               (<["memory" := py_str (jr_request_memory r) +:+ "Mi"]> ∅));
                     limits :=
                       Some (<["cpu" := py_str (jr_limit_cpu r)]>
                               (<["memory" := py_str (jr_limit_memory r) +:+ "Mi"]> ∅)) |};
                env :=
                  [("JOB_ID", str_id (job_id job))]
                  ++ postgres_use_slaves
                  ++ [("POSTGRES_DATABASE_USER", db_user);
                      ("POSTGRES_DATABASE_PASSWORD", db_password);
                      ("POSTGRES_DATABASE_NAME", db_name);
                      ("POSTGRES_MASTER_CONNECTIONS", "1");
                      ("POSTGRES_SLAVE_CONNECTIONS", "1")];
                volumeMounts := volume_mounts;
                securityContext := security_context |} ];
         volumes := volumes2 |}.

End PodTemplate.

(** ** The cluster and the scheduler object *)

(** The dictionaries [{'cpu': .., 'memory': .., 'pods': ..}] of the
    accountant: a float under ['cpu'], and under ['memory'] and ['pods']
    values of the type [N]. *)
Record resources_of (N : Type) : Type := {
  cpu : spec_float;
  memory : N;
  pods : N
}.
Arguments cpu {N} _.
Arguments memory {N} _.
Arguments pods {N} _.
Arguments Build_resources_of {N} _ _ _.

(** The capacity of a node and the total of the nodes: [cpu2float] gives a
    float, [memory2int] and [int] give ints. *)
Definition capacity : Type := resources_of Z.

(** The available resources: they start as a copy of the total capacity,
    and their ints become floats when they are multiplied by the
    overprovisioning factor. *)
Definition budget : Type := resources_of Py.number.

(** Modelled from the spec: the phase of a pod, section 4.1 of the
    specification; the client library (pykube) exposes it through the
    properties [pending], [running], [succeeded], [failed] and [unknown]. *)
Inductive phase : Type :=
  | Pending | Running | Succeeded | Failed | Unknown | Other.

(** A pod as the cluster lists it: its phase and the object it was created
    from. The name is the key under which the cluster holds it. *)
Record Pod : Type := {
  pod_phase : phase;
  pod_obj : config
}.

(** A node as the cluster lists it: [obj['status']['capacity']]. *)
Record Node : Type := {
  node_capacity : gmap string string
}.

Inductive api_call : Type :=
  | ListNodes
  | ListPods
  | PodExists (name : string)
  | PodDelete (name : string)
  | PodCreate (name : string).

Inductive level : Type := DEBUG | WARNING | ERROR.

(** The fields of the [KubernetesScheduler] object, followed by what
    surrounds it: the process environment, the clock, the cluster, the
    outcome of the coming calls to the cluster ([None]: the call goes
    through; [Some e]: it raises [e]; when the list is exhausted every call
    goes through), the calls made so far and the log. *)
Record state : Type := {
  _node_capacities : option (gmap string capacity);
  _available_resources : option budget;
  _resources_timestamp : Z;
  environ : gmap string string;
  now : Z;
  cluster_pods : gmap string Pod;
  cluster_nodes : gmap string Node;
  faults : list (option exn);
  api_calls : list api_call;
  log : list (level * string)
}.

Definition set_node_capacities (v : option (gmap string capacity)) (s : state) : state :=
  {| _node_capacities := v;
     _available_resources := _available_resources s;
     _resources_timestamp := _resources_timestamp s;
     environ := environ s; now := now s;
     cluster_pods := cluster_pods s; cluster_nodes := cluster_nodes s;
     faults := faults s; api_calls := api_calls s; log := log s |}.

Definition set_available_resources (v : option budget) (s : state) : state :=
  {| _node_capacities := _node_capacities s;
     _available_resources := v;
     _resources_timestamp := _resources_timestamp s;
     environ := environ s; now := now s;
     cluster_pods := cluster_pods s; cluster_nodes := cluster_nodes s;
     faults := faults s; api_calls := api_calls s; log := log s |}.

Definition set_resources_timestamp (v : Z) (s : state) : state :=
  {| _node_capacities := _node_capacities s;
     _available_resources := _available_resources s;
     _resources_timestamp := v;
     environ := environ s; now := now s;
     cluster_pods := cluster_pods s; cluster_nodes := cluster_nodes s;
     faults := faults s; api_calls := api_calls s; log := log s |}.

Definition set_cluster_pods (v : gmap string Pod) (s : state) : state :=
  {| _node_capacities := _node_capacities s;
     _available_resources := _available_resources s;
     _resources_timestamp := _resources_timestamp s;
     environ := environ s; now := now s;
     cluster_pods := v; cluster_nodes := cluster_nodes s;
     faults := faults s; api_calls := api_calls s; log := log s |}.

Definition set_faults (v : list (option exn)) (s : state) : state :=
  {| _node_capacities := _node_capacities s;
     _available_resources := _available_resources s;
     _resources_timestamp := _resources_timestamp s;
     environ := environ s; now := now s;
     cluster_pods := cluster_pods s; cluster_nodes := cluster_nodes s;
     faults := v; api_calls := api_calls s; log := log s |}.

Definition set_api_calls (v : list api_call) (s : state) : state :=
  {| _node_capacities := _node_capacities s;
     _available_resources := _available_resources s;
     _resources_timestamp := _resources_timestamp s;
     environ := environ s; now := now s;
     cluster_pods := cluster_pods s; cluster_nodes := cluster_nodes s;
     faults := faults s; api_calls := v; log := log s |}.

Definition set_log (v : list (level * string)) (s : state) : state :=
  {| _node_capacities := _node_capacities s;
     _available_resources := _available_resources s;
     _resources_timestamp := _resources_timestamp s;
     environ := environ s; now := now s;
     cluster_pods := cluster_pods s; cluster_nodes := cluster_nodes s;
     faults := faults s; api_calls := api_calls s; log := v |}.

(** ** The monad of scheduler code: state and exceptions *)

Definition M (A : Type) : Type := state → result A * state.

#[global] Instance M_ret : MRet M := λ A a s, (Ok a, s).
#[global] Instance M_bind : MBind M := λ A B k m s,
  match m s with
  | (Ok a, s') => k a s'
  | (Raise e, s') => (Raise e, s')
  end.

Definition get : M state := λ s, (Ok s, s).
Definition modify (f : state → state) : M unit := λ s, (Ok tt, f s).
Definition raise {A} (e : exn) : M A := λ s, (Raise e, s).
Definition lift {A} (r : result A) : M A := λ s, (r, s).

(** [try: body except ...: handler]: [handlers e] is the handler of the
    first [except] clause that matches [e], if any. *)
Definition try_except {A} (body : M A) (handlers : exn → option (M A)) : M A := λ s,
  match body s with
  | (Ok a, s') => (Ok a, s')
  | (Raise e, s') =>
      match handlers e with
      | Some handler => handler s'
      | None => (Raise e, s')
      end
  end.

(** The outcome of a body run on a worker thread: an exception is kept in
    the future and raised when the result is asked for. *)
Definition future {A} (body : M A) : M (result A) := λ s,
  let '(r, s') := body s in (Ok r, s').

Fixpoint for_each {A} (l : list A) (body : A → M unit) : M unit :=
  match l with
  | [] => mret tt
  | x :: l' => body x ;; for_each l' body
  end.

Fixpoint map_each {A B} (l : list A) (body : A → M B) : M (list B) :=
  match l with
  | [] => mret []
  | x :: l' => y ← body x; ys ← map_each l' body; mret (y :: ys)
  end.

Definition LOG (lvl : level) (msg : string) : M unit :=
  modify (λ s, set_log (log s ++ [(lvl, msg)]) s).

(** ** The cluster client *)

(** Modelled from the spec: the cluster client (pykube over the cluster's
    REST interface), section 4.1 of the specification. Pods are held by name;
    [delete] of an absent pod succeeds; [create] of a name that exists fails
    with the error by which the client reports HTTP 409, of a class that
    the specification does not name; a call raises a transport error when
    the environment says so. *)
Definition api (call : api_call) : M unit := λ s,
  let s' := set_api_calls (api_calls s ++ [call]) s in
  match faults s with
  | Some e :: rest => (Raise e, set_faults rest s')
  | None :: rest => (Ok tt, set_faults rest s')
  | [] => (Ok tt, s')
  end.

Definition Pod_exists (name : string) : M bool :=
  api (PodExists name) ;;
  s ← get;
  mret (bool_decide (is_Some (cluster_pods s !! name))).

Definition Pod_delete (name : string) : M unit :=
  api (PodDelete name) ;;
  modify (λ s, set_cluster_pods (delete name (cluster_pods s)) s).

Definition Pod_create (conflict : exn) (cfg : config) : M unit :=
  api (PodCreate (metadata_name cfg)) ;;
  s ← get;
  match cluster_pods s !! metadata_name cfg with
  | Some _ => raise conflict
  | None =>
      modify (λ s, set_cluster_pods
                     (<[metadata_name cfg := {| pod_phase := Pending; pod_obj := cfg |}]>
                        (cluster_pods s)) s)
  end.

Definition Pod_objects : M (list (string * Pod)) :=
  api ListPods ;;
  s ← get;
  mret (map_to_list (cluster_pods s)).

(** The listing of the nodes is a query that the client sends when it is
    iterated over. *)
Definition Node_objects : M (list (string * Node)) :=
  api ListNodes ;;
  s ← get;
  mret (map_to_list (cluster_nodes s)).

(** ** The resource accountant *)

(** [d[key]] on a dictionary of strings. *)
Definition dict_get (d : gmap string string) (key : string) : result string :=
  match d !! key with
  | Some v => Ok v
  | None => Raise (KeyError key)
  end.

(** [{'cpu': 0.0, 'memory': 0L, 'pods': 0}] *)
Definition capacity_zero : capacity :=
  {| cpu := S754_zero false; memory := 0%Z; pods := 0%Z |}.

(** One turn of the loop of [_kube_total_capacity]. *)
Definition capacity_add (resources c : capacity) : capacity :=
  {| cpu := Py.fadd (cpu resources) (cpu c);
     memory := (memory resources + memory c)%Z;
     pods := (pods resources + pods c)%Z |}.

(** [copy.copy] of the total capacity, as available resources. *)
Definition budget_of (c : capacity) : budget :=
  {| cpu := cpu c; memory := Py.Int (memory c); pods := Py.Int (pods c) |}.

(** The capacity a node reports, parsed. *)
Definition parse_node_capacity (node : Node) : result capacity :=
  c ← dict_get (node_capacity node) "cpu" ≫= cpu2float;
  m ← dict_get (node_capacity node) "memory" ≫= memory2int;
  p ← dict_get (node_capacity node) "pods" ≫= Py.int;
  mret {| cpu := c; memory := m; pods := p |}.

(** [KubernetesScheduler._kube_node_capacities]: the dictionary is set on
    the object before the loop asks the cluster for the nodes. *)
Definition _kube_node_capacities : M (gmap string capacity) :=
  s ← get;
  match _node_capacities s with
  | Some caps => mret caps
  | None =>
      modify (set_node_capacities (Some ∅)) ;;
      nodes ← Node_objects;
      for_each nodes (λ '(name, node),
        c ← lift (parse_node_capacity node);
        modify (λ s, set_node_capacities
                       (Some (<[name := c]> (default ∅ (_node_capacities s)))) s)) ;;
      s ← get;
      mret (default ∅ (_node_capacities s))
  end.

Section Accountant.

  (** The text ["%s cores, %s GiB, %s pods"] of a dictionary of resources
      in a line of the log: its cpu, its memory floor-divided by [1024**3]
      and its pods, each as [%s] prints it. *)
Variable describe : budget → string.

  (** The error by which the cluster client reports that a pod of the name
      exists. *)
Variable conflict : exn.

  (** [str(x)] on the number of a resource hint of a job. *)
Variable py_str : Q → string.

  (** [KubernetesScheduler._kube_total_capacity]: the capacities are added
      up in the order in which the dictionary yields them. *)
Definition _kube_total_capacity : M capacity :=
    caps ← _kube_node_capacities;
    let resources := fold_left capacity_add (map_to_list caps).*2 capacity_zero in
    LOG DEBUG ("Total cluster capacity: " +:+ describe (budget_of resources)) ;;
    mret resources.

  (** The function [cleanup] local to [_kube_resources]: keeps a pod that
      takes up resources, deletes one that is over. *)
Definition cleanup (named : string * Pod) : M (option (string * Pod)) :=
    let '(name, pod) := named in
    try_except
      (match pod_phase pod with
       | Pending | Running =>
           try_except
             (LOG DEBUG ("Pod " +:+ name +:+ " is taking up resources"))
             (λ e, match e with
                   | RequestsHTTPError _ => Some (LOG ERROR "Somehow failed at HTTP")
                   | _ => None
                   end) ;;
           mret (Some named)
       | Failed =>
           LOG WARNING ("Pod " +:+ name +:+ " failed") ;;
           Pod_delete name ;;
           mret None
       | Unknown =>
           LOG WARNING ("Pod " +:+ name +:+ " in unknown state") ;;
           mret None
       | Succeeded =>
           LOG DEBUG ("Pod " +:+ name +:+ " succeeded") ;;
           Pod_delete name ;;
           mret None
       | Other =>
           LOG DEBUG ("Pod " +:+ name +:+ " is in a weird state") ;;
           mret None
       end)
      (λ e, match e with
            | KeyError k => Some (LOG ERROR ("Hit a KeyError " +:+ k) ;; mret None)
            | _ => None
            end).

  (** The resources of the first container that the accountant charges a
      pod with: its requests, its limits when it has no requests, nothing
      when its [resources] are empty. *)
Definition charged_resources (pod : Pod) : result (gmap string string) :=
    match containers (pod_obj pod) with
    | [] => Raise IndexError
    | c :: _ =>
        match requests (resources c), limits (resources c) with
        | None, None => Ok (<["cpu" := "0"]> (<["memory" := "0Ki"]> ∅))
        | Some r, _ => Ok r
        | None, Some l => Ok l
        end
    end.

  (** An augmented assignment to an entry of [self._available_resources]:
      nothing is stored when the operation raises. *)
Definition update_available (f : budget → result budget) : M unit :=
    s ← get;
    match _available_resources s with
    | Some a => a' ← lift (f a); modify (set_available_resources (Some a'))
    | None => mret tt
    end.

  (** The body of the loop over the classified pods. *)
Definition charge (outcome : result (option (string * Pod))) : M unit :=
    kept ← lift outcome;
    match kept with
    | None => mret tt
    | Some (_, pod) =>
        resources ← lift (charged_resources pod);
        c ← lift (dict_get resources "cpu" ≫= cpu2float);
        update_available (λ a,
          Ok {| cpu := Py.fsub (cpu a) c; memory := memory a; pods := pods a |}) ;;
        m ← lift (dict_get resources "memory" ≫= memory2int);
        update_available (λ a,
          m' ← Py.sub (memory a) (Py.Int m);
          Ok {| cpu := cpu a; memory := m'; pods := pods a |}) ;;
        update_available (λ a,
          p' ← Py.sub (pods a) (Py.Int 1);
          Ok {| cpu := cpu a; memory := memory a; pods := p' |})
    end.

  (** [float(os.environ['MEISTER_OVERPROVISIONING'])] *)
Definition overprovisioning : M spec_float :=
    s ← get;
    lift (environ_get (environ s) "MEISTER_OVERPROVISIONING" ≫= Py.float).

  (** [KubernetesScheduler._kube_resources] *)
Definition _kube_resources : M (option budget) :=
    s ← get;
    if (now s - _resources_timestamp s <=? 1000000)%Z
    then
      LOG DEBUG "Returning cached data..." ;;
      mret (_available_resources s)
    else
      total ← _kube_total_capacity;
      modify (set_available_resources (Some (budget_of total))) ;;
      listing ← Pod_objects;
      outcomes ← map_each listing (λ named, future (cleanup named));
      for_each outcomes charge ;;
      modify (λ s, set_resources_timestamp (now s) s) ;;
      f ← overprovisioning;
      update_available (λ a,
        Ok {| cpu := Py.fmul (cpu a) f; memory := memory a; pods := pods a |}) ;;
      f ← overprovisioning;
      update_available (λ a,
        m' ← Py.mul (memory a) (Py.Float f);
        Ok {| cpu := cpu a; memory := m'; pods := pods a |}) ;;
      f ← overprovisioning;
      update_available (λ a,
        p' ← Py.mul (pods a) (Py.Float f);
        Ok {| cpu := cpu a; memory := memory a; pods := p' |}) ;;
      s ← get;
      LOG DEBUG ("Resources available: "
                 +:+ from_option describe "" (_available_resources s)) ;;
      mret (_available_resources s).

  (** ** Dispatch *)

Variable schema : JobSchema.

  (** [KubernetesScheduler.terminate] *)
Definition terminate (name : string) : M unit :=
    found ← Pod_exists name;
    if found : bool
    then LOG DEBUG ("Terminating pod " +:+ name) ;; Pod_delete name
    else mret tt.

  (** [KubernetesScheduler._schedule_kube_pod] *)
Definition _schedule_kube_pod (job : Job) : M unit :=
    s ← get;
    config ← lift (_kube_pod_template py_str schema (environ s) job);
    try_except
      (Pod_create conflict config)
      (λ error,
         match error with
         | RequestsHTTPError status_code =>
             Some (if (status_code =? 409)%Z
                   then LOG WARNING ("Job already scheduled " +:+ str_id (job_id job))
                   else LOG ERROR ("requests.HTTPError " +:+ str_int status_code))
         | PykubeHTTPError msg => Some (LOG ERROR ("pykube.HTTPError " +:+ msg))
         | _ => None
         end).

  (** [KubernetesScheduler.schedule] *)
Definition schedule (job : Job) : M unit :=
    LOG DEBUG ("Scheduling job for job id " +:+ str_id (job_id job)) ;;
    terminate (_worker_name (job_id job)) ;;
    _schedule_kube_pod job.

End Accountant.

(** ** The state store *)

(** A value of a column, as a keyword argument carries it. *)
Inductive value : Type :=
  | VNull
  | VInt (n : Z)
  | VNum (q : Q)
  | VStr (s : string)
  | VBool (b : bool)
  | VPayload (p : list (string * Z)).

Definition value_eqb (a b : value) : bool :=
  match a, b with
  | VNull, VNull => true
  | VInt m, VInt n => (m =? n)%Z
  | VNum p, VNum q => Qeq_bool p q
  | VInt m, VNum q => Qeq_bool (inject_Z m) q
  | VNum p, VInt n => Qeq_bool p (inject_Z n)
  | VStr s, VStr t => String.eqb s t
  | VBool x, VBool y => Bool.eqb x y
  | VPayload p, VPayload q => bool_decide (p = q)
  | _, _ => false
  end.

(** [getattr(job, df.name)] *)
Definition getattr (job : Job) (f : field) : value :=
  match f with
  | F_worker => VStr (worker job)
  | F_cbn => from_option VInt VNull (cbn job)
  | F_payload => VPayload (payload job)
  | F_request_cpu => from_option VNum VNull (request_cpu job)
  | F_request_memory => from_option VNum VNull (request_memory job)
  | F_limit_cpu => from_option VNum VNull (limit_cpu job)
  | F_limit_memory => from_option VNum VNull (limit_memory job)
  | F_restart => VBool (restart job)
  | F_kvm_access => VBool (kvm_access job)
  | F_data_access => VBool (data_access job)
  | F_priority => VInt (priority job)
  end.

Definition as_num (v : value) : option Q :=
  match v with
  | VNum q => Some q
  | VInt n => Some (inject_Z n)
  | _ => None
  end.

Definition as_int (v : value) : option Z :=
  match v with
  | VInt n => Some n
  | _ => None
  end.

(** Writes a column of an instance; a value of the wrong type for the column
    leaves the instance as it is. *)
Definition store_field (f : field) (v : value) (j : Job) : Job :=
  let mk w c p rc rm lc lm rs kv da pr :=
    Build_Job (job_id j) w c p rc rm lc lm rs kv da pr (dirty_fields j) in
  let keep := j in
  match f, v with
  | F_worker, VStr s =>
      mk s (cbn j) (payload j) (request_cpu j) (request_memory j) (limit_cpu j)
         (limit_memory j) (restart j) (kvm_access j) (data_access j) (priority j)
  | F_cbn, (VInt _ | VNull) =>
      mk (worker j) (as_int v) (payload j) (request_cpu j) (request_memory j) (limit_cpu j)
         (limit_memory j) (restart j) (kvm_access j) (data_access j) (priority j)
  | F_payload, VPayload p =>
      mk (worker j) (cbn j) p (request_cpu j) (request_memory j) (limit_cpu j)
         (limit_memory j) (restart j) (kvm_access j) (data_access j) (priority j)
  | F_request_cpu, (VNum _ | VInt _ | VNull) =>
      mk (worker j) (cbn j) (payload j) (as_num v) (request_memory j) (limit_cpu j)
         (limit_memory j) (restart j) (kvm_access j) (data_access j) (priority j)
  | F_request_memory, (VNum _ | VInt _ | VNull) =>
      mk (worker j) (cbn j) (payload j) (request_cpu j) (as_num v) (limit_cpu j)
         (limit_memory j) (restart j) (kvm_access j) (data_access j) (priority j)
  | F_limit_cpu, (VNum _ | VInt _ | VNull) =>
      mk (worker j) (cbn j) (payload j) (request_cpu j) (request_memory j) (as_num v)
         (limit_memory j) (restart j) (kvm_access j) (data_access j) (priority j)
  | F_limit_memory, (VNum _ | VInt _ | VNull) =>
      mk (worker j) (cbn j) (payload j) (request_cpu j) (request_memory j) (limit_cpu j)
         (as_num v) (restart j) (kvm_access j) (data_access j) (priority j)
  | F_restart, VBool b =>
      mk (worker j) (cbn j) (payload j) (request_cpu j) (request_memory j) (limit_cpu j)
         (limit_memory j) b (kvm_access j) (data_access j) (priority j)
  | F_kvm_access, VBool b =>
      mk (worker j) (cbn j) (payload j) (request_cpu j) (request_memory j) (limit_cpu j)
         (limit_memory j) (restart j) b (data_access j) (priority j)
  | F_data_access, VBool b =>
      mk (worker j) (cbn j) (payload j) (request_cpu j) (request_memory j) (limit_cpu j)
         (limit_memory j) (restart j) (kvm_access j) b (priority j)
  | F_priority, VInt n =>
      mk (worker j) (cbn j) (payload j) (request_cpu j) (request_memory j) (limit_cpu j)
         (limit_memory j) (restart j) (kvm_access j) (data_access j) n
  | _, _ => keep
  end.

Definition with_dirty (d : list field) (j : Job) : Job :=
  Build_Job (job_id j) (worker j) (cbn j) (payload j) (request_cpu j) (request_memory j)
            (limit_cpu j) (limit_memory j) (restart j) (kvm_access j) (data_access j)
            (priority j) d.

Definition with_id (i : option Z) (j : Job) : Job :=
  Build_Job i (worker j) (cbn j) (payload j) (request_cpu j) (request_memory j)
            (limit_cpu j) (limit_memory j) (restart j) (kvm_access j) (data_access j)
            (priority j) (dirty_fields j).

(** [job.<f> = v]: the column is written and marked dirty. *)
Definition setattr (j : Job) (f : field) (v : value) : Job :=
  let j' := store_field f v j in
  if bool_decide (f ∈ dirty_fields j') then j'
  else with_dirty (dirty_fields j' ++ [f]) j'.

Record Crash : Type := {
  crash_id : Z;
  kind : string
}.

Record ChallengeBinaryNode : Type := {
  cbn_id : Z;
  crashes : list Crash
}.

Record RawRoundPoll : Type := {
  poll_id : Z;
  sanitized : bool
}.

(** Modelled from the spec: the state store (package farnsworth), section 6
    of the specification: job rows, challenge binaries with their crashes,
    raw round polls; the per-kind job models ([RexJob],
    [PollSanitizerJob]) are the rows with that kind's worker tag. *)
Record database : Type := {
  job_rows : list Job;
  challenge_binary_nodes : list ChallengeBinaryNode;
  raw_round_polls : list RawRoundPoll
}.

Definition set_job_rows (rows : list Job) (db : database) : database :=
  {| job_rows := rows;
     challenge_binary_nodes := challenge_binary_nodes db;
     raw_round_polls := raw_round_polls db |}.

(** An instance of the model [model] on which nothing was set. *)
Definition blank_job (model : string) : Job :=
  {| job_id := None; worker := model; cbn := None; payload := [];
     request_cpu := None; request_memory := None; limit_cpu := None; limit_memory := None;
     restart := false; kvm_access := false; data_access := false;
     priority := 0; dirty_fields := [] |}.

Definition row_matches (model : string) (kwargs : list (field * value)) (row : Job) : bool :=
  String.eqb (worker row) model
  && forallb (λ '(f, v), value_eqb (getattr row f) v) kwargs.

Definition fresh_id (rows : list Job) : Z :=
  (1 + foldr Z.max 0 (omap job_id rows))%Z.

(** Modelled from the spec: [Model.get_or_create] of the state store, called
    with keyword arguments: the first row of the model that agrees with every keyword
    argument, or else a new row made of the keyword arguments. The second
    component tells whether the row was created. *)
Definition get_or_create (model : string) (kwargs : list (field * value))
    (db : database) : Job * bool * database :=
  match List.find (row_matches model kwargs) (job_rows db) with
  | Some row => (row, false, db)
  | None =>
      let row :=
        with_id (Some (fresh_id (job_rows db)))
          (foldr (λ '(f, v) j, store_field f v j) (blank_job model) kwargs) in
      (row, true, set_job_rows (job_rows db ++ [row]) db)
  end.

(** Modelled from the spec: [job.save()] of the state store: the row with
    the identifier of the instance takes the columns of the instance. *)
Definition save (job : Job) (db : database) : database :=
  set_job_rows
    (map (λ row, if bool_decide (job_id row = job_id job) then with_dirty [] job else row)
         (job_rows db))
    db.

(** ** Job creators *)

(** What draining a creator's [jobs] gives: the jobs yielded, the store
    afterwards and the lines logged. *)
Record produced : Type := {
  yielded : list Job;
  db_after : database;
  logged : list (level * string)
}.

Definition Creator : Type := database → produced.

(** A [for] loop whose body may touch the store, log and yield. *)
Fixpoint for_yield {A} (l : list A) (body : A → database → produced) (db : database) : produced :=
  match l with
  | [] => {| yielded := []; db_after := db; logged := [] |}
  | x :: l' =>
      let p := body x db in
      let q := for_yield l' body (db_after p) in
      {| yielded := yielded p ++ yielded q;
         db_after := db_after q;
         logged := logged p ++ logged q |}
  end.

Module Vulnerability.
Definition IP_OVERWRITE := "ip_overwrite".
Definition PARTIAL_IP_OVERWRITE := "partial_ip_overwrite".
Definition UNCONTROLLED_IP_OVERWRITE := "uncontrolled_ip_overwrite".
Definition BP_OVERWRITE := "bp_overwrite".
Definition PARTIAL_BP_OVERWRITE := "partial_bp_overwrite".
Definition WRITE_WHAT_WHERE := "write_what_where".
Definition WRITE_X_WHERE := "write_x_where".
Definition UNCONTROLLED_WRITE := "uncontrolled_write".
Definition ARBITRARY_READ := "arbitrary_read".
Definition NULL_DEREFERENCE := "null_dereference".
Definition UNKNOWN := "unknown".
End Vulnerability.

Definition PRIORITY_MAP : gmap string Z :=
  list_to_map
    [ (Vulnerability.IP_OVERWRITE, 100%Z);
      (Vulnerability.PARTIAL_IP_OVERWRITE, 80%Z);
      (Vulnerability.ARBITRARY_READ, 75%Z);
      (Vulnerability.WRITE_WHAT_WHERE, 50%Z);
      (Vulnerability.WRITE_X_WHERE, 25%Z);
      (Vulnerability.BP_OVERWRITE, 10%Z);
      (Vulnerability.PARTIAL_BP_OVERWRITE, 5%Z);
      (Vulnerability.UNCONTROLLED_WRITE, 0%Z);
      (Vulnerability.UNCONTROLLED_IP_OVERWRITE, 0%Z);
      (Vulnerability.NULL_DEREFERENCE, 0%Z) ].

Module RexCreator.

  (** The worker tag of [RexJob]. *)
Definition RexJob : string := "rex".

  (** The body of the inner loop of [jobs], for one crash of one binary. *)
Definition crash_body (cbn : ChallengeBinaryNode) (crash : Crash) (db : database) : produced :=
    if bool_decide (kind crash ∈ [Vulnerability.NULL_DEREFERENCE;
                                  Vulnerability.UNCONTROLLED_IP_OVERWRITE;
                                  Vulnerability.UNCONTROLLED_WRITE;
                                  Vulnerability.UNKNOWN])
    then {| yielded := []; db_after := db; logged := [] |}
    else
      let '(job, _, db') :=
        get_or_create RexJob
          [ (F_cbn, VInt (cbn_id cbn));
            (F_payload, VPayload [("crash_id", crash_id crash)]);
            (F_limit_cpu, VInt 1);
            (F_limit_memory, VInt 10) ] db in
      match PRIORITY_MAP !! kind crash with
      | Some p =>
          let job := setattr job F_priority (VInt p) in
          {| yielded := [job];
             db_after := db';
             logged := [(DEBUG, "Yielding RexJob for " +:+ str_int (cbn_id cbn)
                                +:+ " with crash " +:+ str_int (crash_id crash)
                                +:+ " priority " +:+ str_int (priority job))] |}
      | None =>
          {| yielded := [];
             db_after := db';
             logged := [(ERROR, "No priority for crash kind '" +:+ kind crash
                                +:+ "', this is a bug")] |}
      end.

  (** [RexCreator.jobs], drained. [self.cbns()] is every binary the store
      knows. *)
Definition jobs : Creator := λ db,
    for_yield (challenge_binary_nodes db)
      (λ cbn, for_yield (crashes cbn) (crash_body cbn)) db.

End RexCreator.

Module NetworkPollSanitizerCreator.

  (** The worker tag of [PollSanitizerJob]. *)
Definition PollSanitizerJob : string := "poll_sanitizer".

Definition poll_body (curr_unsan_poll : RawRoundPoll) (db : database) : produced :=
    let '(job, _, db') :=
      get_or_create PollSanitizerJob
        [ (F_payload, VPayload [("rrp_id", poll_id curr_unsan_poll)]) ] db in
    {| yielded := [];           (* the yield is commented out *)
       db_after := db';
       logged := [(DEBUG, "Creating PollSanitizerJob for "
                          +:+ str_int (poll_id curr_unsan_poll))] |}.

  (** [NetworkPollSanitizerCreator.jobs]: the loop runs when the property is
      read, and what is returned is [iter(())]. *)
Definition jobs : Creator := λ db,
    let p := for_yield (filter (λ poll, sanitized poll = false) (raw_round_polls db))
                       poll_body db in
    {| yielded := []; db_after := db_after p; logged := logged p |}.

End NetworkPollSanitizerCreator.

(** ** The scheduler loop *)

(** What a [with master_db.atomic():] block does to the store's
    transactions. *)
Inductive transaction_event : Type := Begin | Commit | Rollback.

Section BaseScheduler.

  (** [self.brain.sort]: the prioritization brain, a strategy the scheduler
      is constructed with. *)
Variable brain_sort : list Job → list (Job * Z).

  (** [self.creators] *)
Variable creators : list Creator.

  (** [BaseScheduler.jobs]: the creators are drained one after the other
      and their jobs chained. *)
Definition BaseScheduler_jobs : Creator := λ db,
    for_yield creators (λ c, c) db.

  (** The body of the loop of [run] in the mode without cluster. *)
Definition persist (db : database) (candidate : Job * Z) : database :=
    let '(job, priority) := candidate in
    let kwargs := map (λ df, (df, getattr job df)) (dirty_fields job) in
    let '(job, _, db') := get_or_create (worker job) kwargs db in
    let job := setattr job F_priority (VInt priority) in
    save job db'.

  (** [BaseScheduler._run] *)
Definition _run : M unit := raise (NotImplementedError "Implement it!").

  (** [BaseScheduler.run], on the scheduler's state and the state store.
      The last component lists what [master_db.atomic()] did: the
      transaction it opened and how it ended. *)
Definition run (s : state) (db : database)
      : result unit * state * database * list transaction_event :=
    if _is_kubernetes_unavailable (environ s)
    then
      let p := BaseScheduler_jobs db in
      let db' := fold_left persist (brain_sort (yielded p)) (db_after p) in
      (Ok tt, set_log (log s ++ logged p) s, db', [Begin; Commit])
    else
      let '(r, s') := _run s in (r, s', db, []).

End BaseScheduler.

(** ** Vocabulary of the properties *)

(** The variables of the environment that [_kube_pod_template] reads with
    [os.environ[...]]. *)
Definition required_environ (environ : gmap string string) : Prop :=
  Forall (λ key, is_Some (environ !! key))
    ["WORKER_IMAGE"; "WORKER_IMAGE_PULL_POLICY"; "POSTGRES_DATABASE_USER";
     "POSTGRES_DATABASE_PASSWORD"; "POSTGRES_DATABASE_NAME"].

(** The [resources] entry of a container, from the four numbers. *)
Definition resources_entry (py_str : Q → string) (r : job_resources) : resources_dict :=
  {| requests :=
       Some (<["cpu" := py_str (jr_request_cpu r)]>
               (<["memory" := py_str (jr_request_memory r) +:+ "Mi"]> ∅));
     limits :=
       Some (<["cpu" := py_str (jr_limit_cpu r)]>
               (<["memory" := py_str (jr_limit_memory r) +:+ "Mi"]> ∅)) |}.

(** The limit as the specification words it: the schema default when the
    hint is unset, otherwise the larger of the hint and twice the request. *)
Definition spec_limit (request : Q) (hint : option Q) (default : Q) : Q :=
  match hint with
  | None => default
  | Some l => if Qle_bool (2 * request) l then l else (2 * request)%Q
  end.

(** A rendering of the hints of a job with which the model can be run, for
    hints that are ints or floats with a fraction: a whole number as [str]
    prints an int, any other number by its decimal expansion cut after
    twelve places. A float that is whole, which [str] prints with [.0], is
    not told from the int. *)
Fixpoint fraction_digits (places : nat) (r d : Z) : string :=
  match places with
  | O => ""
  | S places' =>
      if (r =? 0)%Z then ""
      else String (ascii_of_nat (48 + Z.to_nat (r * 10 / d)))
                  (fraction_digits places' (r * 10 mod d) d)
  end.

Definition render_number (q : Q) : string :=
  let q' := Qred q in
  let n := Qnum q' in
  let d := Zpos (Qden q') in
  if (d =? 1)%Z then str_int n
  else (if (n <? 0)%Z then "-" else "")
       +:+ str_int (Z.abs n / d) +:+ "." +:+ fraction_digits 12 (Z.abs n mod d) d.

(** A schema, an environment and jobs to run the model on. *)
Definition example_schema : JobSchema :=
  {| request_cpu_default := 1; request_memory_default := 1024;
     limit_cpu_default := 2; limit_memory_default := 2048 |}.

(** A schema whose default memory request is below the limit that the
    exploit creator asks for. *)
Definition small_schema : JobSchema :=
  {| request_cpu_default := 1; request_memory_default := 4;
     limit_cpu_default := 2; limit_memory_default := 2048 |}.

Definition example_environ : gmap string string :=
  list_to_map
    [ ("KUBERNETES_SERVICE_HOST", "10.0.0.1");
      ("MEISTER_OVERPROVISIONING", "1.0");
      ("WORKER_IMAGE", "worker:latest");
      ("WORKER_IMAGE_PULL_POLICY", "Always");
      ("POSTGRES_DATABASE_USER", "postgres");
      ("POSTGRES_DATABASE_PASSWORD", "secret");
      ("POSTGRES_DATABASE_NAME", "farnsworth") ].

Definition example_job (rc rm lc lm : option Q) : Job :=
  {| job_id := Some 7%Z; worker := "rex"; cbn := Some 1%Z; payload := [("crash_id", 3%Z)];
     request_cpu := rc; request_memory := rm; limit_cpu := lc; limit_memory := lm;
     restart := false; kvm_access := false; data_access := false;
     priority := 0; dirty_fields := [] |}.

(** A stand-in for the numbers in the lines that the accountant logs, with
    which the model can be run. *)
Definition no_numbers (a : budget) : string := "(cpu) cores, (memory) GiB, (pods) pods".



(** A scheduler that has not looked at the cluster yet, in the example
    environment, at some time of the year 2016. *)
Definition example_state (pods : gmap string Pod) (nodes : gmap string Node)
    (faults : list (option exn)) : state :=
  {| _node_capacities := None;
     _available_resources := None;
     _resources_timestamp := 0;
     environ := example_environ;
     now := 1470000000000000;
     cluster_pods := pods;
     cluster_nodes := nodes;
     faults := faults;
     api_calls := [];
     log := [] |}.

(** A pod with one container that has the given requests and limits. *)
Definition example_pod (name : string) (ph : phase)
    (req lim : option (gmap string string)) : Pod :=
  {| pod_phase := ph;
     pod_obj :=
       {| metadata_name := name;
          metadata_labels := ∅;
          restartPolicy := "Never";
          containers :=
            [ {| container_name := name; image := "worker:latest";
                 imagePullPolicy := "Always";
                 resources := {| requests := req; limits := lim |};
                 env := []; volumeMounts := []; securityContext := ∅ |} ];
          volumes := [] |} |}.

Definition example_node (c m p : string) : Node :=
  {| node_capacity := list_to_map [("cpu", c); ("memory", m); ("pods", p)] |}.

Definition quantities (c m : string) : option (gmap string string) :=
  Some (list_to_map [("cpu", c); ("memory", m)]).

(** *** The accountant *)

Definition takes_resources (pod : Pod) : bool :=
  match pod_phase pod with
  | Pending | Running => true
  | _ => false
  end.

Definition is_over (pod : Pod) : bool :=
  match pod_phase pod with
  | Succeeded | Failed => true
  | _ => false
  end.

(** The cpu and the memory that [cpu2float] and [memory2int] read in a
    dictionary of quantities. *)
Definition quantity_pair (d : gmap string string) : result (spec_float * Z) :=
  c ← dict_get d "cpu" ≫= cpu2float;
  m ← dict_get d "memory" ≫= memory2int;
  mret (c, m).

(** What the accountant charges a pod with, as the code reads it: the
    requests of the first container, its limits when it has no requests,
    nothing when its resources are empty, the quantities read by
    [cpu2float] and [memory2int]. *)
Definition pod_cost (pod : Pod) : result (spec_float * Z) :=
  match containers (pod_obj pod) with
  | [] => Raise IndexError
  | c :: _ =>
      match requests (resources c), limits (resources c) with
      | Some r, _ => quantity_pair r
      | None, Some l => quantity_pair l
      | None, None => quantity_pair (<["cpu" := "0"]> (<["memory" := "0Ki"]> ∅))
      end
  end.

Definition total_capacity (caps : gmap string capacity) : capacity :=
  fold_left capacity_add (map_to_list caps).*2 capacity_zero.

(** The sum of floats added one after the other to [0.0], and the sum of
    integers. *)
Definition sum_floats (l : list spec_float) : spec_float :=
  fold_left Py.fadd l (S754_zero false).

Definition sumZ (l : list Z) : Z := foldr Z.add 0%Z l.

(** A float of the sign [s] that is not NaN. *)
Definition signed (s : bool) (x : spec_float) : Prop :=
  match x with
  | S754_zero s' | S754_infinity s' | S754_finite s' _ _ => s' = s
  | S754_nan => False
  end.


(** What is left of a float after others have been subtracted from it, one
    after the other. *)
Definition minus_floats (x : spec_float) (l : list spec_float) : spec_float :=
  fold_left Py.fsub l x.

Definition charge_one (a : capacity) (cost : spec_float * Z) : capacity :=
  {| cpu := Py.fsub (cpu a) cost.1; memory := (memory a - cost.2)%Z; pods := (pods a - 1)%Z |}.

(** The three multiplications by the overprovisioning factor. *)
Definition scale (f : spec_float) (a : budget) : result budget :=
  m ← Py.mul (memory a) (Py.Float f);
  p ← Py.mul (pods a) (Py.Float f);
  mret {| cpu := Py.fmul (cpu a) f; memory := m; pods := p |}.

(** The pods of the cluster in the order of the listing, those that take up
    resources and the names of those that are over. *)
Definition charged_pods (m : gmap string Pod) : list (string * Pod) :=
  filter (λ named, takes_resources named.2 = true) (map_to_list m).

Definition over_names (listing : list (string * Pod)) : list string :=
  (filter (λ named, is_over named.2 = true) listing).*1.

(** The line [cleanup] logs for a pod. *)
Definition cleanup_line (named : string * Pod) : level * string :=
  match pod_phase named.2 with
  | Pending | Running => (DEBUG, "Pod " +:+ named.1 +:+ " is taking up resources")
  | Failed => (WARNING, "Pod " +:+ named.1 +:+ " failed")
  | Unknown => (WARNING, "Pod " +:+ named.1 +:+ " in unknown state")
  | Succeeded => (DEBUG, "Pod " +:+ named.1 +:+ " succeeded")
  | Other => (DEBUG, "Pod " +:+ named.1 +:+ " is in a weird state")
  end.

(** The state after [cleanup] of a pod, on a cluster that answers. *)
Definition cleanup_state (s : state) (named : string * Pod) : state :=
  let s1 := set_log (log s ++ [cleanup_line named]) s in
  if is_over named.2
  then set_cluster_pods (delete named.1 (cluster_pods s1))
         (set_api_calls (api_calls s1 ++ [PodDelete named.1]) s1)
  else s1.

Definition classify (named : string * Pod) : result (option (string * Pod)) :=
  Ok (if takes_resources named.2 then Some named else None).

(** What [_kube_node_capacities] leaves alone: everything but the cached
    capacities and the record of calls. *)
Definition capacities_frame (s s' : state) : Prop :=
  _available_resources s' = _available_resources s
  ∧ _resources_timestamp s' = _resources_timestamp s
  ∧ environ s' = environ s
  ∧ now s' = now s
  ∧ cluster_pods s' = cluster_pods s
  ∧ cluster_nodes s' = cluster_nodes s
  ∧ log s' = log s.

Definition delete_all (names : list string) (m : gmap string Pod) : gmap string Pod :=
  fold_left (λ m name, delete name m) names m.

(** The cluster of the accounting scenario of the specification: a node of
    4 cpus, 8 GiB and 10 pod slots; a running pod A that requests 1500m and
    2Gi; a succeeded pod B. *)
Definition scenario_state : state :=
  example_state
    (<["A" := example_pod "A" Running (quantities "1500m" "2Gi") None]>
       (<["B" := example_pod "B" Succeeded (quantities "1" "1Gi") None]> ∅))
    {[ "node-1" := example_node "4" "8Gi" "10" ]}
    [].

(** A cluster that is overcommitted: a node of 1 cpu, 1 GiB and 1 pod slot
    that runs two pods of 2 cpus and 2 GiB each. *)
Definition overcommitted_state : state :=
  example_state
    (<["a" := example_pod "a" Running (quantities "2" "2Gi") None]>
       (<["b" := example_pod "b" Pending None (quantities "2" "2Gi")]> ∅))
    {[ "node-1" := example_node "1" "1Gi" "1" ]}
    [].

(** A cluster whose cpus are all requested: a node of 0.3 cpu that runs
    two pods of 100m and 200m. *)
Definition exhausted_state : state :=
  example_state
    (<["a" := example_pod "a" Running (quantities "100m" "1Gi") None]>
       (<["b" := example_pod "b" Running (quantities "200m" "1Gi") None]> ∅))
    {[ "node-1" := example_node "0.3" "8Gi" "10" ]}
    [].

(** The cluster of the accounting scenario, but for the memory that pod A
    requests: one GiB, written as a number of bytes. *)
Definition bare_bytes_state : state :=
  example_state
    (<["A" := example_pod "A" Running (quantities "1500m" "1073741824") None]>
       (<["B" := example_pod "B" Succeeded (quantities "1" "1Gi") None]> ∅))
    {[ "node-1" := example_node "4" "8Gi" "10" ]}
    [].

(** *** The creators *)

(** The kinds of crash that the specification says are filtered out. *)
Definition filtered_kinds : list string :=
  ["null_dereference"; "uncontrolled_ip_overwrite"; "uncontrolled_write"; "unknown"].

(** The priorities of the kinds that give a job, as the table of the
    specification has them. *)
Definition priority_table : gmap string Z :=
  list_to_map
    [ ("ip_overwrite", 100%Z); ("partial_ip_overwrite", 80%Z); ("arbitrary_read", 75%Z);
      ("write_what_where", 50%Z); ("write_x_where", 25%Z); ("bp_overwrite", 10%Z);
      ("partial_bp_overwrite", 5%Z) ].

Definition emitted_priorities : list Z := [5; 10; 25; 50; 75; 80; 100]%Z.

(** What identifies a job of the exploit creator, and its priority. *)
Definition job_summary (job : Job) : option Z * list (string * Z) * Z :=
  (cbn job, payload job, priority job).

(** One job for every crash whose kind is in the table, in the order of the
    binaries and of their crashes. *)
Definition expected_jobs (db : database) : list (option Z * list (string * Z) * Z) :=
  flat_map (λ cbn,
    flat_map (λ crash,
      match priority_table !! kind crash with
      | Some p => [(Some (cbn_id cbn), [("crash_id", crash_id crash)], p)]
      | None => []
      end) (crashes cbn))
    (challenge_binary_nodes db).

(** The level of the line logged for every crash: none when it is filtered,
    an error when its kind is not in the table. *)
Definition expected_levels (db : database) : list level :=
  flat_map (λ cbn,
    flat_map (λ crash,
      if bool_decide (kind crash ∈ filtered_kinds) then []
      else match priority_table !! kind crash with
           | Some _ => [DEBUG]
           | None => [ERROR]
           end) (crashes cbn))
    (challenge_binary_nodes db).

(** The rows of the sanitizer job of a poll. *)
Definition sanitizer_rows (id : Z) (rows : list Job) : list Job :=
  List.filter
    (row_matches NetworkPollSanitizerCreator.PollSanitizerJob
       [(F_payload, VPayload [("rrp_id", id)])])
    rows.

Definition unsanitized_ids (db : database) : list Z :=
  poll_id <$> filter (λ poll, sanitized poll = false) (raw_round_polls db).

(** What the specification says of every job the exploit creator emits. *)
Definition rex_job_ok (job : Job) : Prop :=
  worker job = RexCreator.RexJob
  ∧ (∃ q, limit_cpu job = Some q ∧ (q == 1)%Q)
  ∧ (∃ q, limit_memory job = Some q ∧ (q == 10)%Q)
  ∧ priority job ∈ emitted_priorities.

(** A store with one binary that has three crashes, and two raw polls, one
    of which is sanitized. *)
Definition example_database : database :=
  {| job_rows := [];
     challenge_binary_nodes :=
       [ {| cbn_id := 1;
            crashes := [ {| crash_id := 11; kind := "ip_overwrite" |};
                         {| crash_id := 12; kind := "arbitrary_read" |};
                         {| crash_id := 13; kind := "null_dereference" |} ] |} ];
     raw_round_polls :=
       [ {| poll_id := 21; sanitized := false |};
         {| poll_id := 22; sanitized := true |} ] |}.

(** *** The scheduler loop *)

(** The keyword arguments that [run] makes of the dirty fields of a job. *)
Definition dirty_kwargs (job : Job) : list (field * value) :=
  map (λ df, (df, getattr job df)) (dirty_fields job).

(** The row that [type(job).get_or_create] resolves a job to, in a store. *)
Definition job_row (db : database) (job : Job) : Job :=
  (get_or_create (worker job) (dirty_kwargs job) db).1.1.

(** The contract of the brain that [run] relies on: every job it is given
    comes back, with a priority. *)
Definition brain_keeps_jobs (brain_sort : list Job → list (Job * Z)) : Prop :=
  ∀ jobs job, job ∈ jobs → ∃ pr, (job, pr) ∈ brain_sort jobs.

(** A brain that ranks a job one above the priority it came with. *)
Definition example_brain (jobs : list Job) : list (Job * Z) :=
  map (λ job, (job, (priority job + 1)%Z)) jobs.

(** A creator that yields two instances it has not saved. *)
Definition example_creator : Creator := λ db,
  {| yielded :=
       [ setattr (setattr (setattr (blank_job "rex") F_cbn (VInt 1))
                    F_payload (VPayload [("crash_id", 11%Z)]))
           F_priority (VInt 100);
         setattr (setattr (setattr (blank_job "rex") F_cbn (VInt 1))
                    F_payload (VPayload [("crash_id", 12%Z)]))
           F_priority (VInt 75) ];
     db_after := db;
     logged := [] |}.

(** A scheduler started without [KUBERNETES_SERVICE_HOST]. *)
Definition offline_state : state :=
  {| _node_capacities := None;
     _available_resources := None;
     _resources_timestamp := 0;
     environ := delete "KUBERNETES_SERVICE_HOST" example_environ;
     now := 1470000000000000;
     cluster_pods := {[ "worker-7" := example_pod "worker-7" Running None None ]};
     cluster_nodes := ∅;
     faults := [];
     api_calls := [];
     log := [] |}.
From Stdlib Require DecimalZ DecimalPos.

(** ** Vocabulary of the further properties *)

(** *** Numerals *)

(** The value of a decimal numeral read from the left, after [acc]. *)
Fixpoint uint_val (acc : Z) (d : Decimal.uint) : Z :=
  match d with
  | Decimal.Nil => acc
  | Decimal.D0 l => uint_val (acc * 10 + 0) l
  | Decimal.D1 l => uint_val (acc * 10 + 1) l
  | Decimal.D2 l => uint_val (acc * 10 + 2) l
  | Decimal.D3 l => uint_val (acc * 10 + 3) l
  | Decimal.D4 l => uint_val (acc * 10 + 4) l
  | Decimal.D5 l => uint_val (acc * 10 + 5) l
  | Decimal.D6 l => uint_val (acc * 10 + 6) l
  | Decimal.D7 l => uint_val (acc * 10 + 7) l
  | Decimal.D8 l => uint_val (acc * 10 + 8) l
  | Decimal.D9 l => uint_val (acc * 10 + 9) l
  end.

Fixpoint all_chars (P : ascii → bool) (s : string) : bool :=
  match s with
  | "" => true
  | String c s' => P c && all_chars P s'
  end.

Definition is_digit (c : ascii) : bool := bool_decide (is_Some (Py.digit c)).


(** The number that a run of digits stands for, after [acc]. *)
Fixpoint digits_value (acc : Z) (s : string) : Z :=
  match s with
  | "" => acc
  | String c s' => digits_value (acc * 10 + default 0%Z (Py.digit c)) s'
  end.

(** *** What a call keeps *)

(** A computation keeps the invariant [I] of the state, however it ends,
    and what it returns, when it returns, satisfies [Q]. *)
Definition triple {A} (I : state → Prop) (m : M A) (Q : A → Prop) : Prop :=
  ∀ s, I s → I (m s).2 ∧ ∀ a, (m s).1 = Ok a → Q a.

(** An invariant that does not look at the log, at the record of calls or
    at the outcomes to come. *)
Class Bookkeeping (I : state → Prop) : Prop := {
  keeps_log : ∀ s l, I s → I (set_log l s);
  keeps_api_calls : ∀ s c, I s → I (set_api_calls c s);
  keeps_faults : ∀ s f, I s → I (set_faults f s)
}.

(** The cache of the accountant, with what the accountant reads around it,
    is as in [s0]. *)
Definition accounts_of (s0 s : state) : Prop :=
  _node_capacities s = _node_capacities s0
  ∧ _available_resources s = _available_resources s0
  ∧ _resources_timestamp s = _resources_timestamp s0
  ∧ environ s = environ s0
  ∧ now s = now s0
  ∧ cluster_nodes s = cluster_nodes s0.

(** The pods are those of [m0], but for the one named [name]. *)
Definition pods_but (name : string) (m0 : gmap string Pod) (s : state) : Prop :=
  ∀ k, k ≠ name → cluster_pods s !! k = m0 !! k.

(** The pods are pods of [m0], and those of [m0] that are not over are
    all there. *)
Definition over_only (m0 : gmap string Pod) (s : state) : Prop :=
  cluster_pods s ⊆ m0
  ∧ ∀ k pod, m0 !! k = Some pod → is_over pod = false → cluster_pods s !! k = Some pod.

(** The process is in the environment, at the time and with the nodes of
    [s0]. *)
Definition surroundings_of (s0 s : state) : Prop :=
  environ s = environ s0 ∧ now s = now s0 ∧ cluster_nodes s = cluster_nodes s0.

(** *** The pod template *)

(** The variables that [_kube_pod_template] reads with [os.environ[...]],
    in the order in which it reads them. *)
Definition template_environ : list string :=
  ["WORKER_IMAGE"; "WORKER_IMAGE_PULL_POLICY"; "POSTGRES_DATABASE_USER";
   "POSTGRES_DATABASE_PASSWORD"; "POSTGRES_DATABASE_NAME"].

(** The first of them that the environment does not hold. *)
Definition first_missing (environ : gmap string string) : option string :=
  List.find (λ key, bool_decide (environ !! key = None)) template_environ.

Definition volume_name (v : volume) : string :=
  match v with
  | emptyDir name _ => name
  | hostPath name _ => name
  end.

(** *** The accountant *)

(** The body of the loop of [_kube_node_capacities] over the nodes. *)
Definition record_node (named : string * Node) : M unit :=
  let '(name, node) := named in
  c ← lift (parse_node_capacity node);
  modify (λ s, set_node_capacities
                 (Some (<[name := c]> (default ∅ (_node_capacities s)))) s).

(** The capacities recorded of a listing of nodes that can all be read. *)
Definition recorded (caps : gmap string capacity) (named : string * Node)
    : gmap string capacity :=
  match parse_node_capacity named.2 with
  | Ok c => <[named.1 := c]> caps
  | Raise _ => caps
  end.

(** The clock has moved to [t]. *)
Definition set_now (t : Z) (s : state) : state :=
  {| _node_capacities := _node_capacities s;
     _available_resources := _available_resources s;
     _resources_timestamp := _resources_timestamp s;
     environ := environ s; now := t;
     cluster_pods := cluster_pods s; cluster_nodes := cluster_nodes s;
     faults := faults s; api_calls := api_calls s; log := log s |}.

(** A cluster of two nodes, one of which reports no number of cpus. *)
Definition half_read_state : state :=
  example_state ∅
    {[ "node-1" := example_node "4" "8Gi" "10";
       "node-2" := {| node_capacity := list_to_map [("memory", "8Gi"); ("pods", "10")] |} ]}
    [].

(** A cluster of two nodes, with a running pod A, a succeeded pod B and a
    pending pod C that has limits and no requests. *)
Definition two_nodes_state : state :=
  example_state
    (<["A" := example_pod "A" Running (quantities "1500m" "2Gi") None]>
       (<["B" := example_pod "B" Succeeded (quantities "1" "1Gi") None]>
          (<["C" := example_pod "C" Pending None (quantities "250m" "512Mi")]> ∅)))
    {[ "node-1" := example_node "4" "8Gi" "10";
       "node-2" := example_node "500m" "4Gi" "5" ]}
    [].

(** The end of [_kube_resources]: the time is taken, the budget is scaled,
    logged and returned. *)
Definition stamp_and_scale (describe : budget → string) : M (option budget) :=
  modify (λ s, set_resources_timestamp (now s) s) ;;
  f ← overprovisioning;
  update_available (λ a,
    Ok {| cpu := Py.fmul (cpu a) f; memory := memory a; pods := pods a |}) ;;
  f ← overprovisioning;
  update_available (λ a,
    m' ← Py.mul (memory a) (Py.Float f);
    Ok {| cpu := cpu a; memory := m'; pods := pods a |}) ;;
  f ← overprovisioning;
  update_available (λ a,
    p' ← Py.mul (pods a) (Py.Float f);
    Ok {| cpu := cpu a; memory := memory a; pods := p' |}) ;;
  s ← get;
  LOG DEBUG ("Resources available: "
             +:+ from_option describe "" (_available_resources s)) ;;
  mret (_available_resources s).

(** [_kube_resources] from the loop over the classified pods on: the pods
    are charged, and then the budget is stamped and scaled. *)
Definition charge_and_scale (describe : budget → string)
    (outcomes : list (result (option (string * Pod)))) : M (option budget) :=
  for_each outcomes charge ;;
  stamp_and_scale describe.

(** [_kube_resources] on a miss, up to the loop over the classified pods:
    the budget is set to the total capacity, the pods are listed and
    classified. *)
Definition list_and_classify (describe : budget → string)
    : M (list (result (option (string * Pod)))) :=
  total ← _kube_total_capacity describe;
  modify (set_available_resources (Some (budget_of total))) ;;
  listing ← Pod_objects;
  map_each listing (λ named, future (cleanup named)).

(** The clock shows the time of [s0]. *)
Definition at_time_of (s0 s : state) : Prop := now s = now s0.

(** The state in which two states of the scheduler may differ while the
    accountant's cache is the same. *)
Definition same_cache (s s' : state) : Prop :=
  _available_resources s' = _available_resources s
  ∧ _resources_timestamp s' = _resources_timestamp s.

(** A cluster with a running pod whose memory request has the decimal unit
    [G], which [memory2int] does not know. *)
Definition unreadable_state : state :=
  example_state
    (<["A" := example_pod "A" Running (quantities "1" "1G") None]>
       (<["B" := example_pod "B" Succeeded (quantities "1" "1Gi") None]> ∅))
    {[ "node-1" := example_node "4" "8Gi" "10" ]}
    [].

(** The scenario of the accounting, in an environment without the
    overprovisioning factor. *)
Definition unscaled_state : state :=
  {| _node_capacities := None;
     _available_resources := None;
     _resources_timestamp := 0;
     environ := delete "MEISTER_OVERPROVISIONING" example_environ;
     now := 1470000000000000;
     cluster_pods := cluster_pods scenario_state;
     cluster_nodes := cluster_nodes scenario_state;
     faults := [];
     api_calls := [];
     log := [] |}.

(** Since [s0] the budget has not been stamped, the clock has not moved and
    the pods are the same. *)
Definition unstamped (s0 s : state) : Prop :=
  _resources_timestamp s = _resources_timestamp s0
  ∧ now s = now s0
  ∧ cluster_pods s = cluster_pods s0.

(** The process runs in another environment. *)
Definition set_environ (v : gmap string string) (s : state) : state :=
  {| _node_capacities := _node_capacities s;
     _available_resources := _available_resources s;
     _resources_timestamp := _resources_timestamp s;
     environ := v; now := now s;
     cluster_pods := cluster_pods s; cluster_nodes := cluster_nodes s;
     faults := faults s; api_calls := api_calls s; log := log s |}.

(** *** The store *)

(** The store has grown from [db] to [db'] by rows appended, all of which
    satisfy [P]; the rows it had, the binaries and the polls are as they
    were. *)
Definition grows (P : Job → Prop) (db db' : database) : Prop :=
  (∃ more, job_rows db' = job_rows db ++ more ∧ Forall P more)
  ∧ challenge_binary_nodes db' = challenge_binary_nodes db
  ∧ raw_round_polls db' = raw_round_polls db.

(** What a loop body produced, in another store that it does not touch. *)
Definition replayed (p : produced) (db : database) : produced :=
  {| yielded := yielded p; db_after := db; logged := logged p |}.

(** The keyword arguments with which [RexCreator.jobs] asks for the row of
    a crash. *)
Definition rex_kwargs (cbn : ChallengeBinaryNode) (crash : Crash) : list (field * value) :=
  [ (F_cbn, VInt (cbn_id cbn));
    (F_payload, VPayload [("crash_id", crash_id crash)]);
    (F_limit_cpu, VInt 1);
    (F_limit_memory, VInt 10) ].

(** A row of the exploit job that no priority was written to. *)
Definition fresh_rex_row (row : Job) : Prop :=
  worker row = RexCreator.RexJob ∧ priority row = 0%Z.

(** The kinds of crash that [RexCreator.jobs] skips. *)
Definition skipped (crash : Crash) : Prop :=
  kind crash ∈ [Vulnerability.NULL_DEREFERENCE; Vulnerability.UNCONTROLLED_IP_OVERWRITE;
                Vulnerability.UNCONTROLLED_WRITE; Vulnerability.UNKNOWN].

(** A store with one binary and two crashes of it: one of a kind that has a
    priority, one of a kind that has none and is not skipped either. *)
Definition unlisted_database : database :=
  {| job_rows := [];
     challenge_binary_nodes :=
       [ {| cbn_id := 1;
            crashes := [ {| crash_id := 31; kind := "arbitrary_transmit" |};
                         {| crash_id := 32; kind := "ip_overwrite" |} ] |} ];
     raw_round_polls := [] |}.

(** * Properties *)

(** ** Strings *)

Lemma string_length_app (p q : string) :
  String.length (p +:+ q) = (String.length p + String.length q)%nat.
Proof. induction p as [|c p IH]; simpl; [done | by rewrite IH]. Qed.

Lemma take_app (p q : string) : Py.take (String.length p) (p +:+ q) = p.
Proof.
  induction p as [|c p IH]; simpl.
  - by destruct q.
  - by rewrite IH.
Qed.

Lemma drop_app (p q : string) : Py.drop (String.length p) (p +:+ q) = q.
Proof. induction p as [|c p IH]; simpl; [by destruct q | done]. Qed.

Lemma slice_to_neg_app (p q : string) (k : nat) :
  k = String.length q → Py.slice_to_neg k (p +:+ q) = p.
Proof.
  intros ->. unfold Py.slice_to_neg. rewrite string_length_app.
  replace (String.length p + String.length q - String.length q)%nat
    with (String.length p) by lia.
  apply take_app.
Qed.

Lemma endswith_app (p q q' : string) :
  String.length q' = String.length q →
  Py.endswith (p +:+ q) q' = String.eqb q q'.
Proof.
  intros Hlen. unfold Py.endswith. rewrite string_length_app, Hlen.
  replace (String.length p + String.length q - String.length q)%nat
    with (String.length p) by lia.
  rewrite drop_app.
  replace (String.length q <=? String.length p + String.length q)%nat with true; [done |].
  symmetry. apply Nat.leb_le. lia.
Qed.

(** ** Quantities *)

Section Binary64.

  Import PrimFloat.

  (** The floats of the embedding against the floats of the machine: what
      [float] reads in a numeral, what a division by a thousand gives and
      what a subtraction leaves are the binary64 numbers. *)
Example floats_are_binary64 :
    Py.float "0.1" = Ok (FloatOps.Prim2SF 0x1.999999999999ap-4%float)
    ∧ Py.float "0.3" = Ok (FloatOps.Prim2SF 0x1.3333333333333p-2%float)
    ∧ Py.float "2.5" = Ok (FloatOps.Prim2SF 2.5%float)
    ∧ Py.float "-1e-320" = Ok (FloatOps.Prim2SF (-0x0.00000000007e8p-1022)%float)
    ∧ Py.float "9007199254740993" = Ok (FloatOps.Prim2SF 9007199254740992%float)
    ∧ Py.float "1.7976931348623157e308" = Ok (FloatOps.Prim2SF 0x1.fffffffffffffp+1023%float)
    ∧ Py.float "1e400" = Ok (S754_infinity false)
    ∧ Py.float " -Inf " = Ok (S754_infinity true)
    ∧ Py.float "NaN" = Ok S754_nan
    ∧ Py.float "-0" = Ok (S754_zero true)
    ∧ Py.float "1e" = Raise (ValueError "could not convert string to float")
    ∧ Py.div1000 1500 = Ok (FloatOps.Prim2SF 1.5%float)
    ∧ Py.div1000 100 = Ok (FloatOps.Prim2SF (100 / 1000)%float)
    ∧ Py.fsub (Py.fsub (FloatOps.Prim2SF 0x1.3333333333333p-2%float)
                       (FloatOps.Prim2SF 0x1.999999999999ap-4%float))
              (FloatOps.Prim2SF 0x1.999999999999ap-3%float)
      = FloatOps.Prim2SF (-0x1p-55)%float
    ∧ Py.float_of_int (2 ^ 53 + 1) = Ok (FloatOps.Prim2SF 0x1p+53%float)
    ∧ Py.float_of_int (2 ^ 1024 - 2 ^ 970 - 1)
      = Ok (FloatOps.Prim2SF 0x1.fffffffffffffp+1023%float)
    ∧ Py.float_of_int (2 ^ 1024 - 2 ^ 970) = Raise OverflowError.
  Proof. repeat split; vm_compute; reflexivity. Qed.

End Binary64.

Example cpu2float_1500m : cpu2float "1500m" = Ok (Py.round_decimal false 15 (-1)).
Proof. vm_compute. reflexivity. Qed.
Example cpu2float_4 : cpu2float "4" = Ok (Py.round_int 4).
Proof. vm_compute. reflexivity. Qed.
Example cpu2float_half : cpu2float "0.5" = Ok (Py.round_decimal false 5 (-1)).
Proof. vm_compute. reflexivity. Qed.
Example memory2int_2Gi : memory2int "2Gi" = Ok (2 * 1024 ^ 3)%Z.
Proof. reflexivity. Qed.
Example memory2int_0Ki : memory2int "0Ki" = Ok 0%Z.
Proof. reflexivity. Qed.

(** The suffix [m] divides the integer before it by a thousand. *)
Lemma cpu2float_milli (p : string) :
  cpu2float (p +:+ "m") = rbind (Py.int p) Py.div1000.
Proof.
  unfold cpu2float.
  rewrite (endswith_app p "m" "m") by done. 
  by rewrite (slice_to_neg_app p "m").
Qed.

(** Without the suffix [m] the string is read as a number of cores. *)
Lemma cpu2float_cores (s : string) :
  Py.endswith s "m" = false → cpu2float s = Py.float s.
Proof. intros H. unfold cpu2float. by rewrite H. Qed.

Lemma memory2int_Ki (p : string) :
  memory2int (p +:+ "Ki") = rmap (λ n, n * 1024)%Z (Py.int p).
Proof.
  unfold memory2int.
  rewrite (endswith_app p "Ki" "Ki") by done. 
  by rewrite (slice_to_neg_app p "Ki").
Qed.

Lemma memory2int_Mi (p : string) :
  memory2int (p +:+ "Mi") = rmap (λ n, n * 1024 ^ 2)%Z (Py.int p).
Proof.
  unfold memory2int.
  rewrite (endswith_app p "Mi" "Ki"), (endswith_app p "Mi" "Mi") by done. 
  by rewrite (slice_to_neg_app p "Mi").
Qed.

Lemma memory2int_Gi (p : string) :
  memory2int (p +:+ "Gi") = rmap (λ n, n * 1024 ^ 3)%Z (Py.int p).
Proof.
  unfold memory2int.
  rewrite (endswith_app p "Gi" "Ki"), (endswith_app p "Gi" "Mi"),
    (endswith_app p "Gi" "Gi") by done. 
  by rewrite (slice_to_neg_app p "Gi").
Qed.

(** Without one of the three suffixes the multiplier is one, and the last
    two characters are dropped all the same. *)
Lemma memory2int_no_suffix (s : string) :
  Py.endswith s "Ki" = false → Py.endswith s "Mi" = false → Py.endswith s "Gi" = false →
  memory2int s = rmap (λ n, n * 1)%Z (Py.int (Py.slice_to_neg 2 s)).
Proof. intros H1 H2 H3. unfold memory2int. by rewrite H1, H2, H3. Qed.

(** C5. [cpu2float] reads the suffix [m] as thousandths and a bare number as
    cores, and [memory2int] reads [Ki], [Mi] and [Gi] as powers of 1024
    ([cpu2float_milli], [cpu2float_cores], [memory2int_Ki], [memory2int_Mi],
    [memory2int_Gi]). A memory string without a suffix is not read as its
    byte count: the two last digits are dropped, so that 1024 bytes are read
    as 10, and a string of one digit is refused. *)
Theorem memory2int_bare_bytes :
  Py.int "1024" = Ok 1024%Z
  ∧ memory2int "1024" = Ok 10%Z
  ∧ memory2int "128974848" = Ok 1289748%Z
  ∧ memory2int "7" = Raise (ValueError "invalid literal for int() with base 10").
Proof. repeat split; reflexivity. Qed.

(** ** The pod template *)

Example render_number_examples :
  render_number (1 # 2) = "0.5" ∧ render_number 1024 = "1024"
  ∧ render_number (5 # 4) = "1.25" ∧ render_number (-3 # 2) = "-1.5".
Proof. repeat split; reflexivity. Qed.

Lemma Qltb_lt (a b : Q) : Qltb a b = true ↔ (a < b)%Q.
Proof.
  unfold Qltb. rewrite negb_true_iff, <- not_true_iff_false, Qle_bool_iff.
  split; [apply Qnot_le_lt | apply Qlt_not_le].
Qed.

Lemma Qltb_ge (a b : Q) : Qltb a b = false ↔ (b <= a)%Q.
Proof. unfold Qltb. by rewrite negb_false_iff, Qle_bool_iff. Qed.

Lemma required_environ_get (environ : gmap string string) (key : string) :
  is_Some (environ !! key) → ∃ v, environ_get environ key = Ok v.
Proof. intros [v Hv]. exists v. unfold environ_get. by rewrite Hv. Qed.

(** With its environment in place the template returns a specification that
    is named after the job and has one container, whose [resources] render
    the four numbers of [pod_resources]. *)
Lemma kube_pod_template_returns py_str schema environ job :
  required_environ environ →
  ∃ cfg c,
    _kube_pod_template py_str schema environ job = Ok cfg
    ∧ metadata_name cfg = _worker_name (job_id job)
    ∧ containers cfg = [c]
    ∧ resources c = resources_entry py_str (pod_resources schema job).
Proof.
  intros Henv. unfold required_environ in Henv.
  repeat (apply Forall_cons_1 in Henv as [?%required_environ_get Henv]).
  repeat match goal with H : ∃ _, _ |- _ => destruct H as [? ?] end.
  unfold _kube_pod_template.
  destruct (kvm_access job), (data_access job);
    repeat match goal with
           | H : environ_get _ _ = Ok _ |- _ => rewrite H; clear H; simpl
           end;
    eexists _, _; repeat split; reflexivity.
Qed.

(** The limit the template computes, case by case. *)
Lemma pod_limit_cases (request : Q) (hint : option Q) (default : Q) :
  match hint with
  | None => pod_limit request hint default = default
  | Some l =>
      ((request < l)%Q → pod_limit request hint default = l)
      ∧ ((l <= request)%Q → pod_limit request hint default = (request * 2)%Q)
  end.
Proof.
  destruct hint as [l|]; [| done]. simpl. split; intros H.
  - apply Qltb_lt in H. by rewrite H.
  - apply Qltb_ge in H. by rewrite H.
Qed.

(** Where the rule of the template and the larger of the hint and twice the
    request agree: everywhere but strictly between the request and its
    double. *)
Lemma pod_limit_spec_limit (request : Q) (hint : option Q) (default : Q) :
  (0 <= request)%Q →
  (∀ l, hint = Some l → ¬ (request < l ∧ l < 2 * request)%Q) →
  (pod_limit request hint default == spec_limit request hint default)%Q.
Proof.
  intros Hpos Hout. destruct hint as [l|]; simpl; [| reflexivity].
  destruct (Qltb request l) eqn:Hlt.
  - apply Qltb_lt in Hlt.
    destruct (Qle_bool (2 * request) l) eqn:Hle; [reflexivity |].
    exfalso. apply (Hout l eq_refl). split; [done |].
    apply Qnot_le_lt. intros H. apply Qle_bool_iff in H. congruence.
  - apply Qltb_ge in Hlt.
    destruct (Qle_bool (2 * request) l) eqn:Hle.
    + apply Qle_bool_iff in Hle. lra.
    + lra.
Qed.

(** C2, as the specification words it, fails: with a request of 512 and a
    limit of 600 the pod keeps the limit 600, where the larger of the limit
    and twice the request is 1024. *)
Lemma pod_limit_is_not_max :
  let job := example_job (Some 1%Q) (Some 512%Q) (Some 2%Q) (Some 600%Q) in
  (∃ cfg c,
     _kube_pod_template render_number example_schema example_environ job = Ok cfg
     ∧ containers cfg = [c]
     ∧ limits (resources c) ≫= (.!! "memory") = Some "600Mi")
  ∧ jr_limit_memory (pod_resources example_schema job) = 600%Q
  ∧ spec_limit 512 (limit_memory job) (limit_memory_default example_schema) = (2 * 512)%Q
  ∧ ¬ (jr_limit_memory (pod_resources example_schema job)
       == spec_limit 512 (limit_memory job) (limit_memory_default example_schema))%Q.
Proof.
  repeat split.
  - eexists _, _. repeat split; reflexivity.
  - intros H. vm_compute in H. discriminate.
Qed.

(** C2, amended. The specification built for a job carries, for each of cpu
    and memory, the schema default as limit when the job has no limit, the
    limit of the job when the request is below it, and twice the request
    otherwise; so a job with requests 0.5 and 512, no cpu limit and a
    memory limit of 256 gets the default cpu limit and the memory limit
    1024. *)
Theorem kube_pod_template_limits py_str schema environ job :
  required_environ environ →
  ∃ cfg c,
    _kube_pod_template py_str schema environ job = Ok cfg
    ∧ containers cfg = [c]
    ∧ let r := pod_resources schema job in
      limits (resources c)
      = Some (<["cpu" := py_str (jr_limit_cpu r)]>
                (<["memory" := py_str (jr_limit_memory r) +:+ "Mi"]> ∅))
      ∧ (limit_cpu job = None → jr_limit_cpu r = limit_cpu_default schema)
      ∧ (limit_memory job = None → jr_limit_memory r = limit_memory_default schema)
      ∧ (∀ l, limit_cpu job = Some l →
           ((jr_request_cpu r < l)%Q → jr_limit_cpu r = l)
           ∧ ((l <= jr_request_cpu r)%Q → jr_limit_cpu r = (jr_request_cpu r * 2)%Q))
      ∧ (∀ l, limit_memory job = Some l →
           ((jr_request_memory r < l)%Q → jr_limit_memory r = l)
           ∧ ((l <= jr_request_memory r)%Q →
              jr_limit_memory r = (jr_request_memory r * 2)%Q))
      ∧ (request_cpu job = Some (1 # 2)%Q → request_memory job = Some 512%Q →
         limit_cpu job = None → limit_memory job = Some 256%Q →
         jr_limit_cpu r = limit_cpu_default schema ∧ jr_limit_memory r = 1024%Q).
Proof.
  intros Henv.
  destruct (kube_pod_template_returns py_str schema environ job Henv)
    as (cfg & c & Hcfg & _ & Hc & Hres).
  exists cfg, c. split; [done |]. split; [done |].
  cbv zeta. rewrite Hres. split; [done |].
  unfold pod_resources; simpl.
  split; [by intros -> |]. split; [by intros -> |].
  split; [intros l ->; apply (pod_limit_cases _ (Some l)) |].
  split; [intros l ->; apply (pod_limit_cases _ (Some l)) |].
  intros -> -> -> ->. split; reflexivity.
Qed.

Lemma kube_pod_template_limits_witness :
  required_environ example_environ
  ∧ ∃ cfg c,
      _kube_pod_template render_number example_schema example_environ
        (example_job (Some (1 # 2)%Q) (Some 512%Q) None (Some 256%Q)) = Ok cfg
      ∧ containers cfg = [c]
      ∧ limits (resources c) = Some (<["cpu" := "2"]> (<["memory" := "1024Mi"]> ∅)).
Proof.
  assert (Henv : required_environ example_environ).
  { unfold required_environ. repeat constructor; by eexists. }
  split; [exact Henv |].
  destruct (kube_pod_template_limits render_number example_schema example_environ
              (example_job (Some (1 # 2)%Q) (Some 512%Q) None (Some 256%Q)) Henv)
    as (cfg & c & Hcfg & Hc & Hlim & _).
  exists cfg, c. repeat split; [exact Hcfg | exact Hc | exact Hlim].
Defined.

Lemma pod_limit_covers_request (request l default : Q) :
  (0 <= request)%Q → (request <= pod_limit request (Some l) default)%Q.
Proof.
  intros Hpos. simpl. destruct (Qltb request l) eqn:Hlt.
  - apply Qltb_lt in Hlt. lra.
  - lra.
Qed.

(** Whatever the defaults of the schema, a job without a limit hint and with
    a request above the default limit gets a limit below its request. *)
Lemma unset_limit_ignores_request (schema : JobSchema) :
  ∃ job,
    limit_cpu job = None
    ∧ (jr_limit_cpu (pod_resources schema job) < jr_request_cpu (pod_resources schema job))%Q.
Proof.
  exists (example_job (Some (limit_cpu_default schema + 1)%Q) None None None).
  split; [done |]. simpl. lra.
Qed.

(** C3, as the specification words it, fails: a job that requests 4 cpus and
    gives no limit is given the default limit of the schema, here 2, and
    twice the request is not substituted. *)
Lemma limit_below_request :
  let job := example_job (Some 4%Q) (Some 512%Q) None None in
  (∃ cfg c,
     _kube_pod_template render_number example_schema example_environ job = Ok cfg
     ∧ containers cfg = [c]
     ∧ requests (resources c) ≫= (.!! "cpu") = Some "4"
     ∧ limits (resources c) ≫= (.!! "cpu") = Some "2")
  ∧ ¬ (jr_request_cpu (pod_resources example_schema job)
       <= jr_limit_cpu (pod_resources example_schema job))%Q.
Proof.
  split.
  - eexists _, _. repeat split; reflexivity.
  - intros H. vm_compute in H. by apply H.
Qed.

(** C3, amended. For a job whose limit hints are set and whose requests are
    not negative, the specification built has, for cpu and for memory, a
    limit that is at least the request; when the limit of the job does not
    exceed the request, the limit is twice the request. Where a limit hint
    is unset the limit is the schema default, whatever the request. *)
Theorem kube_pod_template_limit_covers_request py_str schema environ job :
  required_environ environ →
  ∃ cfg c,
    _kube_pod_template py_str schema environ job = Ok cfg
    ∧ containers cfg = [c]
    ∧ let r := pod_resources schema job in
      resources c = resources_entry py_str r
      ∧ (∀ l, limit_cpu job = Some l → (0 <= jr_request_cpu r)%Q →
           (jr_request_cpu r <= jr_limit_cpu r)%Q
           ∧ ((l <= jr_request_cpu r)%Q → jr_limit_cpu r = (jr_request_cpu r * 2)%Q))
      ∧ (∀ l, limit_memory job = Some l → (0 <= jr_request_memory r)%Q →
           (jr_request_memory r <= jr_limit_memory r)%Q
           ∧ ((l <= jr_request_memory r)%Q →
              jr_limit_memory r = (jr_request_memory r * 2)%Q))
      ∧ (limit_cpu job = None → jr_limit_cpu r = limit_cpu_default schema)
      ∧ (limit_memory job = None → jr_limit_memory r = limit_memory_default schema).
Proof.
  intros Henv.
  destruct (kube_pod_template_returns py_str schema environ job Henv)
    as (cfg & c & Hcfg & _ & Hc & Hres).
  exists cfg, c. split; [done |]. split; [done |].
  cbv zeta. split; [done |].
  unfold pod_resources; simpl.
  split.
  { intros l -> Hpos. split; [by apply pod_limit_covers_request |].
    apply (pod_limit_cases _ (Some l)). }
  split.
  { intros l -> Hpos. split; [by apply pod_limit_covers_request |].
    apply (pod_limit_cases _ (Some l)). }
  split; by intros ->.
Qed.

Lemma kube_pod_template_limit_covers_request_witness :
  let job := example_job (Some 3%Q) (Some 512%Q) (Some 1%Q) (Some 256%Q) in
  let r := pod_resources example_schema job in
  required_environ example_environ
  ∧ (∃ cfg c,
       _kube_pod_template render_number example_schema example_environ job = Ok cfg
       ∧ containers cfg = [c]
       ∧ resources c
         = {| requests := Some (<["cpu" := "3"]> (<["memory" := "512Mi"]> ∅));
              limits := Some (<["cpu" := "6"]> (<["memory" := "1024Mi"]> ∅)) |})
  ∧ (jr_request_cpu r <= jr_limit_cpu r)%Q
  ∧ jr_limit_memory r = (512 * 2)%Q.
Proof.
  intros job r.
  assert (Henv : required_environ example_environ).
  { unfold required_environ. repeat constructor; by eexists. }
  split; [exact Henv |].
  destruct (kube_pod_template_limit_covers_request render_number example_schema
              example_environ job Henv)
    as (cfg & c & Hcfg & Hc & Hres & Hcpu & Hmem & _).
  split; [exists cfg, c; repeat split; [exact Hcfg | exact Hc | exact Hres] |].
  split.
  - apply (Hcpu 1%Q eq_refl). vm_compute. discriminate.
  - apply (Hmem 256%Q eq_refl); vm_compute; discriminate.
Defined.

(** ** Dispatch: [terminate], [_schedule_kube_pod] and [schedule] *)

Ltac unfold_M :=
  unfold mbind, mret, M_bind, M_ret, get, modify, raise, lift, LOG, try_except, future in *.

Lemma api_no_faults (call : api_call) (s : state) :
  faults s = [] → api call s = (Ok tt, set_api_calls (api_calls s ++ [call]) s).
Proof. intros H. unfold api. by rewrite H. Qed.








(** An HTTP error raised by the creation of the pod is caught and logged:
    a conflict as a warning, anything else as an error. *)
Lemma schedule_kube_pod_absorbs_http conflict py_str schema (job : Job) (s : state)
    (cfg : config) (e : exn) (rest : list (option exn)) :
  _kube_pod_template py_str schema (environ s) job = Ok cfg →
  faults s = Some e :: rest →
  (∃ c, e = RequestsHTTPError c) ∨ (∃ m, e = PykubeHTTPError m) →
  ∃ lvl msg,
    _schedule_kube_pod conflict py_str schema job s
    = (Ok tt, set_log (log s ++ [(lvl, msg)])
                (set_faults rest
                   (set_api_calls (api_calls s ++ [PodCreate (metadata_name cfg)]) s)))
    ∧ (lvl = WARNING ↔ e = RequestsHTTPError 409).
Proof.
  intros Hcfg Hf He.
  unfold _schedule_kube_pod, Pod_create. unfold_M. simpl. rewrite Hcfg. simpl.
  unfold api. rewrite Hf. simpl.
  destruct He as [[c ->] | [m ->]]; simpl.
  - destruct (c =? 409)%Z eqn:Hc; simpl.
    + apply Z.eqb_eq in Hc as ->. eexists _, _. split; [reflexivity |]. done.
    + apply Z.eqb_neq in Hc. eexists _, _. split; [reflexivity |].
      split; [done | intros [= ?]; done].
  - eexists _, _. split; [reflexivity |]. done.
Qed.

(** A conflict answered by the cluster, because the pod exists, is such a
    case when the client reports it by an HTTP error: the call returns, the
    existing pod stays and a line is logged, a warning when the error is
    that of the requests library with the status 409. *)
Lemma schedule_kube_pod_conflict conflict py_str schema (job : Job) (s : state) (cfg : config) :
  _kube_pod_template py_str schema (environ s) job = Ok cfg →
  faults s = [] →
  is_Some (cluster_pods s !! metadata_name cfg) →
  (∃ c, conflict = RequestsHTTPError c) ∨ (∃ m, conflict = PykubeHTTPError m) →
  ∃ lvl msg s',
    _schedule_kube_pod conflict py_str schema job s = (Ok tt, s')
    ∧ cluster_pods s' = cluster_pods s
    ∧ log s' = log s ++ [(lvl, msg)]
    ∧ (lvl = WARNING ↔ conflict = RequestsHTTPError 409)
    ∧ (conflict = RequestsHTTPError 409 →
       msg = "Job already scheduled " +:+ str_id (job_id job)).
Proof.
  intros Hcfg Hf [old Hold] He.
  unfold _schedule_kube_pod, Pod_create. unfold_M. simpl. rewrite Hcfg. simpl.
  unfold api. rewrite Hf. simpl. rewrite Hold. simpl.
  destruct He as [[c ->] | [m ->]]; simpl.
  - destruct (c =? 409)%Z eqn:Hc; simpl.
    + apply Z.eqb_eq in Hc as ->. eexists _, _, _. split; [reflexivity |]. done.
    + apply Z.eqb_neq in Hc. eexists _, _, _. split; [reflexivity |].
      split; [done |]. split; [done |].
      split; [split; [done | intros [= ?]; done] | intros [= ?]; done].
  - eexists _, _, _. split; [reflexivity |]. done.
Qed.

(** C8. The creation of the pod is the one step whose HTTP errors are caught
    ([schedule_kube_pod_absorbs_http], [schedule_kube_pod_conflict]). An
    error raised by the calls of [terminate], [exists] and [delete], leaves
    [schedule]; so does a connection error raised by the creation; and an
    error raised by the [delete] of a pod that is over leaves
    [_kube_resources]. *)
Theorem transport_errors_leave_schedule :
  let job := example_job None None None None in
  let running : gmap string Pod :=
    {[ "worker-7" := example_pod "worker-7" Running None None ]} in
  let succeeded : gmap string Pod :=
    {[ "worker-9" := example_pod "worker-9" Succeeded None None ]} in
  let nodes : gmap string Node := {[ "node-1" := example_node "4" "8Gi" "10" ]} in
  (schedule (PykubeHTTPError "AlreadyExists") render_number example_schema job
     (example_state ∅ ∅ [Some (PykubeHTTPError "503")])).1
  = Raise (PykubeHTTPError "503")
  ∧ (schedule (PykubeHTTPError "AlreadyExists") render_number example_schema job
       (example_state running ∅ [None; Some (RequestsHTTPError 500)])).1
    = Raise (RequestsHTTPError 500)
  ∧ (schedule (PykubeHTTPError "AlreadyExists") render_number example_schema job
       (example_state ∅ ∅ [None; Some RequestsConnectionError])).1
    = Raise RequestsConnectionError
  ∧ (_kube_resources no_numbers
       (example_state succeeded nodes [None; None; Some (PykubeHTTPError "503")])).1
    = Raise (PykubeHTTPError "503").
Proof. repeat split; vm_compute; reflexivity. Qed.

(** ** Floats: what rounding does to the sign *)

Lemma shr_1_nonneg (mrs : shr_record) : (0 <= shr_m mrs)%Z → (0 <= shr_m (shr_1 mrs))%Z.
Proof. destruct mrs as [[|[p|p|]|p] r t]; simpl; lia. Qed.

Lemma iter_pos_nonneg (f : shr_record → shr_record) (p : positive) :
  (∀ mrs, (0 <= shr_m mrs)%Z → (0 <= shr_m (f mrs))%Z) →
  ∀ mrs, (0 <= shr_m mrs)%Z → (0 <= shr_m (SpecFloat.iter_pos f p mrs))%Z.
Proof.
  intros Hf. induction p as [p IH|p IH|]; intros mrs Hm; cbn [SpecFloat.iter_pos]; auto.
Qed.

Lemma shr_fexp_nonneg (m e : Z) (l : location) :
  (0 <= m)%Z → (0 <= shr_m (shr_fexp Py.prec Py.emax m e l).1)%Z.
Proof.
  intros Hm. unfold shr_fexp, shr.
  assert (H0 : (0 <= shr_m (shr_record_of_loc m l))%Z) by (by destruct l as [|[]]).
  destruct (fexp _ _ _ - e)%Z; cbn [fst]; try done.
  by apply iter_pos_nonneg; [apply shr_1_nonneg |].
Qed.

Lemma round_nearest_even_nonneg (m : Z) (l : location) :
  (0 <= m)%Z → (0 <= round_nearest_even m l)%Z.
Proof. intros Hm. destruct l as [|[]]; simpl; try done; [case_match |]; lia. Qed.

(** Rounding keeps the sign, and gives a number. *)
Lemma binary_round_aux_signed (s : bool) (m e : Z) (l : location) :
  (0 <= m)%Z → signed s (binary_round_aux Py.prec Py.emax s m e l).
Proof.
  intros Hm. unfold binary_round_aux.
  pose proof (shr_fexp_nonneg m e l Hm) as H1.
  destruct (shr_fexp Py.prec Py.emax m e l) as [mrs' e']. cbn [fst] in H1.
  pose proof (shr_fexp_nonneg _ e' loc_Exact
                (round_nearest_even_nonneg _ (loc_of_shr_record mrs') H1)) as H2.
  destruct (shr_fexp Py.prec Py.emax _ e' loc_Exact) as [mrs'' e'']. cbn [fst] in H2.
  destruct (shr_m mrs'') as [|p|p]; [done | | lia].
  by destruct (_ <=? _)%Z.
Qed.

Lemma binary_round_signed (s : bool) (m : positive) (e : Z) :
  signed s (binary_round Py.prec Py.emax s m e).
Proof.
  unfold binary_round. destruct (shl_align _ _ _) as [mz ez].
  by apply binary_round_aux_signed.
Qed.

Lemma signed_nonneg (x : spec_float) : signed false x → Py.nonneg x = true.
Proof. by destruct x as [[]|[]| |[] ? ?]. Qed.

(** The float nearest to an integer that is not negative is not
    negative. *)
Lemma round_int_nonneg (z : Z) : (0 <= z)%Z → Py.nonneg (Py.round_int z) = true.
Proof.
  intros Hz. unfold Py.round_int, binary_normalize.
  destruct z as [|p|p]; [done | | lia].
  apply signed_nonneg, binary_round_signed.
Qed.

(** The product of a float that is not negative and of a positive finite
    float is not negative. *)
Lemma fmul_nonneg (x : spec_float) (m : positive) (e : Z) :
  Py.nonneg x = true → Py.nonneg (Py.fmul x (S754_finite false m e)) = true.
Proof.
  intros Hx. destruct x as [[]|[]| |[] mx ex]; try done.
  unfold Py.fmul, SFmul. cbn [xorb].
  by apply signed_nonneg, binary_round_aux_signed.
Qed.

(** So is the product with an int that is not negative, when it can be
    taken. *)
Lemma mul_nonneg (a r : Py.number) (m : positive) (e : Z) :
  Py.num_nonneg a = true →
  Py.mul a (Py.Float (S754_finite false m e)) = Ok r →
  Py.num_nonneg r = true.
Proof.
  intros Ha. destruct a as [z|x]; cbn [Py.mul Py.to_float rbind Py.num_nonneg] in *.
  - apply Z.leb_le in Ha. pose proof (round_int_nonneg z Ha) as Hz.
    unfold Py.float_of_int.
    destruct (Py.round_int z) as [sz|sz| |sz mz ez] eqn:Hr; cbn [rbind];
      intros [= <-]; try done; exact (fmul_nonneg _ m e Hz).
  - intros [= <-]. exact (fmul_nonneg _ m e Ha).
Qed.

(** ** The resource accountant *)

Lemma cleanup_no_faults (named : string * Pod) (s : state) :
  faults s = [] →
  future (cleanup named) s = (Ok (classify named), cleanup_state s named).
Proof.
  intros Hf. destruct named as [name pod].
  unfold cleanup, classify, cleanup_state, cleanup_line, takes_resources, is_over,
    Pod_delete, future.
  cbn [fst snd].
  destruct (pod_phase pod); simpl; unfold_M; simpl; unfold api; simpl;
    rewrite ?Hf; reflexivity.
Qed.

Lemma cleanup_state_faults (s : state) (named : string * Pod) :
  faults (cleanup_state s named) = faults s.
Proof. unfold cleanup_state. by destruct (is_over named.2). Qed.

Lemma cleaned_faults (l : list (string * Pod)) (s : state) :
  faults (fold_left cleanup_state l s) = faults s.
Proof.
  revert s. induction l as [|x l IH]; intros s; simpl; [done |].
  by rewrite IH, cleanup_state_faults.
Qed.

(** Every pod of the listing is classified, one after the other. *)
Lemma map_cleanup_no_faults (l : list (string * Pod)) (s : state) :
  faults s = [] →
  map_each l (λ named, future (cleanup named)) s
  = (Ok (map classify l), fold_left cleanup_state l s).
Proof.
  revert s. induction l as [|x l IH]; intros s Hf; simpl; [done |].
  unfold mbind at 1. unfold M_bind at 1.
  rewrite (cleanup_no_faults x s Hf).
  unfold mbind at 1. unfold M_bind at 1.
  rewrite IH by (by rewrite cleanup_state_faults).
  reflexivity.
Qed.

Lemma pod_cost_inv (pod : Pod) (cost : spec_float * Z) :
  pod_cost pod = Ok cost →
  ∃ d,
    charged_resources pod = Ok d
    ∧ dict_get d "cpu" ≫= cpu2float = Ok cost.1
    ∧ dict_get d "memory" ≫= memory2int = Ok cost.2.
Proof.
  unfold pod_cost, charged_resources.
  destruct (containers (pod_obj pod)) as [|c0 cs]; [done |].
  assert (Hpair : ∀ d, quantity_pair d = Ok cost →
    dict_get d "cpu" ≫= cpu2float = Ok cost.1
    ∧ dict_get d "memory" ≫= memory2int = Ok cost.2).
  { intros d. unfold quantity_pair.
    destruct (dict_get d "cpu" ≫= cpu2float) as [c|]; [| done].
    destruct (dict_get d "memory" ≫= memory2int) as [m|]; [| done].
    by intros [= <-]. }
  destruct (requests (resources c0)) as [r|], (limits (resources c0)) as [l|]; intros H;
    eexists; (split; [reflexivity | by apply Hpair]).
Qed.

Lemma set_available_same (s : state) (a : budget) :
  _available_resources s = Some a → set_available_resources (Some a) s = s.
Proof. destruct s; simpl; intros ->; reflexivity. Qed.

(** An augmented assignment that does not raise stores its result. *)
Lemma update_available_ok (f : budget → result budget) (s : state) (a a' : budget) :
  _available_resources s = Some a →
  f a = Ok a' →
  update_available f s = (Ok tt, set_available_resources (Some a') s).
Proof. intros Ha Hf. unfold update_available. unfold_M. by rewrite Ha, Hf. Qed.

(** One that raises stores nothing. *)
Lemma update_available_raise (f : budget → result budget) (s : state) (a : budget) (e : exn) :
  _available_resources s = Some a →
  f a = Raise e →
  update_available f s = (Raise e, s).
Proof. intros Ha Hf. unfold update_available. unfold_M. by rewrite Ha, Hf. Qed.

Lemma charge_kept (named : string * Pod) (s : state) (a : capacity) (cost : spec_float * Z) :
  takes_resources named.2 = true →
  pod_cost named.2 = Ok cost →
  _available_resources s = Some (budget_of a) →
  charge (classify named) s
  = (Ok tt, set_available_resources (Some (budget_of (charge_one a cost))) s).
Proof.
  intros Htakes Hcost Ha.
  apply pod_cost_inv in Hcost as (d & Hd & Hc & Hm).
  destruct named as [name pod]. simpl in *.
  unfold charge, classify. cbn [snd]. rewrite Htakes.
  unfold mbind at 1. unfold M_bind at 1. unfold lift at 1.
  unfold mbind at 1. unfold M_bind at 1. unfold lift at 1. rewrite Hd.
  unfold mbind at 1. unfold M_bind at 1. unfold lift at 1. rewrite Hc.
  unfold mbind at 1. unfold M_bind at 1.
  erewrite update_available_ok; [| exact Ha | reflexivity].
  unfold mbind at 1. unfold M_bind at 1. unfold lift at 1. rewrite Hm.
  unfold mbind at 1. unfold M_bind at 1.
  erewrite update_available_ok; [| reflexivity | reflexivity].
  erewrite update_available_ok; [| reflexivity | reflexivity].
  reflexivity.
Qed.

Lemma charge_dropped (named : string * Pod) (s : state) :
  takes_resources named.2 = false → charge (classify named) s = (Ok tt, s).
Proof. intros H. unfold charge, classify. rewrite H. reflexivity. Qed.

(** The loop over the classified pods charges those that take up resources,
    in the order of the listing. *)
Lemma charge_all (l : list (string * Pod)) (costs : list (spec_float * Z)) :
  Forall2 (λ named cost, pod_cost named.2 = Ok cost)
          (filter (λ named, takes_resources named.2 = true) l) costs →
  ∀ (s : state) (a : capacity),
    _available_resources s = Some (budget_of a) →
    for_each (map classify l) charge s
    = (Ok tt, set_available_resources (Some (budget_of (fold_left charge_one costs a))) s).
Proof.
  revert costs. induction l as [|x l IH]; intros costs Hcosts s a Ha.
  - rewrite filter_nil in Hcosts. apply Forall2_nil_inv_l in Hcosts as ->.
    simpl. by rewrite set_available_same.
  - rewrite filter_cons in Hcosts. simpl.
    unfold mbind at 1. unfold M_bind at 1.
    destruct (decide (takes_resources x.2 = true)) as [Hx|Hx].
    + apply Forall2_cons_inv_l in Hcosts as (cost & costs' & Hcost & Hrest & ->).
      rewrite (charge_kept x s a cost Hx Hcost Ha).
      rewrite (IH costs' Hrest _ (charge_one a cost)) by reflexivity.
      reflexivity.
    + apply not_true_is_false in Hx.
      rewrite (charge_dropped x s Hx).
      by apply IH.
Qed.

Lemma cleaned_projections (l : list (string * Pod)) (s : state) :
  let s' := fold_left cleanup_state l s in
  _node_capacities s' = _node_capacities s
  ∧ _available_resources s' = _available_resources s
  ∧ _resources_timestamp s' = _resources_timestamp s
  ∧ environ s' = environ s
  ∧ now s' = now s
  ∧ cluster_nodes s' = cluster_nodes s
  ∧ cluster_pods s' = delete_all (over_names l) (cluster_pods s)
  ∧ api_calls s' = api_calls s ++ map PodDelete (over_names l).
Proof.
  revert s. induction l as [|x l IH]; intros s; simpl.
  - repeat split; try done. by rewrite app_nil_r.
  - destruct (IH (cleanup_state s x)) as (H1 & H2 & H3 & H4 & H5 & H6 & H7 & H8).
    rewrite H1, H2, H3, H4, H5, H6, H7, H8. clear.
    unfold over_names, cleanup_state. rewrite filter_cons.
    destruct (is_over x.2) eqn:Hx; simpl; rewrite <- ?app_assoc; done.
Qed.

Lemma node_loop_frame (nodes : list (string * Node)) :
  ∀ (s s' : state) (r : result unit),
    for_each nodes (λ '(name, node),
      c ← lift (parse_node_capacity node);
      modify (λ s, set_node_capacities
                     (Some (<[name := c]> (default ∅ (_node_capacities s)))) s)) s = (r, s') →
    capacities_frame s s' ∧ faults s' = faults s ∧ api_calls s' = api_calls s.
Proof.
  induction nodes as [|[name node] nodes IH]; intros s s' r; simpl.
  - intros [= _ <-]. by repeat split.
  - unfold mbind at 1. unfold M_bind at 1. unfold_M.
    destruct (parse_node_capacity node) as [c|e]; simpl.
    + intros H. apply IH in H as [(? & ? & ? & ? & ? & ? & ?) [? ?]]. by repeat split.
    + intros [= _ <-]. by repeat split.
Qed.

(** Listing and parsing the nodes touches neither the pods, nor the clock,
    nor the environment, nor the budget; on a cluster that answers, it
    leaves one that answers. *)
Lemma kube_node_capacities_frame (s s1 : state) (r : result (gmap string capacity)) :
  _kube_node_capacities s = (r, s1) →
  faults s = [] →
  capacities_frame s s1 ∧ faults s1 = []
  ∧ (api_calls s1 = api_calls s ∨ api_calls s1 = api_calls s ++ [ListNodes]).
Proof.
  unfold _kube_node_capacities, Node_objects. unfold_M.
  destruct (_node_capacities s) as [caps|] eqn:Hcaps.
  - intros [= _ <-] Hf. repeat split; auto.
  - intros H Hf.
    rewrite (api_no_faults ListNodes (set_node_capacities (Some ∅) s) Hf) in H. simpl in H.
    match type of H with
    | context [for_each ?l ?body ?s0] => destruct (for_each l body s0) as [r0 s0'] eqn:Hloop
    end.
    apply node_loop_frame in Hloop as [(? & ? & ? & ? & ? & ? & ?) [Hf' Hc']].
    simpl in *.
    destruct r0; inversion H; subst; repeat split; auto; congruence.
Qed.

Lemma kube_total_capacity_of describe (s s1 : state) (caps : gmap string capacity) :
  _kube_node_capacities s = (Ok caps, s1) →
  ∃ line, _kube_total_capacity describe s
          = (Ok (total_capacity caps), set_log (log s1 ++ [line]) s1).
Proof.
  intros H. unfold _kube_total_capacity. unfold mbind at 1. unfold M_bind at 1.
  rewrite H. unfold_M. eexists. reflexivity.
Qed.

(** On a miss, on a cluster that answers: the first half of
    [_kube_resources], up to the walk over the pods. *)
Lemma kube_resources_walk describe (s s1 : state) (caps : gmap string capacity) :
  (now s - _resources_timestamp s <=? 1000000)%Z = false →
  faults s = [] →
  _kube_node_capacities s = (Ok caps, s1) →
  ∃ s5,
    _kube_resources describe s
    = charge_and_scale describe (map classify (map_to_list (cluster_pods s))) s5
    ∧ _available_resources s5 = Some (budget_of (total_capacity caps))
    ∧ _resources_timestamp s5 = _resources_timestamp s
    ∧ environ s5 = environ s
    ∧ now s5 = now s
    ∧ cluster_pods s5
      = delete_all (over_names (map_to_list (cluster_pods s))) (cluster_pods s)
    ∧ api_calls s5
      = api_calls s1 ++ ListPods :: map PodDelete (over_names (map_to_list (cluster_pods s))).
Proof.
  intros Hmiss Hf Hcaps.
  destruct (kube_node_capacities_frame s s1 _ Hcaps Hf)
    as [(Ha1 & Ht1 & He1 & Hn1 & Hp1 & Hnd1 & Hl1) [Hf1 _]].
  destruct (kube_total_capacity_of describe s s1 caps Hcaps) as [line Htotal].
  unfold _kube_resources.
  unfold mbind at 1. unfold M_bind at 1. unfold get at 1. rewrite Hmiss.
  unfold mbind at 1. unfold M_bind at 1. rewrite Htotal.
  unfold mbind at 1. unfold M_bind at 1. unfold modify at 1.
  set (s3 := set_available_resources (Some (budget_of (total_capacity caps)))
               (set_log (log s1 ++ [line]) s1)).
  assert (Hf3 : faults s3 = []) by exact Hf1.
  unfold mbind at 1. unfold M_bind at 1.
  unfold Pod_objects. unfold mbind at 1. unfold M_bind at 1.
  rewrite (api_no_faults ListPods s3 Hf3).
  unfold mbind at 1. unfold M_bind at 1. unfold get at 1. unfold mret at 1. unfold M_ret at 1.
  set (s4 := set_api_calls (api_calls s3 ++ [ListPods]) s3).
  assert (Hp4 : cluster_pods s4 = cluster_pods s) by exact Hp1.
  rewrite Hp4.
  unfold mbind at 1. unfold M_bind at 1.
  rewrite (map_cleanup_no_faults (map_to_list (cluster_pods s)) s4 Hf3).
  destruct (cleaned_projections (map_to_list (cluster_pods s)) s4)
    as (_ & Ha5 & Ht5 & He5 & Hn5 & _ & Hp5 & Hcalls5).
  exists (fold_left cleanup_state (map_to_list (cluster_pods s)) s4).
  split; [reflexivity |].
  split; [by rewrite Ha5 |]. split; [by rewrite Ht5 |].
  split; [rewrite He5; exact He1 |]. split; [rewrite Hn5; exact Hn1 |].
  split; [rewrite Hp5; f_equal; exact Hp1 |].
  rewrite Hcalls5. simpl. by rewrite <- app_assoc.
Qed.

Lemma overprovisioning_of (s s0 : state) (r : result spec_float) :
  environ s = environ s0 →
  environ_get (environ s0) "MEISTER_OVERPROVISIONING" ≫= Py.float = r →
  overprovisioning s = (r, s).
Proof. intros He H. unfold overprovisioning. unfold_M. by rewrite He, H. Qed.

Lemma scale_inv (f : spec_float) (a r : budget) :
  scale f a = Ok r →
  ∃ m p,
    Py.mul (memory a) (Py.Float f) = Ok m
    ∧ Py.mul (pods a) (Py.Float f) = Ok p
    ∧ r = {| cpu := Py.fmul (cpu a) f; memory := m; pods := p |}.
Proof.
  unfold scale.
  destruct (Py.mul (memory a) _) as [m|]; [| done].
  destruct (Py.mul (pods a) _) as [p|]; [| done].
  intros [= <-]. by exists m, p.
Qed.

(** The end of [_kube_resources], when the factor can be read and the
    three products can be taken. *)
Lemma stamp_and_scale_ok describe (s : state) (a r : budget) (f : spec_float) :
  _available_resources s = Some a →
  environ_get (environ s) "MEISTER_OVERPROVISIONING" ≫= Py.float = Ok f →
  scale f a = Ok r →
  ∃ s', stamp_and_scale describe s = (Ok (Some r), s')
        ∧ _available_resources s' = Some r
        ∧ _resources_timestamp s' = now s
        ∧ cluster_pods s' = cluster_pods s
        ∧ api_calls s' = api_calls s.
Proof.
  intros Ha Hover (m & p & Hm & Hp & ->)%scale_inv.
  unfold stamp_and_scale.
  unfold mbind at 1. unfold M_bind at 1. unfold modify at 1.
  set (s1 := set_resources_timestamp (now s) s).
  unfold mbind at 1. unfold M_bind at 1. erewrite overprovisioning_of; [| reflexivity | exact Hover].
  unfold mbind at 1. unfold M_bind at 1.
  erewrite update_available_ok; [| exact Ha | reflexivity].
  unfold mbind at 1. unfold M_bind at 1. erewrite overprovisioning_of; [| reflexivity | exact Hover].
  unfold mbind at 1. unfold M_bind at 1.
  erewrite update_available_ok; [| reflexivity | cbn [memory]; by rewrite Hm].
  unfold mbind at 1. unfold M_bind at 1. erewrite overprovisioning_of; [| reflexivity | exact Hover].
  unfold mbind at 1. unfold M_bind at 1.
  erewrite update_available_ok; [| reflexivity | cbn [pods]; by rewrite Hp].
  unfold_M. unfold modify. cbn.
  eexists. split; [reflexivity |]. by cbn.
Qed.

(** The accountant on a cache miss, on a cluster that answers: the budget is
    the total capacity charged with the pods that take up resources, in the
    order of the listing, and then scaled; the pods that are over are
    deleted. *)
Lemma kube_resources_miss describe (s s1 : state) (caps : gmap string capacity)
    (f : spec_float) (costs : list (spec_float * Z)) (r : budget) :
  (now s - _resources_timestamp s <=? 1000000)%Z = false →
  faults s = [] →
  _kube_node_capacities s = (Ok caps, s1) →
  environ_get (environ s) "MEISTER_OVERPROVISIONING" ≫= Py.float = Ok f →
  Forall2 (λ named cost, pod_cost named.2 = Ok cost) (charged_pods (cluster_pods s)) costs →
  scale f (budget_of (fold_left charge_one costs (total_capacity caps))) = Ok r →
  let over := over_names (map_to_list (cluster_pods s)) in
  ∃ s', _kube_resources describe s = (Ok (Some r), s')
        ∧ _available_resources s' = Some r
        ∧ _resources_timestamp s' = now s
        ∧ cluster_pods s' = delete_all over (cluster_pods s)
        ∧ api_calls s' = api_calls s1 ++ ListPods :: map PodDelete over.
Proof.
  intros Hmiss Hf Hcaps Hover Hcosts Hscale over.
  destruct (kube_resources_walk describe s s1 caps Hmiss Hf Hcaps)
    as (s5 & Hrun & Ha5 & Ht5 & He5 & Hn5 & Hp5 & Hcalls5).
  rewrite Hrun. unfold charge_and_scale.
  unfold mbind at 1. unfold M_bind at 1.
  rewrite (charge_all (map_to_list (cluster_pods s)) costs Hcosts s5 (total_capacity caps) Ha5).
  set (s6 := set_available_resources _ s5).
  destruct (stamp_and_scale_ok describe s6 _ r f eq_refl) as (s' & -> & Ha & Ht & Hp & Hc);
    [by rewrite <- He5 in Hover | exact Hscale |].
  exists s'. split; [reflexivity |]. split; [exact Ha |].
  split; [by rewrite Ht |]. split; [by rewrite Hp |]. by rewrite Hc.
Qed.

(** The total capacity is, component by component, the sum over the nodes;
    the cpus are added one after the other, as floats. *)
Lemma fold_capacity_add (l : list capacity) (a : capacity) :
  fold_left capacity_add l a
  = {| cpu := fold_left Py.fadd (cpu <$> l) (cpu a);
       memory := (memory a + sumZ (memory <$> l))%Z;
       pods := (pods a + sumZ (pods <$> l))%Z |}.
Proof.
  revert a. induction l as [|c l IH]; intros a; cbn [fold_left fmap list_fmap sumZ foldr].
  - destruct a. cbn. f_equal; lia.
  - rewrite IH. cbn [capacity_add cpu memory pods]. f_equal; unfold sumZ; lia.
Qed.

Lemma total_capacity_sums (caps : gmap string capacity) :
  let nodes := (map_to_list caps).*2 in
  total_capacity caps
  = {| cpu := sum_floats (cpu <$> nodes);
       memory := sumZ (memory <$> nodes);
       pods := sumZ (pods <$> nodes) |}.
Proof. intros nodes. unfold total_capacity. by rewrite fold_capacity_add. Qed.

(** What the charges leave: the cpus are subtracted one after the other,
    as floats. *)
Lemma fold_charge_one (costs : list (spec_float * Z)) (a : capacity) :
  fold_left charge_one costs a
  = {| cpu := minus_floats (cpu a) costs.*1;
       memory := (memory a - sumZ costs.*2)%Z;
       pods := (pods a - Z.of_nat (length costs))%Z |}.
Proof.
  revert a. induction costs as [|[c m] costs IH]; intros a;
    cbn [fold_left fmap list_fmap sumZ foldr length].
  - destruct a. cbn. f_equal; lia.
  - rewrite IH. cbn [charge_one cpu memory pods fst snd minus_floats fold_left].
    unfold minus_floats. f_equal; unfold sumZ; lia.
Qed.

Lemma lookup_delete_all (names : list string) (m : gmap string Pod) (k : string) :
  delete_all names m !! k = if decide (k ∈ names) then None else m !! k.
Proof.
  unfold delete_all. revert m. induction names as [|n names IH]; intros m; cbn [fold_left].
  - destruct (decide (k ∈ [])) as [H|]; [by apply elem_of_nil in H | done].
  - rewrite IH.
    destruct (decide (k ∈ names)) as [Hin|Hout], (decide (k ∈ n :: names)) as [Hin'|Hout'];
      try done.
    + exfalso. apply Hout'. by apply list_elem_of_further.
    + apply elem_of_cons in Hin' as [->|?]; [| done]. apply lookup_delete_eq.
    + apply lookup_delete_ne. intros ->. apply Hout'. apply list_elem_of_here.
Qed.

Lemma elem_of_over_names (m : gmap string Pod) (name : string) :
  name ∈ over_names (map_to_list m) ↔ ∃ pod, m !! name = Some pod ∧ is_over pod = true.
Proof.
  unfold over_names. rewrite list_elem_of_fmap. split.
  - intros ([k pod] & -> & [Hover Hin]%list_elem_of_filter).
    exists pod. split; [by apply elem_of_map_to_list | done].
  - intros (pod & Hpod & Hover). exists (name, pod). split; [done |].
    apply list_elem_of_filter. split; [done | by apply elem_of_map_to_list].
Qed.

(** After the walk a pod is gone when it was over and is there, unchanged,
    when it was not. *)
Lemma lookup_after_cleanup (m : gmap string Pod) (name : string) (pod : Pod) :
  m !! name = Some pod →
  delete_all (over_names (map_to_list m)) m !! name
  = if is_over pod then None else Some pod.
Proof.
  intros Hpod. rewrite lookup_delete_all.
  destruct (is_over pod) eqn:Hover.
  - rewrite decide_True; [done |]. apply elem_of_over_names. eauto.
  - rewrite decide_False; [done |].
    intros (pod' & Hpod' & Hover')%elem_of_over_names. congruence.
Qed.

(** The accounting scenario of the specification, hypothesis by
    hypothesis. *)
Lemma scenario_capacities :
  _kube_node_capacities scenario_state
  = (Ok {[ "node-1" := {| cpu := Py.round_int 4; memory := (8 * 1024 ^ 3)%Z; pods := 10%Z |} ]},
     (_kube_node_capacities scenario_state).2).
Proof. vm_compute. reflexivity. Qed.

Lemma scenario_overprovisioning :
  environ_get (environ scenario_state) "MEISTER_OVERPROVISIONING" ≫= Py.float
  = Ok (Py.round_int 1).
Proof. vm_compute. reflexivity. Qed.

Lemma scenario_charged :
  charged_pods (cluster_pods scenario_state)
  = [("A", example_pod "A" Running (quantities "1500m" "2Gi") None)].
Proof. vm_compute. reflexivity. Qed.

Lemma scenario_costs :
  Forall2 (λ (named : string * Pod) cost, pod_cost named.2 = Ok cost)
          (charged_pods (cluster_pods scenario_state))
          [(Py.round_decimal false 15 (-1), (2 * 1024 ^ 3)%Z)].
Proof.
  rewrite scenario_charged.
  constructor; [vm_compute; reflexivity | constructor].
Qed.

(** The scenario of the specification: of a node of 4 cpus, 8 GiB and 10
    pod slots, with a running pod A that requests 1500m and 2Gi and a
    succeeded pod B, 2.5 cpus, 6 GiB and 9 pod slots are available, and B
    is deleted. *)
Example kube_resources_scenario :
  ∃ r s',
    _kube_resources no_numbers scenario_state = (Ok (Some r), s')
    ∧ Py.float "2.5" = Ok (cpu r)
    ∧ memory r = Py.Float (Py.round_int (6 * 1024 ^ 3))
    ∧ pods r = Py.Float (Py.round_int 9)
    ∧ cluster_pods s' !! "A" = cluster_pods scenario_state !! "A"
    ∧ cluster_pods s' !! "B" = None
    ∧ api_calls s' = [ListNodes; ListPods; PodDelete "B"].
Proof. eexists _, _. split; [vm_compute; reflexivity |]. repeat split. Qed.

(** C1. The accountant returns the capacity of the nodes less the charges
    of the pods that are pending or running, scaled, and deletes the pods
    that are over ([kube_resources_scenario]); but what it charges a pod
    with is what [memory2int] reads in its request, and of a number of
    bytes [memory2int] drops the last two digits. In the scenario of the
    specification, with the 1 GiB that pod A requests written as
    1073741824: A is charged 10737418 bytes, and of the 8 GiB of the node
    the accountant returns 8579197174 bytes where 7 GiB are left. *)
Theorem kube_resources_bare_bytes :
  memory2int "1Gi" = Ok 1073741824%Z
  ∧ memory2int "1073741824" = Ok 10737418%Z
  ∧ ∃ r s',
      _kube_resources no_numbers bare_bytes_state = (Ok (Some r), s')
      ∧ Py.float "2.5" = Ok (cpu r)
      ∧ pods r = Py.Float (Py.round_int 9)
      ∧ memory r = Py.Float (Py.round_int (8 * 1024 ^ 3 - 10737418))
      ∧ memory r ≠ Py.Float (Py.round_int (8 * 1024 ^ 3 - 1073741824))
      ∧ cluster_pods s' !! "B" = None.
Proof.
  split; [reflexivity |]. split; [reflexivity |].
  eexists _, _. split; [vm_compute; reflexivity |].
  repeat split. cbn [memory]. vm_compute. discriminate.
Qed.

(** C4, as the specification words it, fails: nothing clamps the budget. On
    a node of 1 cpu, 1 GiB and 1 pod slot with two pods of 2 cpus and 2 GiB
    the accountant returns -3 cpus, -3 GiB and -1 pod slots. *)
Lemma kube_resources_negative :
  ∃ r s',
    _kube_resources no_numbers overcommitted_state = (Ok (Some r), s')
    ∧ r = {| cpu := Py.round_int (-3);
             memory := Py.Float (Py.round_int (-3 * 1024 ^ 3));
             pods := Py.Float (Py.round_int (-1)) |}
    ∧ Py.nonneg (cpu r) = false
    ∧ Py.num_nonneg (memory r) = false
    ∧ Py.num_nonneg (pods r) = false.
Proof. eexists _, _. split; [vm_compute; reflexivity |]. repeat split. Qed.

(** Nor do requests that add up to the capacity leave zero: the cpus are
    floats. On a node of 0.3 cpu with two running pods of 100m and 200m the
    accountant returns a negative number of cpus, -2^-55. *)
Example kube_resources_rounding :
  ∃ r s',
    _kube_resources no_numbers exhausted_state = (Ok (Some r), s')
    ∧ cpu r = S754_finite true 4503599627370496 (-107)
    ∧ Py.nonneg (cpu r) = false.
Proof. eexists _, _. split; [vm_compute; reflexivity |]. repeat split. Qed.

(** C4, amended. The budget is not clamped, and it is not negative only
    when what is left is not. On a cache miss, on a cluster that answers
    and whose quantities can be read: when the float that is left of the
    sum of the cpus of the nodes after the cpus of the pods that are
    pending or running have been subtracted from it, one after the other,
    is not negative, when their memory is no more than the memory of the
    nodes and their number no more than the pod slots, and when the
    overprovisioning factor is a positive finite float by which the three
    can be multiplied, every component of the budget returned is at least
    zero. *)
Theorem kube_resources_nonnegative describe (s s1 : state) (caps : gmap string capacity)
    (f : spec_float) (costs : list (spec_float * Z)) (r : budget) :
  (now s - _resources_timestamp s <=? 1000000)%Z = false →
  faults s = [] →
  _kube_node_capacities s = (Ok caps, s1) →
  environ_get (environ s) "MEISTER_OVERPROVISIONING" ≫= Py.float = Ok f →
  Forall2 (λ named cost, pod_cost named.2 = Ok cost) (charged_pods (cluster_pods s)) costs →
  let nodes := (map_to_list caps).*2 in
  let left := {| cpu := minus_floats (sum_floats (cpu <$> nodes)) costs.*1;
                 memory := (sumZ (memory <$> nodes) - sumZ costs.*2)%Z;
                 pods := (sumZ (pods <$> nodes) - Z.of_nat (length costs))%Z |} in
  Py.nonneg (cpu left) = true →
  (sumZ costs.*2 <= sumZ (memory <$> nodes))%Z →
  (Z.of_nat (length costs) <= sumZ (pods <$> nodes))%Z →
  (∃ m e, f = S754_finite false m e) →
  scale f (budget_of left) = Ok r →
  ∃ s',
    _kube_resources describe s = (Ok (Some r), s')
    ∧ Py.nonneg (cpu r) = true
    ∧ Py.num_nonneg (memory r) = true
    ∧ Py.num_nonneg (pods r) = true.
Proof.
  intros Hmiss Hf Hcaps Hover Hcosts nodes left Hcpu Hmem Hpods (m & e & ->) Hscale.
  assert (Hleft : fold_left charge_one costs (total_capacity caps) = left).
  { rewrite fold_charge_one, total_capacity_sums. reflexivity. }
  destruct (kube_resources_miss describe s s1 caps _ costs r Hmiss Hf Hcaps Hover Hcosts)
    as (s' & Hrun & _); [by rewrite Hleft |].
  exists s'. split; [exact Hrun |].
  apply scale_inv in Hscale as (m' & p' & Hm' & Hp' & ->). cbn [cpu memory pods].
  split; [by apply fmul_nonneg |].
  split.
  - apply (mul_nonneg _ _ m e) in Hm'; [done |]. cbn. apply Z.leb_le. lia.
  - apply (mul_nonneg _ _ m e) in Hp'; [done |]. cbn. apply Z.leb_le. lia.
Qed.

Lemma kube_resources_nonnegative_witness :
  ∃ s',
    _kube_resources no_numbers scenario_state
    = (Ok (Some {| cpu := Py.round_decimal false 25 (-1);
                   memory := Py.Float (Py.round_int (6 * 1024 ^ 3));
                   pods := Py.Float (Py.round_int 9) |}), s')
    ∧ Py.nonneg (Py.round_decimal false 25 (-1)) = true
    ∧ Py.num_nonneg (Py.Float (Py.round_int (6 * 1024 ^ 3))) = true
    ∧ Py.num_nonneg (Py.Float (Py.round_int 9)) = true.
Proof.
  apply (kube_resources_nonnegative no_numbers scenario_state _ _ _ _
           {| cpu := Py.round_decimal false 25 (-1);
              memory := Py.Float (Py.round_int (6 * 1024 ^ 3));
              pods := Py.Float (Py.round_int 9) |}
           eq_refl eq_refl scenario_capacities scenario_overprovisioning scenario_costs).
  - vm_compute. reflexivity.
  - vm_compute. discriminate.
  - vm_compute. discriminate.
  - vm_compute. eauto.
  - vm_compute. reflexivity.
Defined.

(** ** The job creators *)

(** The dictionary of the code against the table of the specification: they
    agree on every kind that is not filtered, and the table has no entry
    for a filtered kind. *)
Lemma priority_map_table (k : string) :
  if bool_decide (k ∈ filtered_kinds)
  then priority_table !! k = None
  else PRIORITY_MAP !! k = priority_table !! k.
Proof.
  case_bool_decide as Hk.
  - unfold filtered_kinds in Hk.
    repeat (apply elem_of_cons in Hk as [->|Hk]; [vm_compute; reflexivity |]).
    by apply elem_of_nil in Hk.
  - unfold filtered_kinds in Hk.
    repeat (apply not_elem_of_cons in Hk as [? Hk]).
    unfold PRIORITY_MAP, priority_table, Vulnerability.IP_OVERWRITE,
      Vulnerability.PARTIAL_IP_OVERWRITE, Vulnerability.ARBITRARY_READ,
      Vulnerability.WRITE_WHAT_WHERE, Vulnerability.WRITE_X_WHERE,
      Vulnerability.BP_OVERWRITE, Vulnerability.PARTIAL_BP_OVERWRITE,
      Vulnerability.UNCONTROLLED_WRITE, Vulnerability.UNCONTROLLED_IP_OVERWRITE,
      Vulnerability.NULL_DEREFERENCE.
    cbn [list_to_map foldr curry fst snd uncurry].
    rewrite !lookup_insert.
    repeat case_decide; congruence.
Qed.

Lemma priority_table_values (k : string) (p : Z) :
  priority_table !! k = Some p → p ∈ emitted_priorities.
Proof.
  unfold priority_table. cbn [list_to_map foldr curry fst snd uncurry].
  rewrite !lookup_insert, lookup_empty.
  repeat case_decide; intros [= <-]; unfold emitted_priorities; set_solver.
Qed.

Lemma setattr_priority (job : Job) (p : Z) :
  let job' := setattr job F_priority (VInt p) in
  priority job' = p ∧ worker job' = worker job ∧ cbn job' = cbn job
  ∧ payload job' = payload job ∧ limit_cpu job' = limit_cpu job
  ∧ limit_memory job' = limit_memory job ∧ job_id job' = job_id job.
Proof. unfold setattr. simpl. by case_bool_decide. Qed.

Lemma value_eqb_num (o : option Q) (n : Z) :
  value_eqb (from_option VNum VNull o) (VInt n) = true →
  ∃ q, o = Some q ∧ (q == inject_Z n)%Q.
Proof.
  destruct o as [q|]; simpl; [| done].
  intros H%Qeq_bool_iff. eauto.
Qed.

(** The row that [RexJob.get_or_create] hands back, found or created, has
    the columns it was asked for. *)
Lemma rex_get_or_create (cid crash : Z) (db db' : database) (job : Job) (created : bool) :
  get_or_create RexCreator.RexJob
    [ (F_cbn, VInt cid); (F_payload, VPayload [("crash_id", crash)]);
      (F_limit_cpu, VInt 1); (F_limit_memory, VInt 10) ] db = (job, created, db') →
  worker job = RexCreator.RexJob
  ∧ cbn job = Some cid
  ∧ payload job = [("crash_id", crash)]
  ∧ (∃ q, limit_cpu job = Some q ∧ (q == 1)%Q)
  ∧ (∃ q, limit_memory job = Some q ∧ (q == 10)%Q).
Proof.
  unfold get_or_create.
  destruct (List.find _ (job_rows db)) as [row|] eqn:Hfind.
  - intros [= <- _ _]. apply find_some in Hfind as [_ Hrow].
    unfold row_matches in Hrow. cbn [forallb] in Hrow.
    repeat (apply andb_prop in Hrow as [? Hrow]).
    repeat match goal with H : _ && _ = true |- _ => apply andb_prop in H as [? ?] end.
    split; [by apply String.eqb_eq |].
    split.
    { cbn [getattr] in *. destruct (cbn row) as [c|]; simpl in *; [| done].
      f_equal. by apply Z.eqb_eq. }
    split.
    { cbn [getattr value_eqb] in *.
      match goal with
      | H : bool_decide (payload row = _) = true |- _ => by apply bool_decide_eq_true in H
      end. }
    split; by apply value_eqb_num.
  - intros [= <- _ _]. simpl.
    repeat split; try reflexivity; eexists; (split; [reflexivity | reflexivity]).
Qed.

(** One crash of one binary: the job yielded, if any, and the line logged. *)
Lemma crash_body_spec (cbn : ChallengeBinaryNode) (crash : Crash) (db : database) :
  let p := RexCreator.crash_body cbn crash db in
  map job_summary (yielded p)
  = match priority_table !! kind crash with
    | Some pr => [(Some (cbn_id cbn), [("crash_id", crash_id crash)], pr)]
    | None => []
    end
  ∧ Forall rex_job_ok (yielded p)
  ∧ map fst (logged p)
    = (if bool_decide (kind crash ∈ filtered_kinds) then []
       else match priority_table !! kind crash with
            | Some _ => [DEBUG]
            | None => [ERROR]
            end)
  ∧ challenge_binary_nodes (db_after p) = challenge_binary_nodes db
  ∧ raw_round_polls (db_after p) = raw_round_polls db.
Proof.
  pose proof (priority_map_table (kind crash)) as Htable.
  unfold RexCreator.crash_body.
  change [Vulnerability.NULL_DEREFERENCE; Vulnerability.UNCONTROLLED_IP_OVERWRITE;
          Vulnerability.UNCONTROLLED_WRITE; Vulnerability.UNKNOWN] with filtered_kinds.
  destruct (bool_decide (kind crash ∈ filtered_kinds)).
  - rewrite Htable. simpl. by repeat split.
  - destruct (get_or_create _ _ db) as [[job created] db'] eqn:Hgoc.
    assert (Hframe : challenge_binary_nodes db' = challenge_binary_nodes db
                     ∧ raw_round_polls db' = raw_round_polls db).
    { unfold get_or_create in Hgoc.
      destruct (List.find _ (job_rows db)); inversion Hgoc; by subst. }
    apply rex_get_or_create in Hgoc as (Hw & Hc & Hp & Hlc & Hlm).
    rewrite Htable.
    destruct (priority_table !! kind crash) as [pr|] eqn:Hpr.
    + destruct (setattr_priority job pr) as (Hpr' & Hw' & Hc' & Hp' & Hlc' & Hlm' & _).
      cbn [yielded logged db_after map fst].
      split; [unfold job_summary; by rewrite Hpr', Hc', Hp', Hc, Hp |].
      split.
      { constructor; [| constructor].
        unfold rex_job_ok. rewrite Hw', Hlc', Hlm', Hpr'.
        repeat split; try done. by apply (priority_table_values (kind crash)). }
      split; [done | exact Hframe].
    + cbn [yielded logged db_after map fst].
      split; [done |]. split; [done |]. split; [done | exact Hframe].
Qed.

Section ForYield.

Context {A B : Type} (body : A → database → produced).

Lemma for_yield_yielded (summary : Job → B) (g : A → list B) (l : list A) :
    (∀ x db, map summary (yielded (body x db)) = g x) →
    ∀ db, map summary (yielded (for_yield l body db)) = flat_map g l.
  Proof.
    intros Hbody. induction l as [|x l IH]; intros db; simpl; [done |].
    by rewrite map_app, Hbody, IH.
  Qed.

Lemma for_yield_logged (g : A → list level) (l : list A) :
    (∀ x db, map fst (logged (body x db)) = g x) →
    ∀ db, map fst (logged (for_yield l body db)) = flat_map g l.
  Proof.
    intros Hbody. induction l as [|x l IH]; intros db; simpl; [done |].
    by rewrite map_app, Hbody, IH.
  Qed.

Lemma for_yield_Forall (P : Job → Prop) (l : list A) :
    (∀ x db, Forall P (yielded (body x db))) →
    ∀ db, Forall P (yielded (for_yield l body db)).
  Proof.
    intros Hbody. induction l as [|x l IH]; intros db; simpl; [constructor |].
    apply Forall_app. split; [apply Hbody | apply IH].
  Qed.

Lemma for_yield_nothing (l : list A) :
    (∀ x db, yielded (body x db) = []) →
    ∀ db, yielded (for_yield l body db) = [].
  Proof.
    intros Hbody. induction l as [|x l IH]; intros db; simpl; [done |].
    by rewrite Hbody, IH.
  Qed.

End ForYield.

(** X27. Drained, the jobs of the exploit creator are: one job for every
    crash of every binary whose kind is in the table of priorities, with
    that binary, that crash and the priority of the table, and no job for
    any other crash, the four filtered kinds among them. Every job yielded
    is a [RexJob] whose row has the numbers 1 and 10 in the columns
    [limit_cpu] and [limit_memory], and has a priority among 5, 10, 25, 50,
    75, 80 and 100. A crash that is not filtered and whose kind is not in
    the table is logged as an error and gives no job. *)
Theorem rex_creator_jobs (db : database) :
  let p := RexCreator.jobs db in
  map job_summary (yielded p) = expected_jobs db
  ∧ Forall rex_job_ok (yielded p)
  ∧ map fst (logged p) = expected_levels db
  ∧ (∀ k, k ∈ filtered_kinds → priority_table !! k = None)
  ∧ (∀ k pr, priority_table !! k = Some pr → pr ∈ emitted_priorities).
Proof.
  unfold RexCreator.jobs, expected_jobs, expected_levels. cbv zeta.
  split.
  { apply for_yield_yielded. intros cbn db'.
    apply for_yield_yielded. intros crash db''. apply crash_body_spec. }
  split.
  { apply for_yield_Forall. intros cbn db'.
    apply for_yield_Forall. intros crash db''. apply crash_body_spec. }
  split.
  { apply for_yield_logged. intros cbn db'.
    apply for_yield_logged. intros crash db''. apply crash_body_spec. }
  split.
  - intros k Hk. pose proof (priority_map_table k) as H.
    by rewrite bool_decide_eq_true_2 in H.
  - apply priority_table_values.
Qed.


(** C6. The exploit creator filters the four kinds, yields one job for
    every other crash whose kind is in the table, with the priority of the
    table, and logs an error for a kind that is not; but the memory limit
    of its jobs is not 10 GiB. The creator writes the number 10 to the
    column [limit_memory], and the scheduler renders that column in Mi:
    the pod of every job that the creator yields is limited to 10 Mi of
    memory, or to twice its memory request, in Mi, when that request is 10
    or more. *)
Theorem rex_limit_memory_unit py_str (schema : JobSchema) (environ : gmap string string)
    (db : database) (job : Job) :
  required_environ environ →
  job ∈ yielded (RexCreator.jobs db) →
  ∃ q cfg c,
    limit_memory job = Some q ∧ (q == 10)%Q
    ∧ _kube_pod_template py_str schema environ job = Ok cfg
    ∧ containers cfg = [c]
    ∧ let request := pod_request (request_memory job) (request_memory_default schema) in
      let limit := if Qltb request q then q else (request * 2)%Q in
      ∃ cpu_limit,
        limits (resources c)
        = Some (<["cpu" := cpu_limit]> (<["memory" := py_str limit +:+ "Mi"]> ∅)).
Proof.
  intros Henv Hjob.
  assert (Hok : Forall rex_job_ok (yielded (RexCreator.jobs db))).
  { unfold RexCreator.jobs. apply for_yield_Forall. intros node db'.
    apply for_yield_Forall. intros crash db''. apply crash_body_spec. }
  rewrite Forall_forall in Hok. destruct (Hok job Hjob) as (_ & _ & (q & Hq & Hq10) & _).
  destruct (kube_pod_template_returns py_str schema environ job Henv)
    as (cfg & c & Hcfg & _ & Hc & Hres).
  exists q, cfg, c. split; [exact Hq |]. split; [exact Hq10 |].
  split; [exact Hcfg |]. split; [exact Hc |].
  cbv zeta. rewrite Hres. unfold resources_entry, pod_resources. cbn [limits jr_limit_memory].
  rewrite Hq. eexists. reflexivity.
Qed.

Lemma rex_limit_memory_unit_witness :
  ∃ job cfg c cfg' c',
    head (yielded (RexCreator.jobs example_database)) = Some job
    ∧ _kube_pod_template render_number small_schema example_environ job = Ok cfg
    ∧ containers cfg = [c]
    ∧ limits (resources c) = Some (<["cpu" := "2"]> (<["memory" := "10Mi"]> ∅))
    ∧ _kube_pod_template render_number example_schema example_environ job = Ok cfg'
    ∧ containers cfg' = [c']
    ∧ limits (resources c') = Some (<["cpu" := "2"]> (<["memory" := "2048Mi"]> ∅)).
Proof.
  assert (Henv : required_environ example_environ).
  { unfold required_environ. repeat constructor; by eexists. }
  destruct (yielded (RexCreator.jobs example_database)) as [|job rest] eqn:Hjobs;
    [by vm_compute in Hjobs |].
  assert (Hjob : job ∈ yielded (RexCreator.jobs example_database))
    by (rewrite Hjobs; apply list_elem_of_here).
  destruct (rex_limit_memory_unit render_number small_schema example_environ
              example_database job Henv Hjob)
    as (q & cfg & c & Hq & _ & Hcfg & Hc & (l & Hlim)).
  destruct (rex_limit_memory_unit render_number example_schema example_environ
              example_database job Henv Hjob)
    as (q' & cfg' & c' & Hq' & _ & Hcfg' & Hc' & (l' & Hlim')).
  exists job, cfg, c, cfg', c'.
  vm_compute in Hjobs. injection Hjobs as <- _.
  injection Hq as <-. injection Hq' as <-.
  split; [reflexivity |]. split; [exact Hcfg |]. split; [exact Hc |].
  assert (Hl : limits (resources c) = Some (<["cpu" := "2"]> (<["memory" := "10Mi"]> ∅))).
  { revert Hcfg Hc. vm_compute. intros [= <-] [= <-]. reflexivity. }
  assert (Hl' : limits (resources c')
                = Some (<["cpu" := "2"]> (<["memory" := "2048Mi"]> ∅))).
  { revert Hcfg' Hc'. vm_compute. intros [= <-] [= <-]. reflexivity. }
  split; [exact Hl |]. split; [exact Hcfg' |]. split; [exact Hc' | exact Hl'].
Defined.

(** What the accountant reads in the limit of such a pod, and in 10 GiB. *)
Example limit_memory_of_rex :
  memory2int "10Mi" = Ok (10 * 1024 ^ 2)%Z ∧ memory2int "10Gi" = Ok (10 * 1024 ^ 3)%Z.
Proof. split; reflexivity. Qed.

(** The scenario of the specification: of three crashes of kinds
    ip_overwrite, arbitrary_read and null_dereference, the first two give
    jobs of priorities 100 and 75. *)
Example rex_creator_scenario :
  map job_summary (yielded (RexCreator.jobs example_database))
  = [ (Some 1%Z, [("crash_id", 11%Z)], 100%Z); (Some 1%Z, [("crash_id", 12%Z)], 75%Z) ].
Proof. vm_compute. reflexivity. Qed.

(** *** The poll sanitizer *)

Lemma find_none_filter {T} (f : T → bool) (l : list T) :
  List.find f l = None ↔ List.filter f l = [].
Proof.
  induction l as [|x l IH]; simpl; [done |].
  destruct (f x); [by split | exact IH].
Qed.

Lemma sanitizer_rows_app (id : Z) (rows rows' : list Job) :
  sanitizer_rows id (rows ++ rows') = sanitizer_rows id rows ++ sanitizer_rows id rows'.
Proof. unfold sanitizer_rows. apply List.filter_app. Qed.

(** [PollSanitizerJob.get_or_create] of a poll: nothing changes when the
    poll has a row; otherwise one row is added, that is a row of this poll
    and of no other. *)
Lemma poll_body_spec (poll : RawRoundPoll) (db : database) :
  let p := NetworkPollSanitizerCreator.poll_body poll db in
  yielded p = []
  ∧ raw_round_polls (db_after p) = raw_round_polls db
  ∧ challenge_binary_nodes (db_after p) = challenge_binary_nodes db
  ∧ (sanitizer_rows (poll_id poll) (job_rows db) ≠ [] → db_after p = db)
  ∧ (∃ new, job_rows (db_after p) = job_rows db ++ new)
  ∧ (∀ id, length (sanitizer_rows id (job_rows (db_after p)))
           = if decide (id = poll_id poll)
             then Nat.max 1 (length (sanitizer_rows id (job_rows db)))
             else length (sanitizer_rows id (job_rows db))).
Proof.
  unfold NetworkPollSanitizerCreator.poll_body, get_or_create.
  destruct (List.find _ (job_rows db)) as [row|] eqn:Hfind; cbn [yielded db_after].
  - assert (Hsome : sanitizer_rows (poll_id poll) (job_rows db) ≠ []).
    { intros Hnil. apply find_none_filter in Hnil. unfold sanitizer_rows in *. congruence. }
    split; [done |]. split; [done |]. split; [done |]. split; [done |].
    split; [exists []; by rewrite app_nil_r |].
    intros id. destruct (decide (id = poll_id poll)) as [->|]; [| done].
    destruct (sanitizer_rows (poll_id poll) (job_rows db)); [done | simpl; lia].
  - apply find_none_filter in Hfind.
    split; [done |]. split; [done |]. split; [done |].
    split; [intros Hne; by destruct Hne |].
    split; [by eexists |].
    intros id. cbn [job_rows set_job_rows]. rewrite sanitizer_rows_app, length_app.
    unfold sanitizer_rows at 2. cbn [List.filter]. unfold row_matches at 1.
    cbn [with_id foldr store_field blank_job worker getattr payload forallb value_eqb
         NetworkPollSanitizerCreator.PollSanitizerJob].
    rewrite String.eqb_refl. cbn [andb].
    destruct (decide (id = poll_id poll)) as [->|Hne].
    + rewrite bool_decide_eq_true_2 by done. cbn [length andb].
      unfold sanitizer_rows. rewrite Hfind. reflexivity.
    + rewrite bool_decide_eq_false_2 by congruence. cbn [length andb]. lia.
Qed.

Lemma sanitizer_loop (l : list RawRoundPoll) :
  ∀ db,
    let p := for_yield l NetworkPollSanitizerCreator.poll_body db in
    raw_round_polls (db_after p) = raw_round_polls db
    ∧ challenge_binary_nodes (db_after p) = challenge_binary_nodes db
    ∧ (∃ new, job_rows (db_after p) = job_rows db ++ new)
    ∧ (∀ id, length (sanitizer_rows id (job_rows (db_after p)))
             = if bool_decide (id ∈ poll_id <$> l)
               then Nat.max 1 (length (sanitizer_rows id (job_rows db)))
               else length (sanitizer_rows id (job_rows db))).
Proof.
  induction l as [|poll l IH]; intros db; cbn [for_yield db_after].
  - split; [done |]. split; [done |]. split; [exists []; by rewrite app_nil_r |].
    intros id. by rewrite bool_decide_eq_false_2 by apply not_elem_of_nil.
  - destruct (poll_body_spec poll db) as (_ & Hpolls & Hcbns & _ & [new Hrows] & Hcount).
    destruct (IH (db_after (NetworkPollSanitizerCreator.poll_body poll db)))
      as (Hpolls' & Hcbns' & [new' Hrows'] & Hcount').
    split; [congruence |]. split; [congruence |].
    split; [exists (new ++ new'); by rewrite Hrows', Hrows, app_assoc |].
    intros id. rewrite Hcount', Hcount. rewrite fmap_cons.
    destruct (decide (id = poll_id poll)) as [->|Hne].
    + rewrite (bool_decide_eq_true_2 (poll_id poll ∈ poll_id poll :: _))
        by apply list_elem_of_here.
      case_bool_decide; lia.
    + case_bool_decide as Hin.
      * rewrite bool_decide_eq_true_2 by (by apply list_elem_of_further). done.
      * rewrite bool_decide_eq_false_2; [done |].
        intros [?|?]%elem_of_cons; done.
Qed.

Lemma sanitizer_loop_fixed (l : list RawRoundPoll) (db : database) :
  (∀ poll, poll ∈ l → sanitizer_rows (poll_id poll) (job_rows db) ≠ []) →
  db_after (for_yield l NetworkPollSanitizerCreator.poll_body db) = db.
Proof.
  induction l as [|poll l IH]; intros Hrows; cbn [for_yield db_after]; [done |].
  destruct (poll_body_spec poll db) as (_ & _ & _ & Hsame & _).
  rewrite Hsame by (apply Hrows, list_elem_of_here).
  apply IH. intros poll' Hin. by apply Hrows, list_elem_of_further.
Qed.

(** C10. Read on any store, the jobs of the poll sanitizer are none. After
    the read every raw round poll that is not sanitized has a
    [PollSanitizerJob] row keyed by its id: one row if it had none, the rows
    it had otherwise; nothing else is added and no row is changed. A second
    read leaves the store as the first left it. *)
Theorem poll_sanitizer_jobs (db : database) :
  let p := NetworkPollSanitizerCreator.jobs db in
  yielded p = []
  ∧ (∀ id, length (sanitizer_rows id (job_rows (db_after p)))
           = if bool_decide (id ∈ unsanitized_ids db)
             then Nat.max 1 (length (sanitizer_rows id (job_rows db)))
             else length (sanitizer_rows id (job_rows db)))
  ∧ (∃ new, job_rows (db_after p) = job_rows db ++ new)
  ∧ raw_round_polls (db_after p) = raw_round_polls db
  ∧ challenge_binary_nodes (db_after p) = challenge_binary_nodes db
  ∧ db_after (NetworkPollSanitizerCreator.jobs (db_after p)) = db_after p.
Proof.
  unfold NetworkPollSanitizerCreator.jobs, unsanitized_ids. cbn [yielded db_after].
  set (l := filter (λ poll, sanitized poll = false) (raw_round_polls db)).
  destruct (sanitizer_loop l db) as (Hpolls & Hcbns & Hrows & Hcount).
  split; [done |]. split; [exact Hcount |]. split; [exact Hrows |].
  split; [exact Hpolls |]. split; [exact Hcbns |].
  rewrite Hpolls. fold l. apply sanitizer_loop_fixed.
  intros poll Hin Hnil.
  pose proof (Hcount (poll_id poll)) as Hc.
  rewrite bool_decide_eq_true_2 in Hc by (by apply list_elem_of_fmap_2).
  rewrite Hnil in Hc. simpl in Hc. lia.
Qed.

Example poll_sanitizer_scenario :
  let p := NetworkPollSanitizerCreator.jobs example_database in
  yielded p = []
  ∧ map (λ row, (worker row, payload row)) (job_rows (db_after p))
    = [("poll_sanitizer", [("rrp_id", 21%Z)])].
Proof. split; vm_compute; reflexivity. Qed.

(** ** The scheduler loop without a cluster *)

(** C9. Without a cluster host in the environment [run] makes no call to
    the cluster, opens one transaction and commits it; but the priorities
    of the brain do not reach the rows of the jobs. [run] looks up the row
    of a job by the dirty fields of the job, and of a job that the exploit
    creator yields only the priority is dirty. On a store with one binary
    and its crashes 11 and 12, with a brain that ranks a job one above the
    priority it came with: the creator yields the rows 1 and 2 with the
    priorities 100 and 75; [run] leaves both rows at priority 0 and saves
    the priorities 101 and 76 on two new rows, 4 and 5, that have neither
    binary nor payload. *)
Theorem run_misses_job_rows :
  let creators := [RexCreator.jobs; NetworkPollSanitizerCreator.jobs] in
  ∃ s' db',
    _is_kubernetes_unavailable (environ offline_state) = true
    ∧ run example_brain creators offline_state example_database
      = (Ok tt, s', db', [Begin; Commit])
    ∧ api_calls s' = []
    ∧ cluster_pods s' = cluster_pods offline_state
    ∧ map (λ job, (job_id job, cbn job, payload job, priority job, dirty_fields job))
          (yielded (BaseScheduler_jobs creators example_database))
      = [ (Some 1%Z, Some 1%Z, [("crash_id", 11%Z)], 100%Z, [F_priority]);
          (Some 2%Z, Some 1%Z, [("crash_id", 12%Z)], 75%Z, [F_priority]) ]
    ∧ map (λ row, (job_id row, worker row, cbn row, payload row, priority row))
          (job_rows db')
      = [ (Some 1%Z, "rex", Some 1%Z, [("crash_id", 11%Z)], 0%Z);
          (Some 2%Z, "rex", Some 1%Z, [("crash_id", 12%Z)], 0%Z);
          (Some 3%Z, "poll_sanitizer", None, [("rrp_id", 21%Z)], 0%Z);
          (Some 4%Z, "rex", None, [], 101%Z);
          (Some 5%Z, "rex", None, [], 76%Z) ].
Proof.
  cbv zeta. eexists _, _.
  split; [reflexivity |]. split; [vm_compute; reflexivity |].
  split; [reflexivity |]. split; [reflexivity |].
  split; vm_compute; reflexivity.
Qed.

(** * Further properties *)

(** ** Numerals and their text *)

Lemma digits_numeral (d : Decimal.uint) (acc : Z) (count : nat) :
  Py.digits acc count (NilEmpty.string_of_uint d)
  = (uint_val acc d, (count + Decimal.nb_digits d)%nat, "").
Proof.
  revert acc count.
  induction d; intros acc count; cbn [NilEmpty.string_of_uint Py.digits uint_val Decimal.nb_digits];
    [by rewrite Nat.add_0_r | ..];
    (match goal with
     | |- context [Py.digit ?c] =>
         let v := eval vm_compute in (Py.digit c) in change (Py.digit c) with v
     end; cbv iota beta; rewrite IHd; f_equal; f_equal; lia).
Qed.

Lemma of_uint_acc_val (d : Decimal.uint) (acc : positive) :
  Z.pos (Pos.of_uint_acc d acc) = uint_val (Z.pos acc) d.
Proof.
  revert acc. induction d; intros acc; cbn [Pos.of_uint_acc uint_val]; [done | ..];
    rewrite IHd; f_equal; lia.
Qed.

Lemma of_uint_val (d : Decimal.uint) : Z.of_uint d = uint_val 0 d.
Proof.
  unfold Z.of_uint.
  induction d; cbn [Pos.of_uint uint_val]; [done | exact IHd | ..];
    cbn [Z.of_N]; rewrite of_uint_acc_val; reflexivity.
Qed.

Lemma all_chars_numeral (d : Decimal.uint) :
  all_chars is_digit (NilEmpty.string_of_uint d) = true.
Proof. induction d; cbn [NilEmpty.string_of_uint all_chars]; [done | ..]; exact IHd. Qed.

Lemma all_chars_impl (P Q : ascii → bool) (s : string) :
  (∀ c, P c = true → Q c = true) → all_chars P s = true → all_chars Q s = true.
Proof.
  intros HPQ. induction s as [|c s IH]; simpl; [done |].
  intros [Hc Hs]%andb_prop. by rewrite (HPQ c Hc), IH.
Qed.

Lemma is_digit_not_space (c : ascii) : is_digit c = true → negb (Py.is_space c) = true.
Proof.
  unfold is_digit, Py.digit, Py.is_space. intros H%bool_decide_eq_true.
  destruct (_ && _) eqn:Hd in H; [| by destruct H].
  apply andb_prop in Hd as [H1%Nat.leb_le H2%Nat.leb_le].
  apply negb_true_iff, orb_false_iff. split.
  - apply andb_false_iff. right. apply Nat.leb_gt. lia.
  - apply Nat.eqb_neq. lia.
Qed.

Lemma all_chars_rev_app (P : ascii → bool) (s acc : string) :
  all_chars P (String.rev_app s acc) = all_chars P s && all_chars P acc.
Proof.
  revert acc. induction s as [|c s IH]; intros acc; simpl; [done |].
  rewrite IH. simpl. by destruct (P c), (all_chars P s).
Qed.

Lemma rev_app_rev_app (s acc acc' : string) :
  String.rev_app (String.rev_app s acc) acc' = String.rev_app acc (s +:+ acc').
Proof.
  revert acc acc'. induction s as [|c s IH]; intros acc acc'; simpl; [done |].
  by rewrite IH.
Qed.

Lemma lstrip_no_space (s : string) :
  all_chars (λ c, negb (Py.is_space c)) s = true → Py.lstrip s = s.
Proof.
  destruct s as [|c s]; simpl; [done |].
  intros [Hc _]%andb_prop. apply negb_true_iff in Hc. by rewrite Hc.
Qed.

(** [strip] leaves a string without white space as it is. *)
Lemma strip_no_space (s : string) :
  all_chars (λ c, negb (Py.is_space c)) s = true → Py.strip s = s.
Proof.
  intros Hs. unfold Py.strip. rewrite (lstrip_no_space s Hs).
  rewrite lstrip_no_space.
  - unfold String.rev. rewrite rev_app_rev_app. cbn [String.rev_app].
    clear. induction s as [|c s IH]; [done |].
    change (String c s +:+ "") with (String c (s +:+ "")). by rewrite IH.
  - unfold String.rev. rewrite all_chars_rev_app, Hs. done.
Qed.

Lemma sign_digit (c : ascii) (s : string) :
  is_digit c = true → Py.sign (String c s) = (1%Z, String c s).
Proof.
  intros Hc. unfold Py.sign.
  destruct c as [[] [] [] [] [] [] [] []]; try reflexivity; vm_compute in Hc; discriminate.
Qed.

Lemma numeral_head (d : Decimal.uint) :
  d ≠ Decimal.Nil →
  ∃ c s, NilEmpty.string_of_uint d = String c s ∧ is_digit c = true
         ∧ ∃ k, Decimal.nb_digits d = S k.
Proof.
  destruct d; [done | ..]; intros _; cbn [NilEmpty.string_of_uint Decimal.nb_digits];
    eexists _, _; (split; [reflexivity |]); (split; [reflexivity | by eexists]).
Qed.

(** [int] of the digits of a numeral. *)
Lemma int_numeral (d : Decimal.uint) :
  d ≠ Decimal.Nil → Py.int (NilEmpty.string_of_uint d) = Ok (uint_val 0 d).
Proof.
  intros Hd. unfold Py.int.
  rewrite strip_no_space
    by (eapply all_chars_impl; [apply is_digit_not_space | apply all_chars_numeral]).
  destruct (numeral_head d Hd) as (c & s & Hs & Hc & k & Hk).
  rewrite Hs, (sign_digit c s Hc), <- Hs, digits_numeral, Hk. simpl.
  f_equal; lia.
Qed.

Lemma int_minus_numeral (d : Decimal.uint) :
  d ≠ Decimal.Nil → Py.int (String "-" (NilEmpty.string_of_uint d)) = Ok (- uint_val 0 d)%Z.
Proof.
  intros Hd. unfold Py.int.
  rewrite strip_no_space.
  2:{ simpl. eapply all_chars_impl; [apply is_digit_not_space | apply all_chars_numeral]. }
  destruct (numeral_head d Hd) as (c & s & Hs & Hc & k & Hk).
  cbn [Py.sign]. rewrite digits_numeral, Hk. simpl. f_equal; lia.
Qed.

(** [int(str(n)) == n] *)
Lemma int_str_int (n : Z) : Py.int (str_int n) = Ok n.
Proof.
  unfold str_int. destruct n as [|p|p]; [reflexivity | ..];
    cbn [Z.to_int NilZero.string_of_int]; unfold NilZero.string_of_uint;
    pose proof (DecimalPos.Unsigned.to_uint_nonnil p) as Hnil;
    pose proof (DecimalPos.Unsigned.of_to p) as Hval;
    assert (Hv : uint_val 0 (Pos.to_uint p) = Z.pos p)
      by (rewrite <- of_uint_val; unfold Z.of_uint; by rewrite Hval);
    destruct (Pos.to_uint p) eqn:Hp; try done;
    rewrite <- Hp in *.
  all: try (rewrite int_numeral by done; by rewrite Hv).
  all: try (rewrite int_minus_numeral by done; by rewrite Hv).
Qed.

Lemma endswith_char (P : ascii → bool) (s : string) (c : ascii) :
  all_chars P s = true → P c = false → Py.endswith s (String c "") = false.
Proof.
  intros Hs Hc. unfold Py.endswith. apply andb_false_iff.
  destruct s as [|c0 s]; [by left | right].
  revert c0 Hs. induction s as [|c1 s IH]; intros c0 Hs.
  - simpl. simpl in Hs. apply andb_prop in Hs as [Hc0 _].
    destruct (Ascii.eqb_spec c0 c) as [->|Hne]; [congruence | reflexivity].
  - simpl in Hs. apply andb_prop in Hs as [_ Hs].
    specialize (IH c1 Hs). 
    replace (String.length (String c0 (String c1 s)) - String.length (String c ""))%nat
      with (S (String.length (String c1 s) - String.length (String c "")))%nat
      by (simpl; lia).
    exact IH.
Qed.

Lemma str_int_chars (n : Z) :
  all_chars (λ c, is_digit c || Ascii.eqb c "-") (str_int n) = true.
Proof.
  assert (Hnum : ∀ d, all_chars (λ c, is_digit c || Ascii.eqb c "-")
                        (NilEmpty.string_of_uint d) = true).
  { intros d. eapply all_chars_impl; [| apply all_chars_numeral].
    intros c ->. done. }
  unfold str_int. destruct n as [|p|p]; [reflexivity | ..];
    cbn [Z.to_int NilZero.string_of_int]; unfold NilZero.string_of_uint;
    destruct (Pos.to_uint p) eqn:Hp; try reflexivity; rewrite <- Hp;
    cbn [all_chars]; rewrite ?Hnum; reflexivity.
Qed.

(** The text of an int ends with none of the suffixes of a quantity. *)
Lemma str_int_no_suffix (n : Z) : Py.endswith (str_int n) "m" = false.
Proof.
  apply (endswith_char _ _ _ (str_int_chars n)). reflexivity.
Qed.

Lemma lowercase_digit_head (c : ascii) (s : string) :
  is_digit c = true →
  bool_decide (Py.lowercase (String c s) ∈ ["inf"; "infinity"]) = false
  ∧ bool_decide (Py.lowercase (String c s) = "nan") = false.
Proof.
  intros Hc.
  assert (Hl : Py.lower c ≠ "i"%char ∧ Py.lower c ≠ "n"%char).
  { destruct c as [[] [] [] [] [] [] [] []]; vm_compute in Hc; try discriminate;
      split; vm_compute; discriminate. }
  destruct Hl as [Hi Hn]. cbn [Py.lowercase]. split; apply bool_decide_eq_false.
  - intros Hin.
    repeat (apply elem_of_cons in Hin as [Hin|Hin]; [injection Hin; auto |]).
    by apply elem_of_nil in Hin.
  - intros Hin. injection Hin. auto.
Qed.

Lemma round_decimal_0 (neg : bool) (p : positive) :
  Py.round_decimal neg (Z.pos p) 0 = Py.round_int (cond_Zopp neg (Z.pos p)).
Proof.
  unfold Py.round_decimal, Py.round_int. change (0 <=? 0)%Z with true. cbv iota.
  by rewrite Z.pow_0_r, Z.mul_1_r.
Qed.

Lemma float_numeral (neg : bool) (d : Decimal.uint) :
  d ≠ Decimal.Nil →
  let body := NilEmpty.string_of_uint d in
  (let '(ip, ni, rest) := Py.digits 0 0 body in
   let '(m, nf, rest') :=
     match rest with
     | String "." r => Py.digits ip 0 r
     | _ => (ip, 0%nat, rest)
     end in
   match (ni + nf)%nat, Py.exponent rest' with
   | S _, Some e => Ok (Py.round_decimal neg m (e - Z.of_nat nf))
   | _, _ => Raise (ValueError "could not convert string to float")
   end) = Ok (Py.round_decimal neg (uint_val 0 d) 0).
Proof.
  intros Hd body. destruct (numeral_head d Hd) as (c & s & Hs & Hc & k & Hk).
  unfold body. rewrite digits_numeral, Hk. reflexivity.
Qed.

(** [float(str(n))] for an int [n] is the float nearest to [n]. *)
Lemma float_str_int (n : Z) : Py.float (str_int n) = Ok (Py.round_int n).
Proof.
  unfold str_int. destruct n as [|p|p]; [reflexivity | ..];
    cbn [Z.to_int NilZero.string_of_int]; unfold NilZero.string_of_uint;
    pose proof (DecimalPos.Unsigned.to_uint_nonnil p) as Hnil;
    pose proof (DecimalPos.Unsigned.of_to p) as Hval;
    assert (Hv : uint_val 0 (Pos.to_uint p) = Z.pos p)
      by (rewrite <- of_uint_val; unfold Z.of_uint; by rewrite Hval);
    assert (Hstr : match Pos.to_uint p with
                   | Decimal.Nil => "0"
                   | _ => NilEmpty.string_of_uint (Pos.to_uint p)
                   end = NilEmpty.string_of_uint (Pos.to_uint p))
      by (by destruct (Pos.to_uint p));
    rewrite Hstr; clear Hstr;
    destruct (numeral_head _ Hnil) as (c & s & Hs & Hc & k & Hk);
    destruct (lowercase_digit_head c s Hc) as [Hinf Hnan];
    unfold Py.float.
  - rewrite strip_no_space
      by (eapply all_chars_impl; [apply is_digit_not_space | apply all_chars_numeral]).
    rewrite Hs, (sign_digit c s Hc), Hinf, Hnan, <- Hs.
    rewrite (float_numeral (1 <? 0)%Z _ Hnil), Hv. f_equal. apply round_decimal_0.
  - rewrite strip_no_space.
    2:{ simpl. eapply all_chars_impl; [apply is_digit_not_space | apply all_chars_numeral]. }
    cbn [Py.sign]. rewrite Hs, Hinf, Hnan, <- Hs.
    rewrite (float_numeral (-1 <? 0)%Z _ Hnil), Hv. f_equal. apply round_decimal_0.
Qed.

(** ** Quantities, both ways *)

Lemma app_cons (c : ascii) (p q : string) : String c p +:+ q = String c (p +:+ q).
Proof. reflexivity. Qed.

Lemma take_drop (k : nat) (s : string) : Py.take k s +:+ Py.drop k s = s.
Proof.
  revert s. induction k as [|k IH]; intros [|c s]; cbn [Py.take Py.drop]; try done.
  by rewrite app_cons, IH.
Qed.

Lemma length_drop (k : nat) (s : string) :
  String.length (Py.drop k s) = (String.length s - k)%nat.
Proof. revert s. induction k as [|k IH]; intros [|c s]; simpl; try done. Qed.

Lemma length_take (k : nat) (s : string) :
  String.length (Py.take k s) = (k `min` String.length s)%nat.
Proof.
  revert s. induction k as [|k IH]; intros [|c s]; simpl; try done.
  by rewrite IH.
Qed.

Lemma all_chars_app (P : ascii → bool) (p q : string) :
  all_chars P (p +:+ q) = all_chars P p && all_chars P q.
Proof.
  induction p as [|c p IH]; [done |].
  rewrite app_cons. cbn [all_chars].
  rewrite IH. by destruct (P c).
Qed.

(** A string is split in what [s[:-k]] keeps and the [k] characters it
    drops. *)
Lemma slice_split (k : nat) (s : string) :
  (k <= String.length s)%nat →
  ∃ q, s = Py.slice_to_neg k s +:+ q ∧ String.length q = k.
Proof.
  intros Hk. exists (Py.drop (String.length s - k) s). split.
  - unfold Py.slice_to_neg. by rewrite take_drop.
  - rewrite length_drop. lia.
Qed.

(** A string whose characters are all of one sort does not end with a
    suffix that has a character of another sort. *)
Lemma endswith_all_chars (P : ascii → bool) (s suffix : string) :
  all_chars P s = true → all_chars P suffix = false → Py.endswith s suffix = false.
Proof.
  intros Hs Hsuf. unfold Py.endswith.
  destruct (String.length suffix <=? String.length s)%nat eqn:Hlen; [| done].
  simpl. apply String.eqb_neq. intros Heq.
  rewrite <- (take_drop (String.length s - String.length suffix) s), all_chars_app in Hs.
  apply andb_prop in Hs as [_ Hs]. congruence.
Qed.

Lemma str_int_endswith (n : Z) (suffix : string) :
  all_chars (λ c, is_digit c || Ascii.eqb c "-") suffix = false →
  Py.endswith (str_int n) suffix = false.
Proof. apply endswith_all_chars, str_int_chars. Qed.

Lemma digits_all (s : string) (acc : Z) (count : nat) :
  all_chars is_digit s = true →
  Py.digits acc count s = (digits_value acc s, (count + String.length s)%nat, "").
Proof.
  revert acc count.
  induction s as [|c s IH]; intros acc count; cbn [all_chars Py.digits String.length digits_value].
  - intros _. by rewrite Nat.add_0_r.
  - intros [Hc Hs]%andb_prop. unfold is_digit in Hc. apply bool_decide_eq_true in Hc as [d Hd].
    rewrite Hd, (IH _ (S count) Hs). change (default 0%Z (Some d)) with d.
    f_equal. f_equal. lia.
Qed.

Lemma digits_value_app (p q : string) (acc : Z) :
  digits_value acc (p +:+ q) = digits_value (digits_value acc p) q.
Proof.
  revert acc. induction p as [|c p IH]; intros acc; [done |].
  rewrite app_cons. cbn [digits_value]. apply IH.
Qed.

Lemma digit_range (c : ascii) (d : Z) : Py.digit c = Some d → (0 <= d < 10)%Z.
Proof.
  unfold Py.digit. destruct (_ && _) eqn:Hc; [| done].
  apply andb_prop in Hc as [H1%Nat.leb_le H2%Nat.leb_le]. intros [= <-]. lia.
Qed.

(** The digits read after [acc] shift it to the left and add a number of
    as many digits. *)
Lemma digits_value_shift (s : string) (acc : Z) :
  all_chars is_digit s = true →
  digits_value acc s = (acc * 10 ^ Z.of_nat (String.length s) + digits_value 0 s)%Z
  ∧ (0 <= digits_value 0 s < 10 ^ Z.of_nat (String.length s))%Z.
Proof.
  revert acc. induction s as [|c s IH]; intros acc; cbn [all_chars digits_value String.length].
  - intros _. simpl. lia.
  - intros [Hc Hs]%andb_prop. unfold is_digit in Hc. apply bool_decide_eq_true in Hc as [d Hd].
    rewrite Hd. change (default 0%Z (Some d)) with d. apply digit_range in Hd.
    destruct (IH (acc * 10 + d)%Z Hs) as [-> _].
    destruct (IH (0 * 10 + d)%Z Hs) as [-> Hr].
    rewrite Nat2Z.inj_succ, Z.pow_succ_r by lia.
    split; nia.
Qed.

Lemma str_int_digits (n : Z) :
  (0 <= n)%Z → all_chars is_digit (str_int n) = true ∧ digits_value 0 (str_int n) = n.
Proof.
  intros Hn.
  assert (Hnum : ∀ d, digits_value 0 (NilEmpty.string_of_uint d) = uint_val 0 d).
  { intros d. pose proof (digits_numeral d 0 0) as H1.
    rewrite (digits_all _ 0 0 (all_chars_numeral d)) in H1. congruence. }
  unfold str_int. destruct n as [|p|p]; [split; vm_compute; reflexivity | | lia].
  cbn [Z.to_int NilZero.string_of_int]. unfold NilZero.string_of_uint.
  pose proof (DecimalPos.Unsigned.to_uint_nonnil p) as Hnil.
  pose proof (DecimalPos.Unsigned.of_to p) as Hval.
  assert (Hv : uint_val 0 (Pos.to_uint p) = Z.pos p)
    by (rewrite <- of_uint_val; unfold Z.of_uint; by rewrite Hval).
  destruct (Pos.to_uint p) eqn:Hp; [done | ..]; rewrite <- Hp in *;
    (split; [apply all_chars_numeral | by rewrite Hnum]).
Qed.

(** [int] of a run of digits. *)
Lemma int_digits (s : string) :
  all_chars is_digit s = true → s ≠ "" → Py.int s = Ok (digits_value 0 s).
Proof.
  intros Hs Hne. unfold Py.int.
  rewrite strip_no_space by (eapply all_chars_impl; [apply is_digit_not_space | done]).
  destruct s as [|c s]; [done |].
  pose proof Hs as Hc. cbn [all_chars] in Hc. apply andb_prop in Hc as [Hc _].
  rewrite (sign_digit c s Hc), (digits_all _ 0 0 Hs). cbn [String.length Nat.add].
  f_equal. lia.
Qed.

Lemma not_digit_suffix (suffix : string) :
  suffix ∈ ["Ki"; "Mi"; "Gi"; "m"] →
  all_chars (λ c, is_digit c || Ascii.eqb c "-") suffix = false.
Proof.
  intros H. repeat (apply elem_of_cons in H as [->|H]; [reflexivity |]).
  by apply elem_of_nil in H.
Qed.

(** The text of an int carries no unit: the multiplier of [memory2int] is
    one and [cpu2float] reads cores. *)
Lemma str_int_bare (n : Z) :
  memory2int (str_int n) = rmap (λ k, k * 1)%Z (Py.int (Py.slice_to_neg 2 (str_int n)))
  ∧ cpu2float (str_int n) = Py.float (str_int n).
Proof.
  split.
  - apply memory2int_no_suffix; apply str_int_endswith, not_digit_suffix; set_solver.
  - apply cpu2float_cores, str_int_endswith, not_digit_suffix; set_solver.
Qed.

(** X1. What is written as the text of an int with a unit is read back as
    that int in that unit. [Ki], [Mi] and [Gi] multiply it by the powers of
    1024. With [m] it is converted to a float and divided by the float
    1000: the result is the float nearest to the quotient of the float
    nearest to the int, and an int beyond the floats is an overflow error.
    The bare text is read as the float nearest to the int. *)
Theorem quantity_round_trip (n : Z) :
  memory2int (str_int n +:+ "Ki") = Ok (n * 1024)%Z
  ∧ memory2int (str_int n +:+ "Mi") = Ok (n * 1024 ^ 2)%Z
  ∧ memory2int (str_int n +:+ "Gi") = Ok (n * 1024 ^ 3)%Z
  ∧ cpu2float (str_int n +:+ "m")
    = match Py.round_int n with
      | S754_infinity _ => Raise OverflowError
      | x => Ok (SFdiv Py.prec Py.emax x (Py.round_int 1000))
      end
  ∧ cpu2float (str_int n) = Ok (Py.round_int n).
Proof.
  split; [by rewrite memory2int_Ki, int_str_int |].
  split; [by rewrite memory2int_Mi, int_str_int |].
  split; [by rewrite memory2int_Gi, int_str_int |].
  split.
  - rewrite cpu2float_milli, int_str_int. cbn [rbind].
    unfold Py.div1000, Py.float_of_int. by destruct (Py.round_int n).
  - destruct (str_int_bare n) as [_ ->]. apply float_str_int.
Qed.

(** The int 2^53 + 1 is not a float: as a number of cores it is read as
    2^53, and as a number of thousandths as 2^53 / 1000. *)
Example quantity_round_trip_rounds :
  cpu2float "9007199254740993" = Ok (Py.round_int 9007199254740992)
  ∧ cpu2float "9007199254740993m" = cpu2float "9007199254740992m".
Proof. split; vm_compute; reflexivity. Qed.

(** X2. A memory amount of fewer than three characters is refused, whatever
    it is: once two characters are dropped nothing is left for [int] to
    read. *)
Theorem memory2int_short (memory : string) :
  (String.length memory <= 2)%nat →
  memory2int memory = Raise (ValueError "invalid literal for int() with base 10").
Proof.
  intros Hlen. unfold memory2int, Py.slice_to_neg.
  replace (String.length memory - 2)%nat with 0%nat by lia.
  by destruct memory.
Qed.

Lemma memory2int_short_witness :
  (String.length "64" <= 2)%nat
  ∧ memory2int "64" = Raise (ValueError "invalid literal for int() with base 10")
  ∧ memory2int "Ki" = Raise (ValueError "invalid literal for int() with base 10").
Proof.
  split; [simpl; lia |].
  split; [apply (memory2int_short "64"); simpl; lia | reflexivity].
Defined.

(** X3. A memory amount written as a bare number of bytes, of a hundred or
    more, is read as a hundredth of it, rounded down: the two last digits
    are dropped as if they were a unit. *)
Theorem memory2int_bytes_hundredth (n : Z) :
  (100 <= n)%Z → memory2int (str_int n) = Ok (n / 100)%Z.
Proof.
  intros Hn. destruct (str_int_digits n ltac:(lia)) as [Hall Hval].
  destruct (str_int_bare n) as [-> _].
  assert (Hlen : (3 <= String.length (str_int n))%nat).
  { destruct (digits_value_shift (str_int n) 0 Hall) as [_ Hr]. rewrite Hval in Hr.
    destruct (String.length (str_int n)) as [|[|[|k]]]; simpl in Hr; lia. }
  destruct (slice_split 2 (str_int n) ltac:(lia)) as (q & Hsplit & Hq).
  set (p := Py.slice_to_neg 2 (str_int n)) in *.
  rewrite Hsplit, all_chars_app in Hall. apply andb_prop in Hall as [Hp Hqd].
  assert (Hpne : p ≠ "").
  { intros Hp0. rewrite Hsplit, Hp0, string_length_app, Hq in Hlen. simpl in Hlen. lia. }
  rewrite (int_digits p Hp Hpne). simpl. f_equal.
  rewrite Hsplit, digits_value_app in Hval.
  destruct (digits_value_shift q (digits_value 0 p) Hqd) as [Hshift Hr].
  rewrite Hq in Hshift, Hr. change (10 ^ Z.of_nat 2)%Z with 100%Z in *.
  rewrite <- Hval, Hshift.
  rewrite Z.mul_1_r. apply Z.div_unique with (r := digits_value 0 q); lia.
Qed.

Lemma memory2int_bytes_hundredth_witness :
  (100 <= 128974848)%Z ∧ memory2int (str_int 128974848) = Ok 1289748%Z.
Proof.
  split; [lia |]. apply (memory2int_bytes_hundredth 128974848). lia.
Defined.

(** ** The name of a worker *)

Lemma worker_name_eq (a b : option Z) : _worker_name a = _worker_name b → a = b.
Proof.
  unfold _worker_name. intros H. apply (inj (String.app "worker-")) in H.
  destruct a as [m|], b as [n|]; simpl in H; try done.
  - f_equal. pose proof (int_str_int m) as Hm. rewrite H, int_str_int in Hm. congruence.
  - pose proof (int_str_int m) as Hm. rewrite H in Hm. vm_compute in Hm. discriminate.
  - pose proof (int_str_int n) as Hn. rewrite <- H in Hn. vm_compute in Hn. discriminate.
Qed.

(** X4. The name of the pod tells the job: two identifiers, set or not,
    give the same name only when they are the same. *)
Theorem worker_name_inj (a b : option Z) : _worker_name a = _worker_name b ↔ a = b.
Proof. split; [apply worker_name_eq | by intros ->]. Qed.

(** ** What the calls keep, whatever the cluster answers *)

Section Triples.

Context (I : state → Prop) `{!Bookkeeping I}.

Lemma triple_ret {A} (a : A) (Q : A → Prop) : Q a → triple I (mret a) Q.
  Proof. intros Ha s Hs. split; [done |]. by intros ? [= <-]. Qed.

Lemma triple_bind {A B} (m : M A) (k : A → M B) (P : A → Prop) (Q : B → Prop) :
    triple I m P → (∀ a, P a → triple I (k a) Q) → triple I (m ≫= k) Q.
  Proof.
    intros Hm Hk s Hs. destruct (Hm s Hs) as [Hs1 Hp].
    unfold mbind, M_bind. destruct (m s) as [[a|e] s1]; simpl in *.
    - apply (Hk a (Hp a eq_refl) s1 Hs1).
    - split; [done |]. by intros.
  Qed.

Lemma triple_weaken {A} (m : M A) (P Q : A → Prop) :
    triple I m P → (∀ a, P a → Q a) → triple I m Q.
  Proof. intros Hm HPQ s Hs. destruct (Hm s Hs) as [? Hp]. split; [done |]. auto. Qed.

Lemma triple_get : triple I get I.
  Proof. intros s Hs. split; [done |]. by intros ? [= <-]. Qed.

Lemma triple_modify (f : state → state) :
    (∀ s, I s → I (f s)) → triple I (modify f) (λ _, True).
  Proof. intros Hf s Hs. split; [by apply Hf | done]. Qed.

Lemma triple_raise {A} (e : exn) (Q : A → Prop) : triple I (raise e) Q.
  Proof. intros s Hs. split; [done |]. by intros. Qed.

Lemma triple_lift {A} (r : result A) : triple I (lift r) (λ a, r = Ok a).
  Proof. intros s Hs. split; [done |]. by intros. Qed.

Lemma triple_LOG (lvl : level) (msg : string) : triple I (LOG lvl msg) (λ _, True).
  Proof. apply triple_modify. intros s Hs. by apply keeps_log. Qed.

Lemma triple_api (call : api_call) : triple I (api call) (λ _, True).
  Proof.
    intros s Hs. split; [| done]. unfold api.
    destruct (faults s) as [|[e|] rest]; simpl;
      try apply keeps_faults; by apply keeps_api_calls.
  Qed.

Lemma triple_try_except {A} (body : M A) (handlers : exn → option (M A)) (Q : A → Prop) :
    triple I body Q →
    (∀ e handler, handlers e = Some handler → triple I handler Q) →
    triple I (try_except body handlers) Q.
  Proof.
    intros Hbody Hh s Hs. destruct (Hbody s Hs) as [Hs1 Hq].
    unfold try_except. destruct (body s) as [[a|e] s1]; simpl in *; [by split |].
    destruct (handlers e) as [handler|] eqn:He; [by apply (Hh e) |].
    split; [done |]. by intros.
  Qed.

Lemma triple_future {A} (body : M A) (Q : A → Prop) :
    triple I body Q → triple I (future body) (λ r, ∀ a, r = Ok a → Q a).
  Proof.
    intros Hbody s Hs. destruct (Hbody s Hs) as [Hs1 Hq].
    unfold future. destruct (body s) as [r s1]; simpl in *.
    split; [done |]. by intros ? [= <-].
  Qed.

Lemma triple_for_each {A} (l : list A) (body : A → M unit) :
    (∀ x, x ∈ l → triple I (body x) (λ _, True)) →
    triple I (for_each l body) (λ _, True).
  Proof.
    induction l as [|x l IH]; intros Hbody; simpl.
    - by apply triple_ret.
    - eapply triple_bind; [apply Hbody, list_elem_of_here |].
      intros _ _. apply IH. intros y Hy. by apply Hbody, list_elem_of_further.
  Qed.

Lemma triple_map_each {A B} (l : list A) (body : A → M B) :
    (∀ x, x ∈ l → triple I (body x) (λ _, True)) →
    triple I (map_each l body) (λ _, True).
  Proof.
    induction l as [|x l IH]; intros Hbody; simpl.
    - by apply triple_ret.
    - eapply triple_bind; [apply Hbody, list_elem_of_here |].
      intros y _. eapply triple_bind.
      + apply IH. intros z Hz. by apply Hbody, list_elem_of_further.
      + intros ys _. by apply triple_ret.
  Qed.

Lemma triple_Pod_exists (name : string) : triple I (Pod_exists name) (λ _, True).
  Proof.
    unfold Pod_exists. eapply triple_bind; [apply triple_api |]. intros _ _.
    eapply triple_bind; [apply triple_get |]. intros s _. by apply triple_ret.
  Qed.

Lemma triple_Pod_delete (name : string) :
    (∀ s, I s → I (set_cluster_pods (delete name (cluster_pods s)) s)) →
    triple I (Pod_delete name) (λ _, True).
  Proof.
    intros Hdel. unfold Pod_delete. eapply triple_bind; [apply triple_api |]. intros _ _.
    by apply triple_modify.
  Qed.

Lemma triple_Pod_create (conflict : exn) (cfg : config) :
    (∀ s pod, I s → I (set_cluster_pods (<[metadata_name cfg := pod]> (cluster_pods s)) s)) →
    triple I (Pod_create conflict cfg) (λ _, True).
  Proof.
    intros Hins. unfold Pod_create. eapply triple_bind; [apply triple_api |]. intros _ _.
    eapply triple_bind; [apply triple_get |]. intros s _.
    destruct (cluster_pods s !! metadata_name cfg); [apply triple_raise |].
    apply triple_modify. intros s' Hs'. by apply Hins.
  Qed.

Lemma triple_terminate (name : string) :
    (∀ s, I s → I (set_cluster_pods (delete name (cluster_pods s)) s)) →
    triple I (terminate name) (λ _, True).
  Proof.
    intros Hdel. unfold terminate.
    eapply triple_bind; [apply triple_Pod_exists |]. intros [] _; [| by apply triple_ret].
    eapply triple_bind; [apply triple_LOG |]. intros _ _. by apply triple_Pod_delete.
  Qed.

End Triples.

#[local] Instance accounts_of_bookkeeping (s0 : state) : Bookkeeping (accounts_of s0).
Proof. by split. Qed.

#[local] Instance pods_but_bookkeeping (name : string) (m0 : gmap string Pod) :
  Bookkeeping (pods_but name m0).
Proof. by split. Qed.

#[local] Instance over_only_bookkeeping (m0 : gmap string Pod) : Bookkeeping (over_only m0).
Proof. by split. Qed.

#[local] Instance surroundings_of_bookkeeping (s0 : state) : Bookkeeping (surroundings_of s0).
Proof. by split. Qed.

(** Whatever the environment, a specification that the template returns is
    named after the job. *)
Lemma kube_pod_template_name py_str schema environ job (cfg : config) :
  _kube_pod_template py_str schema environ job = Ok cfg →
  metadata_name cfg = _worker_name (job_id job).
Proof.
  unfold _kube_pod_template.
  destruct (kvm_access job), (data_access job);
    repeat (match goal with
            | |- context [environ_get ?e ?k] => destruct (environ_get e k); simpl; [| done]
            end);
    by intros [= <-].
Qed.

Section Dispatch.

Context (I : state → Prop) `{!Bookkeeping I}.
Variable conflict : exn.
Variable py_str : Q → string.
Variable schema : JobSchema.

Lemma triple_schedule_kube_pod (job : Job) :
    (∀ s pod, I s →
       I (set_cluster_pods (<[_worker_name (job_id job) := pod]> (cluster_pods s)) s)) →
    triple I (_schedule_kube_pod conflict py_str schema job) (λ _, True).
  Proof.
    intros Hins. unfold _schedule_kube_pod.
    eapply (triple_bind I); [apply (triple_get I) |]. intros s _.
    eapply (triple_bind I); [apply (triple_lift I) |]. intros cfg Hcfg.
    apply kube_pod_template_name in Hcfg.
    apply (triple_try_except I).
    - apply (triple_Pod_create I). by rewrite Hcfg.
    - intros e handler He. destruct e; try done; injection He as <-.
      + destruct (_ =? _)%Z; apply (triple_LOG I).
      + apply (triple_LOG I).
  Qed.

Lemma triple_schedule (job : Job) :
    (∀ s, I s → I (set_cluster_pods (delete (_worker_name (job_id job)) (cluster_pods s)) s)) →
    (∀ s pod, I s →
       I (set_cluster_pods (<[_worker_name (job_id job) := pod]> (cluster_pods s)) s)) →
    triple I (schedule conflict py_str schema job) (λ _, True).
  Proof.
    intros Hdel Hins. unfold schedule.
    eapply (triple_bind I); [apply (triple_LOG I) |]. intros _ _.
    eapply (triple_bind I); [by apply (triple_terminate I) |]. intros _ _.
    by apply triple_schedule_kube_pod.
  Qed.

End Dispatch.

(** X5. Whatever the cluster answers and whatever the environment holds,
    [schedule(job)] touches no pod but the one named after the job, the
    pods of the other jobs among them, and it leaves the cache of the
    accountant, the clock, the environment and the nodes as they were. *)
Theorem schedule_frame conflict py_str schema (job : Job) (s : state) :
  let s' := (schedule conflict py_str schema job s).2 in
  (∀ name, name ≠ _worker_name (job_id job) → cluster_pods s' !! name = cluster_pods s !! name)
  ∧ (∀ other, other ≠ job_id job →
       cluster_pods s' !! _worker_name other = cluster_pods s !! _worker_name other)
  ∧ _node_capacities s' = _node_capacities s
  ∧ _available_resources s' = _available_resources s
  ∧ _resources_timestamp s' = _resources_timestamp s
  ∧ environ s' = environ s
  ∧ now s' = now s
  ∧ cluster_nodes s' = cluster_nodes s.
Proof.
  intros s'.
  assert (Hpods : pods_but (_worker_name (job_id job)) (cluster_pods s) s').
  { apply (triple_schedule (pods_but (_worker_name (job_id job)) (cluster_pods s))
             conflict py_str schema job); [| | done].
    - intros s1 Hs1 k Hk. simpl. rewrite lookup_delete_ne by done. by apply Hs1.
    - intros s1 pod Hs1 k Hk. simpl. rewrite lookup_insert_ne by done. by apply Hs1. }
  assert (Hacc : accounts_of s s').
  { apply (triple_schedule (accounts_of s) conflict py_str schema job); done. }
  split; [exact Hpods |].
  split; [| exact Hacc].
  intros other Hother. apply Hpods. intros Heq%worker_name_eq. done.
Qed.

Section Accounting.

Context (I : state → Prop) `{!Bookkeeping I}.

  (** What the invariant tells of the pods of a listing. *)
Variable P : string * Pod → Prop.

Hypothesis keeps_node_capacities : ∀ s v, I s → I (set_node_capacities v s).
Hypothesis keeps_available_resources : ∀ s v, I s → I (set_available_resources v s).
Hypothesis keeps_resources_timestamp : ∀ s v, I s → I (set_resources_timestamp v s).
Hypothesis listed : ∀ s name pod, I s → cluster_pods s !! name = Some pod → P (name, pod).
Hypothesis keeps_delete_over : ∀ s name pod,
    I s → P (name, pod) → is_over pod = true →
    I (set_cluster_pods (delete name (cluster_pods s)) s).

Variable describe : budget → string.

Lemma triple_kube_node_capacities : triple I _kube_node_capacities (λ _, True).
  Proof.
    unfold _kube_node_capacities.
    eapply (triple_bind I); [apply (triple_get I) |]. intros s _.
    destruct (_node_capacities s); [by apply (triple_ret I) |].
    eapply (triple_bind I); [apply (triple_modify I); auto |]. intros _ _.
    eapply (triple_bind I).
    { unfold Node_objects. eapply (triple_bind I); [apply (triple_api I) |]. intros _ _.
      eapply (triple_bind I); [apply (triple_get I) |]. intros s1 _.
      by apply (triple_ret I _ (λ _, True)). }
    intros nodes _.
    eapply (triple_bind I).
    { apply (triple_for_each I). intros [name node] _.
      eapply (triple_bind I); [apply (triple_lift I) |]. intros c _.
      apply (triple_modify I). auto. }
    intros _ _. eapply (triple_bind I); [apply (triple_get I) |]. intros s1 _.
    by apply (triple_ret I).
  Qed.

Lemma triple_kube_total_capacity : triple I (_kube_total_capacity describe) (λ _, True).
  Proof.
    unfold _kube_total_capacity.
    eapply (triple_bind I); [apply triple_kube_node_capacities |]. intros caps _.
    eapply (triple_bind I); [apply (triple_LOG I) |]. intros _ _.
    by apply (triple_ret I).
  Qed.

Lemma triple_Pod_objects : triple I Pod_objects (Forall P).
  Proof.
    unfold Pod_objects. eapply (triple_bind I); [apply (triple_api I) |]. intros _ _.
    eapply (triple_bind I); [apply (triple_get I) |]. intros s Hs.
    apply (triple_ret I). apply Forall_forall. intros [name pod] Hin.
    apply (listed s); [done |]. by apply elem_of_map_to_list.
  Qed.

Lemma triple_cleanup (named : string * Pod) :
    P named → triple I (cleanup named) (λ _, True).
  Proof.
    intros Hnamed. destruct named as [name pod]. unfold cleanup.
    assert (Hdel : is_over pod = true → triple I (Pod_delete name) (λ _, True)).
    { intros Hover. apply (triple_Pod_delete I). intros s Hs.
      by apply (keeps_delete_over s name pod). }
    assert (Hkeep : triple I
              (try_except
                 (LOG DEBUG ("Pod " +:+ name +:+ " is taking up resources"))
                 (λ e, match e with
                       | RequestsHTTPError _ => Some (LOG ERROR "Somehow failed at HTTP")
                       | _ => None
                       end) ;;
               mret (Some (name, pod)))
              (λ _, True)).
    { eapply (triple_bind I); [| intros _ _; by apply (triple_ret I)].
      apply (triple_try_except I); [apply (triple_LOG I) |].
      intros e handler He. destruct e; try done. injection He as <-. apply (triple_LOG I). }
    apply (triple_try_except I).
    - unfold is_over in Hdel. destruct (pod_phase pod); try exact Hkeep.
      + eapply (triple_bind I); [apply (triple_LOG I) |]. intros _ _.
        eapply (triple_bind I); [by apply Hdel |]. intros _ _. by apply (triple_ret I).
      + eapply (triple_bind I); [apply (triple_LOG I) |]. intros _ _.
        eapply (triple_bind I); [by apply Hdel |]. intros _ _. by apply (triple_ret I).
      + eapply (triple_bind I); [apply (triple_LOG I) |]. intros _ _. by apply (triple_ret I).
      + eapply (triple_bind I); [apply (triple_LOG I) |]. intros _ _. by apply (triple_ret I).
    - intros e handler He. destruct e; try done. injection He as <-.
      eapply (triple_bind I); [apply (triple_LOG I) |]. intros _ _. by apply (triple_ret I).
  Qed.

Lemma triple_update_available (f : budget → result budget) :
    triple I (update_available f) (λ _, True).
  Proof.
    unfold update_available.
    eapply (triple_bind I); [apply (triple_get I) |]. intros s _.
    destruct (_available_resources s) as [a|]; [| by apply (triple_ret I)].
    eapply (triple_bind I); [apply (triple_lift I) |]. intros a' _.
    apply (triple_modify I). auto.
  Qed.

Lemma triple_charge (outcome : result (option (string * Pod))) :
    triple I (charge outcome) (λ _, True).
  Proof.
    unfold charge. eapply (triple_bind I); [apply (triple_lift I) |]. intros [[name pod]|] _;
      [| by apply (triple_ret I)].
    eapply (triple_bind I); [apply (triple_lift I) |]. intros resources _.
    eapply (triple_bind I); [apply (triple_lift I) |]. intros c _.
    eapply (triple_bind I); [apply triple_update_available |]. intros _ _.
    eapply (triple_bind I); [apply (triple_lift I) |]. intros m _.
    eapply (triple_bind I); [apply triple_update_available |]. intros _ _.
    apply triple_update_available.
  Qed.

Lemma triple_overprovisioning : triple I overprovisioning (λ _, True).
  Proof.
    unfold overprovisioning. eapply (triple_bind I); [apply (triple_get I) |]. intros s _.
    eapply (triple_weaken I); [apply (triple_lift I) | done].
  Qed.

Lemma triple_kube_resources : triple I (_kube_resources describe) (λ _, True).
  Proof.
    unfold _kube_resources.
    eapply (triple_bind I); [apply (triple_get I) |]. intros s _.
    destruct (_ <=? _)%Z.
    { eapply (triple_bind I); [apply (triple_LOG I) |]. intros _ _. by apply (triple_ret I). }
    eapply (triple_bind I); [apply triple_kube_total_capacity |]. intros total _.
    eapply (triple_bind I); [apply (triple_modify I); auto |]. intros _ _.
    eapply (triple_bind I); [apply triple_Pod_objects |]. intros listing Hlisting.
    eapply (triple_bind I).
    { apply (triple_map_each I). intros named Hin.
      eapply (triple_weaken I); [apply (triple_future I), triple_cleanup | done].
      by eapply Forall_forall in Hlisting. }
    intros outcomes _.
    eapply (triple_bind I).
    { apply (triple_for_each I). intros outcome _. apply triple_charge. }
    intros _ _.
    eapply (triple_bind I); [apply (triple_modify I); auto |]. intros _ _.
    do 3 (eapply (triple_bind I); [apply triple_overprovisioning |]; intros ? _;
          eapply (triple_bind I); [apply triple_update_available |]; intros _ _).
    eapply (triple_bind I); [apply (triple_get I) |]. intros s1 _.
    eapply (triple_bind I); [apply (triple_LOG I) |]. intros _ _.
    by apply (triple_ret I).
  Qed.

End Accounting.

(** X6. Whatever the cluster answers, and whether it returns or raises,
    [_kube_resources] adds no pod and changes none, and the only pods it
    removes are pods that succeeded or failed: a pod that is pending,
    running or in another phase is there afterwards. The environment, the
    clock and the nodes are as before. *)
Theorem kube_resources_spares_pods describe (s : state) :
  let s' := (_kube_resources describe s).2 in
  cluster_pods s' ⊆ cluster_pods s
  ∧ (∀ name pod, cluster_pods s !! name = Some pod → is_over pod = false →
       cluster_pods s' !! name = Some pod)
  ∧ environ s' = environ s
  ∧ now s' = now s
  ∧ cluster_nodes s' = cluster_nodes s.
Proof.
  intros s'.
  assert (Hpods : over_only (cluster_pods s) s').
  { apply (triple_kube_resources (over_only (cluster_pods s))
             (λ named, cluster_pods s !! named.1 = Some named.2)); try done.
    - intros s1 name pod [Hsub _] Hpod. by apply (lookup_weaken _ _ _ _ Hpod).
    - intros s1 name pod [Hsub Hkept] Hpod Hover. cbn [fst snd] in Hpod.
      split; cbn [cluster_pods set_cluster_pods].
      + etrans; [apply delete_subseteq | done].
      + intros k pod' Hk Hover'. rewrite lookup_delete_ne; [by apply Hkept |].
        intros <-. congruence. }
  assert (Hsur : surroundings_of s s').
  { apply (triple_kube_resources (surroundings_of s) (λ _, True)); done. }
  destruct Hpods as [Hsub Hkept]. split; [exact Hsub |]. split; [exact Hkept | exact Hsur].
Qed.

(** ** Dispatch, call by call *)

(** X7. On a cluster that answers, [terminate(name)] returns with the pod of
    that name gone and every other pod as it was; it asks whether the pod
    exists, and deletes only when it does. *)
Theorem terminate_deletes (name : string) (s : state) :
  faults s = [] →
  ∃ s',
    terminate name s = (Ok tt, s')
    ∧ cluster_pods s' = delete name (cluster_pods s)
    ∧ api_calls s'
      = api_calls s
        ++ PodExists name
           :: (if bool_decide (is_Some (cluster_pods s !! name)) then [PodDelete name] else [])
    ∧ faults s' = [].
Proof.
  intros Hf. unfold terminate, Pod_exists, Pod_delete. unfold_M. unfold modify.
  unfold api at 1. rewrite Hf. cbn [cluster_pods set_api_calls].
  destruct (bool_decide (is_Some (cluster_pods s !! name))) eqn:Hex.
  - unfold api. cbn. rewrite Hf.
    eexists. split; [reflexivity |]. cbn. rewrite <- app_assoc. done.
  - apply bool_decide_eq_false in Hex. eexists. split; [reflexivity |]. cbn.
    split; [| done]. symmetry. apply delete_id.
    destruct (cluster_pods s !! name) eqn:Hl; [| done]. exfalso. apply Hex. eauto.
Qed.

Lemma terminate_deletes_witness :
  let s := example_state {[ "worker-7" := example_pod "worker-7" Running None None;
                            "worker-8" := example_pod "worker-8" Running None None ]} ∅ [] in
  faults s = []
  ∧ ∃ s',
      terminate "worker-7" s = (Ok tt, s')
      ∧ cluster_pods s' !! "worker-7" = None
      ∧ cluster_pods s' !! "worker-8" = cluster_pods s !! "worker-8"
      ∧ api_calls s' = [PodExists "worker-7"; PodDelete "worker-7"].
Proof.
  intros s. split; [reflexivity |].
  destruct (terminate_deletes "worker-7" s eq_refl) as (s' & Hrun & Hpods & Hcalls & _).
  exists s'. split; [exact Hrun |].
  split; [rewrite Hpods; apply lookup_delete_eq |].
  split; [rewrite Hpods; by apply lookup_delete_ne |].
  rewrite Hcalls. reflexivity.
Defined.

Lemma terminate_raises (name : string) (s : state) (e : exn) (rest : list (option exn)) :
  faults s = Some e :: rest
  ∨ (faults s = None :: Some e :: rest ∧ is_Some (cluster_pods s !! name)) →
  ∃ s',
    terminate name s = (Raise e, s')
    ∧ cluster_pods s' = cluster_pods s
    ∧ faults s' = rest
    ∧ api_calls s'
      = api_calls s ++ PodExists name
                       :: match faults s with
                          | Some _ :: _ => []
                          | _ => [PodDelete name]
                          end.
Proof.
  intros [Hf | [Hf Hex]]; unfold terminate, Pod_exists, Pod_delete; unfold_M;
    unfold modify; unfold api at 1; rewrite Hf; cbn.
  - eexists. split; [reflexivity |]. cbn. done.
  - rewrite bool_decide_eq_true_2 by done. unfold api. cbn.
    eexists. split; [reflexivity |]. cbn. rewrite <- app_assoc. done.
Qed.

(** X8. When the cluster fails the question whether the old pod exists, or
    fails the deletion of the old pod, [schedule(job)] raises that error and
    stops there: no pod is created, and the pods are as they were. *)
Theorem schedule_stops_at_terminate conflict py_str schema (job : Job) (s : state)
    (e : exn) (rest : list (option exn)) :
  faults s = Some e :: rest
  ∨ (faults s = None :: Some e :: rest
     ∧ is_Some (cluster_pods s !! _worker_name (job_id job))) →
  ∃ s',
    schedule conflict py_str schema job s = (Raise e, s')
    ∧ cluster_pods s' = cluster_pods s
    ∧ faults s' = rest
    ∧ (∀ call, call ∈ api_calls s' →
         call ∈ api_calls s
         ∨ call = PodExists (_worker_name (job_id job))
         ∨ call = PodDelete (_worker_name (job_id job))).
Proof.
  intros Hf. unfold schedule.
  set (s0 := set_log (log s ++ [(DEBUG, "Scheduling job for job id " +:+ str_id (job_id job))]) s).
  destruct (terminate_raises (_worker_name (job_id job)) s0 e rest Hf)
    as (s' & Hrun & Hpods & Hfaults & Hcalls).
  exists s'. split.
  { unfold mbind at 1. unfold M_bind at 1. unfold LOG at 1. unfold modify at 1. fold s0.
    unfold mbind at 1. unfold M_bind at 1. by rewrite Hrun. }
  split; [exact Hpods |]. split; [exact Hfaults |].
  intros call. rewrite Hcalls. cbn [api_calls s0 set_log].
  intros [Hin | Hin]%elem_of_app; [by left | right].
  apply elem_of_cons in Hin as [-> | Hin]; [by left | right].
  change (faults s0) with (faults s) in Hin.
  destruct (faults s) as [|[?|] ?]; first [by apply elem_of_nil in Hin
                                          | by apply list_elem_of_singleton in Hin].
Qed.

Lemma schedule_stops_at_terminate_witness :
  let job := example_job None None None None in
  let s := example_state {[ "worker-7" := example_pod "worker-7" Running None None ]} ∅
             [None; Some (RequestsHTTPError 500)] in
  ∃ s',
    schedule (PykubeHTTPError "AlreadyExists") render_number example_schema job s
    = (Raise (RequestsHTTPError 500), s')
    ∧ cluster_pods s' = cluster_pods s
    ∧ faults s' = [].
Proof.
  intros job s.
  destruct (schedule_stops_at_terminate (PykubeHTTPError "AlreadyExists")
              render_number example_schema job s
              (RequestsHTTPError 500) [])
    as (s' & Hrun & Hpods & Hfaults & _).
  { right. split; [reflexivity | by eexists]. }
  exists s'. split; [exact Hrun |]. split; [exact Hpods | exact Hfaults].
Defined.

(** X9. On a cluster that answers and in an environment the template can be
    built in, [_schedule_kube_pod(job)] asks for the pod once and never
    replaces a pod. When no pod of the job's name exists, the pod is
    created, pending, from the template, and nothing is logged. When one
    exists it stays as it is, and the error by which the client reports the
    conflict decides the rest: an HTTP error of the client library is
    caught and logged as an error; an HTTP error of the requests library is
    caught and logged, as a warning when its status is 409 and as an error
    otherwise; any other error leaves the call. *)
Theorem schedule_kube_pod_creates_or_keeps conflict py_str schema (job : Job) (s : state) :
  required_environ (environ s) →
  faults s = [] →
  ∃ cfg r s',
    _kube_pod_template py_str schema (environ s) job = Ok cfg
    ∧ _schedule_kube_pod conflict py_str schema job s = (r, s')
    ∧ api_calls s' = api_calls s ++ [PodCreate (_worker_name (job_id job))]
    ∧ match cluster_pods s !! _worker_name (job_id job) with
      | Some old =>
          cluster_pods s' = cluster_pods s
          ∧ match conflict with
            | PykubeHTTPError msg =>
                r = Ok tt ∧ log s' = log s ++ [(ERROR, "pykube.HTTPError " +:+ msg)]
            | RequestsHTTPError code =>
                r = Ok tt
                ∧ log s'
                  = log s ++ [if (code =? 409)%Z
                              then (WARNING, "Job already scheduled " +:+ str_id (job_id job))
                              else (ERROR, "requests.HTTPError " +:+ str_int code)]
            | e => r = Raise e ∧ log s' = log s
            end
      | None =>
          r = Ok tt
          ∧ cluster_pods s'
            = <[_worker_name (job_id job) := {| pod_phase := Pending; pod_obj := cfg |}]>
                (cluster_pods s)
          ∧ log s' = log s
      end.
Proof.
  intros Henv Hf.
  destruct (kube_pod_template_returns py_str schema (environ s) job Henv)
    as (cfg & c & Hcfg & Hname & _).
  exists cfg.
  unfold _schedule_kube_pod, Pod_create. unfold_M. rewrite Hcfg, Hname.
  rewrite (api_no_faults _ s Hf). cbn [cluster_pods set_api_calls].
  destruct (cluster_pods s !! _worker_name (job_id job)) as [old|] eqn:Hold; cbn.
  - destruct conflict; cbn; try (eexists _, _; split; [reflexivity |]; by cbn).
    destruct (_ =? _)%Z; eexists _, _; (split; [reflexivity |]); by cbn.
  - eexists _, _. split; [reflexivity |]. split; [reflexivity |]. done.
Qed.

Lemma schedule_kube_pod_creates_or_keeps_witness :
  let job := example_job None None None None in
  let old := example_pod "worker-7" Running None None in
  let s := example_state {[ "worker-7" := old ]} ∅ [] in
  required_environ (environ s)
  ∧ faults s = []
  ∧ ∃ s',
      _schedule_kube_pod (PykubeHTTPError "AlreadyExists") render_number example_schema job s
      = (Ok tt, s')
      ∧ cluster_pods s' !! "worker-7" = Some old
      ∧ log s' = [(ERROR, "pykube.HTTPError AlreadyExists")].
Proof.
  intros job old s.
  assert (Henv : required_environ (environ s)).
  { unfold required_environ. repeat constructor; by eexists. }
  split; [exact Henv |]. split; [reflexivity |].
  destruct (schedule_kube_pod_creates_or_keeps (PykubeHTTPError "AlreadyExists")
              render_number example_schema job s Henv eq_refl)
    as (cfg & r & s' & _ & Hrun & _ & Hcase).
  change (cluster_pods s !! _worker_name (job_id job)) with (Some old) in Hcase.
  destruct Hcase as (Hpods & -> & Hlog).
  exists s'. split; [exact Hrun |]. split; [by rewrite Hpods | exact Hlog].
Defined.

(** X10. When the cluster fails the creation of the pod,
    [_schedule_kube_pod(job)] returns normally exactly when the error is an
    HTTP error, of the requests library or of the client library, and then
    logs one line; any other error, a connection error among them, leaves
    the call. No pod is created either way. *)
Theorem schedule_kube_pod_guard conflict py_str schema (job : Job) (s : state)
    (e : exn) (rest : list (option exn)) :
  required_environ (environ s) →
  faults s = Some e :: rest →
  ∃ r s',
    _schedule_kube_pod conflict py_str schema job s = (r, s')
    ∧ (r = Ok tt ↔ (∃ code, e = RequestsHTTPError code) ∨ (∃ msg, e = PykubeHTTPError msg))
    ∧ (r ≠ Ok tt → r = Raise e ∧ log s' = log s)
    ∧ (r = Ok tt → ∃ line, log s' = log s ++ [line])
    ∧ cluster_pods s' = cluster_pods s.
Proof.
  intros Henv Hf.
  destruct (kube_pod_template_returns py_str schema (environ s) job Henv)
    as (cfg & c & Hcfg & _).
  unfold _schedule_kube_pod, Pod_create. unfold_M. rewrite Hcfg.
  unfold api. rewrite Hf.
  destruct e; cbn.
  5:{ destruct (_ =? _)%Z; eexists _, _; (split; [reflexivity |]); cbn;
        (split; [split; [intros _; left; by eexists | done] |]);
        (split; [done |]); (split; [by eexists | done]). }
  5:{ eexists _, _. split; [reflexivity |]. cbn.
      split; [split; [intros _; right; by eexists | done] |].
      split; [done |]. split; [by eexists | done]. }
  all: eexists _, _; (split; [reflexivity |]); cbn;
    (split; [split; [done | intros [[? ?] | [? ?]]; done] |]);
    (split; [done |]); (split; [done | done]).
Qed.

Lemma schedule_kube_pod_guard_witness :
  let job := example_job None None None None in
  let s := example_state ∅ ∅ [Some RequestsConnectionError] in
  ∃ s',
    _schedule_kube_pod (PykubeHTTPError "AlreadyExists") render_number example_schema job s
    = (Raise RequestsConnectionError, s')
    ∧ cluster_pods s' = ∅.
Proof.
  intros job s.
  assert (Henv : required_environ (environ s)).
  { unfold required_environ. repeat constructor; by eexists. }
  destruct (schedule_kube_pod_guard (PykubeHTTPError "AlreadyExists")
              render_number example_schema job s
              RequestsConnectionError [] Henv eq_refl)
    as (r & s' & Hrun & Hok & Hraise & _ & Hpods).
  exists s'. split; [| exact Hpods].
  rewrite Hrun. f_equal. apply Hraise.
  intros Hr. apply Hok in Hr as [[? ?] | [? ?]]; discriminate.
Defined.

(** ** The pod template, beyond the resources *)

Lemma kube_pod_template_missing py_str schema environ job (key : string) :
  first_missing environ = Some key →
  _kube_pod_template py_str schema environ job = Raise (KeyError key).
Proof.
  unfold first_missing, template_environ. cbn [List.find].
  unfold _kube_pod_template, environ_get.
  destruct (kvm_access job), (data_access job);
    repeat (match goal with
            | |- context [bool_decide (environ !! ?k = None)] =>
                destruct (environ !! k) eqn:?;
                [rewrite bool_decide_eq_false_2 by done
                | rewrite bool_decide_eq_true_2 by done; by intros [= <-]]
            end);
    done.
Qed.

Lemma first_missing_none (environ : gmap string string) :
  first_missing environ = None ↔ required_environ environ.
Proof.
  unfold first_missing, required_environ, template_environ.
  rewrite Forall_forall. split.
  - intros Hfind key Hin. apply list_elem_of_In in Hin.
    pose proof (find_none _ _ Hfind key Hin) as Hkey. cbn beta in Hkey.
    apply bool_decide_eq_false in Hkey. by destruct (environ !! key); [eexists |].
  - intros Hall. destruct (List.find _ _) as [key|] eqn:Hfind; [| done].
    apply find_some in Hfind as [Hin Hkey]. apply bool_decide_eq_true in Hkey.
    apply list_elem_of_In, Hall in Hin. rewrite Hkey in Hin. by destruct Hin.
Qed.

(** X11. The template can be built exactly when the environment holds the
    five variables it reads; otherwise it raises [KeyError] with the first
    of them, in the order image, pull policy, database user, password and
    name, that is missing. *)
Theorem kube_pod_template_environ py_str schema environ job :
  (is_Ok (_kube_pod_template py_str schema environ job) ↔ required_environ environ)
  ∧ (∀ key, first_missing environ = Some key →
       _kube_pod_template py_str schema environ job = Raise (KeyError key)
       ∧ key ∈ template_environ ∧ environ !! key = None).
Proof.
  split.
  - split.
    + intros Hok. apply first_missing_none.
      destruct (first_missing environ) as [key|] eqn:Hmiss; [| done].
      rewrite (kube_pod_template_missing py_str schema environ job key Hmiss) in Hok.
      by destruct Hok.
    + intros Henv.
      destruct (kube_pod_template_returns py_str schema environ job Henv) as (cfg & c & -> & _).
      done.
  - intros key Hmiss. split; [by apply kube_pod_template_missing |].
    unfold first_missing in Hmiss. apply find_some in Hmiss as [Hin Hkey].
    split; [by apply list_elem_of_In | by apply bool_decide_eq_true in Hkey].
Qed.

Ltac in_list := repeat first [apply list_elem_of_here | apply list_elem_of_further].

Ltac not_in_list :=
  split; [intros Hin;
          repeat (apply elem_of_cons in Hin as [Hin|Hin]; [discriminate Hin |]);
          by apply elem_of_nil in Hin
         | intros; discriminate].

(** X12. In every specification the template builds, the mounts of the
    container are the volumes of the pod, name by name and in order, and a
    host path is mounted where it is on the host. The shared memory volume
    is always there; [/dev/kvm] is there, and the container privileged,
    exactly when the job has [kvm_access]; [/data] exactly when it has
    [data_access]; the restart policy is [OnFailure] for a job that
    restarts and [Never] otherwise. *)
Theorem kube_pod_template_volumes py_str schema environ job :
  required_environ environ →
  ∃ cfg c,
    _kube_pod_template py_str schema environ job = Ok cfg
    ∧ containers cfg = [c]
    ∧ (volumeMounts c).*1 = volume_name <$> volumes cfg
    ∧ (∀ name path, hostPath name path ∈ volumes cfg → (name, path) ∈ volumeMounts c)
    ∧ emptyDir "devshm" "Memory" ∈ volumes cfg
    ∧ ("devshm", "/dev/shm") ∈ volumeMounts c
    ∧ (hostPath "devkvm" "/dev/kvm" ∈ volumes cfg ↔ kvm_access job = true)
    ∧ securityContext c = (if kvm_access job then {[ "privileged" := true ]} else ∅)
    ∧ (hostPath "data" "/data" ∈ volumes cfg ↔ data_access job = true)
    ∧ length (volumes cfg)
      = (1 + (if kvm_access job then 1 else 0) + (if data_access job then 1 else 0))%nat
    ∧ restartPolicy cfg = (if restart job then "OnFailure" else "Never").
Proof.
  intros Henv. unfold required_environ in Henv.
  repeat (apply Forall_cons_1 in Henv as [?%required_environ_get Henv]).
  repeat match goal with H : ∃ _, _ |- _ => destruct H as [? ?] end.
  unfold _kube_pod_template.
  destruct (kvm_access job), (data_access job);
    repeat match goal with
           | H : environ_get _ _ = Ok _ |- _ => rewrite H; clear H; simpl
           end;
    eexists _, _; (split; [reflexivity |]); (split; [reflexivity |]);
    cbn [volumeMounts volumes securityContext restartPolicy];
    (split; [reflexivity |]);
    (split; [intros name path Hin;
             repeat (apply elem_of_cons in Hin as [Hin|Hin];
                     [first [discriminate Hin | injection Hin as -> ->]; in_list |]);
             by apply elem_of_nil in Hin |]);
    (split; [in_list |]); (split; [in_list |]);
    (split; [first [split; [intros; reflexivity | intros; in_list] | not_in_list] |]);
    (split; [reflexivity |]);
    (split; [first [split; [intros; reflexivity | intros; in_list] | not_in_list] |]);
    (split; reflexivity).
Qed.

Lemma kube_pod_template_volumes_witness :
  let job :=
    {| job_id := Some 7%Z; worker := "rex"; cbn := Some 1%Z; payload := [];
       request_cpu := None; request_memory := None; limit_cpu := None; limit_memory := None;
       restart := true; kvm_access := true; data_access := false;
       priority := 0; dirty_fields := [] |} in
  required_environ example_environ
  ∧ ∃ cfg c,
      _kube_pod_template render_number example_schema example_environ job = Ok cfg
      ∧ containers cfg = [c]
      ∧ volumeMounts c = [("devshm", "/dev/shm"); ("devkvm", "/dev/kvm")]
      ∧ securityContext c = {[ "privileged" := true ]}
      ∧ restartPolicy cfg = "OnFailure".
Proof.
  intros job.
  assert (Henv : required_environ example_environ).
  { unfold required_environ. repeat constructor; by eexists. }
  split; [exact Henv |].
  destruct (kube_pod_template_volumes render_number example_schema example_environ job Henv)
    as (cfg & c & Hcfg & Hc & _ & _ & _ & _ & _ & Hsec & _ & _ & Hrestart).
  exists cfg, c. split; [exact Hcfg |]. split; [exact Hc |].
  split; [| split; [exact Hsec | exact Hrestart]].
  vm_compute in Hcfg. injection Hcfg as <-. injection Hc as <-. reflexivity.
Defined.

Lemma environ_get_Ok (environ : gmap string string) (key v : string) :
  environ_get environ key = Ok v ↔ environ !! key = Some v.
Proof. unfold environ_get. destruct (environ !! key); split; congruence. Qed.

(** What the template builds apart from resources and volumes. *)
Lemma kube_pod_template_shape py_str schema environ job :
  required_environ environ →
  ∃ cfg c worker_image pull_policy db_user db_password db_name,
    _kube_pod_template py_str schema environ job = Ok cfg
    ∧ containers cfg = [c]
    ∧ environ !! "WORKER_IMAGE" = Some worker_image
    ∧ environ !! "WORKER_IMAGE_PULL_POLICY" = Some pull_policy
    ∧ environ !! "POSTGRES_DATABASE_USER" = Some db_user
    ∧ environ !! "POSTGRES_DATABASE_PASSWORD" = Some db_password
    ∧ environ !! "POSTGRES_DATABASE_NAME" = Some db_name
    ∧ metadata_name cfg = _worker_name (job_id job)
    ∧ container_name c = _worker_name (job_id job)
    ∧ metadata_labels cfg
      = <["app" := "worker"]>
          (<["worker" := worker job]> (<["job_id" := str_id (job_id job)]> ∅))
    ∧ image c = worker_image
    ∧ imagePullPolicy c = pull_policy
    ∧ env c
      = [("JOB_ID", str_id (job_id job))]
        ++ match environ !! "POSTGRES_USE_SLAVES" with
           | Some _ => [("POSTGRES_USE_SLAVES", "true")]
           | None => []
           end
        ++ [("POSTGRES_DATABASE_USER", db_user);
            ("POSTGRES_DATABASE_PASSWORD", db_password);
            ("POSTGRES_DATABASE_NAME", db_name);
            ("POSTGRES_MASTER_CONNECTIONS", "1");
            ("POSTGRES_SLAVE_CONNECTIONS", "1")].
Proof.
  intros Henv. unfold required_environ in Henv.
  repeat (apply Forall_cons_1 in Henv as [?%required_environ_get Henv]).
  repeat match goal with H : ∃ _, _ |- _ => destruct H as [? ?] end.
  unfold _kube_pod_template.
  destruct (kvm_access job), (data_access job);
    repeat match goal with
           | H : environ_get _ _ = Ok _ |- _ =>
               rewrite H; apply environ_get_Ok in H; cbn [mbind result_bind rbind]
           end;
    eexists _, _, _, _, _, _, _; (split; [reflexivity |]); (split; [reflexivity |]);
    repeat (split; [eassumption |]);
    cbn [metadata_name container_name metadata_labels env image imagePullPolicy];
    repeat (split; [reflexivity |]); reflexivity.
Qed.

Ltac list_cases H :=
  repeat (apply elem_of_cons in H as [H|H];
          [first [discriminate H | injection H as ? ?; subst | injection H as ?; subst];
           try done |]);
  try (by apply elem_of_nil in H).

(** X13. The pod that the template builds for a job is the job's own: pod
    and container bear the name [worker-<id>], the labels tell the worker
    tag and the id, and the first variable of the container is [JOB_ID]
    with that id. The container is given the image and the pull policy of
    the environment and the database user, password and name of the
    environment, unchanged. [POSTGRES_USE_SLAVES] is handed on, always as
    [true], exactly when the environment has the variable, whatever its
    value there. *)
Theorem kube_pod_template_identity py_str schema environ job :
  required_environ environ →
  ∃ cfg c,
    _kube_pod_template py_str schema environ job = Ok cfg
    ∧ containers cfg = [c]
    ∧ metadata_name cfg = _worker_name (job_id job)
    ∧ container_name c = _worker_name (job_id job)
    ∧ metadata_labels cfg !! "job_id" = Some (str_id (job_id job))
    ∧ metadata_labels cfg !! "worker" = Some (worker job)
    ∧ metadata_labels cfg !! "app" = Some "worker"
    ∧ head (env c) = Some ("JOB_ID", str_id (job_id job))
    ∧ environ !! "WORKER_IMAGE" = Some (image c)
    ∧ environ !! "WORKER_IMAGE_PULL_POLICY" = Some (imagePullPolicy c)
    ∧ (∀ key v,
         key ∈ ["POSTGRES_DATABASE_USER"; "POSTGRES_DATABASE_PASSWORD"; "POSTGRES_DATABASE_NAME"] →
         (key, v) ∈ env c ↔ environ !! key = Some v)
    ∧ (∀ v, ("POSTGRES_USE_SLAVES", v) ∈ env c
            ↔ v = "true" ∧ is_Some (environ !! "POSTGRES_USE_SLAVES")).
Proof.
  intros Henv.
  destruct (kube_pod_template_shape py_str schema environ job Henv)
    as (cfg & c & img & pol & user & pw & name
        & Hcfg & Hc & Himg & Hpol & Huser & Hpw & Hname & Hn & Hcn & Hlab & Hi & Hp & Henvc).
  exists cfg, c. split; [exact Hcfg |]. split; [exact Hc |].
  split; [exact Hn |]. split; [exact Hcn |].
  rewrite Hlab, Henvc, Hi, Hp.
  split; [reflexivity |]. split; [reflexivity |]. split; [reflexivity |].
  split; [reflexivity |]. split; [exact Himg |]. split; [exact Hpol |].
  split.
  - intros key v Hkey.
    repeat (apply elem_of_cons in Hkey as [->|Hkey]); [.. | by apply elem_of_nil in Hkey];
      (split;
       [ intros Hin; destruct (environ !! "POSTGRES_USE_SLAVES"); list_cases Hin
       | intros Hv; apply elem_of_app; right; apply elem_of_app; right;
         first [ replace v with user by congruence
               | replace v with pw by congruence
               | replace v with name by congruence ];
         in_list ]).
  - intros v. split.
    + intros Hin. destruct (environ !! "POSTGRES_USE_SLAVES") eqn:Hs; list_cases Hin.
    + intros [-> [x Hx]]. rewrite Hx. in_list.
Qed.

Lemma kube_pod_template_identity_witness :
  let environ := <["POSTGRES_USE_SLAVES" := "false"]> example_environ in
  required_environ environ
  ∧ ∃ cfg c,
      _kube_pod_template render_number example_schema environ
        (example_job None None None None) = Ok cfg
      ∧ containers cfg = [c]
      ∧ metadata_name cfg = "worker-7"
      ∧ ("POSTGRES_USE_SLAVES", "true") ∈ env c
      ∧ ("POSTGRES_DATABASE_PASSWORD", "secret") ∈ env c.
Proof.
  intros environ.
  assert (Henv : required_environ environ).
  { unfold required_environ. repeat constructor; by eexists. }
  split; [exact Henv |].
  destruct (kube_pod_template_identity render_number example_schema environ
              (example_job None None None None) Henv)
    as (cfg & c & Hcfg & Hc & Hname & _ & _ & _ & _ & _ & _ & _ & Hcred & Hslaves).
  exists cfg, c. split; [exact Hcfg |]. split; [exact Hc |]. split; [exact Hname |].
  split.
  - apply Hslaves. split; [reflexivity | by eexists].
  - apply Hcred; [in_list | reflexivity].
Defined.

(** ** The view of the nodes *)

Lemma set_node_capacities_same (s : state) (caps : gmap string capacity) :
  _node_capacities s = Some caps → set_node_capacities (Some caps) s = s.
Proof. destruct s; simpl; intros ->; reflexivity. Qed.

(** The loop over the nodes: it stops at the first node that cannot be
    read, with the nodes before it recorded. *)
Lemma record_nodes (nodes : list (string * Node)) :
  ∀ (s : state) (caps0 : gmap string capacity),
    _node_capacities s = Some caps0 →
    ∃ r caps',
      for_each nodes record_node s = (r, set_node_capacities (Some caps') s)
      ∧ (∀ name c, caps' !! name = Some c →
           caps0 !! name = Some c
           ∨ ∃ node, (name, node) ∈ nodes ∧ parse_node_capacity node = Ok c)
      ∧ (r = Ok tt ↔ Forall (λ named, is_Ok (parse_node_capacity named.2)) nodes)
      ∧ (r = Ok tt → caps' = foldl recorded caps0 nodes).
Proof.
  induction nodes as [|[name node] nodes IH]; intros s caps0 Hcaps.
  - exists (Ok tt), caps0. rewrite (set_node_capacities_same s caps0 Hcaps).
    split; [done |]. split; [by left |]. split; [| done]. split; [constructor | done].
  - cbn [for_each]. unfold mbind at 1. unfold M_bind at 1.
    unfold record_node at 1. unfold_M.
    destruct (parse_node_capacity node) as [c|e] eqn:Hparse.
    + rewrite Hcaps. cbn [default from_option id].
      destruct (IH (set_node_capacities (Some (<[name := c]> caps0)) s) (<[name := c]> caps0)
                  eq_refl) as (r & caps' & Hrun & Hfrom & Hok & Hfold).
      exists r, caps'. split; [exact Hrun |]. split.
      { intros k c' Hk. destruct (Hfrom k c' Hk) as [Hins | (node' & Hin & Hp)].
        - destruct (decide (k = name)) as [->|Hne].
          + rewrite lookup_insert_eq in Hins. injection Hins as <-.
            right. exists node. split; [apply list_elem_of_here | done].
          + rewrite lookup_insert_ne in Hins by done. by left.
        - right. exists node'. split; [by apply list_elem_of_further | done]. }
      split.
      { rewrite Hok. split.
        - intros Hall. constructor; [cbn [snd]; by rewrite Hparse | done].
        - by intros [_ Hall]%Forall_cons_1. }
      intros Hr. rewrite (Hfold Hr). cbn [foldl]. f_equal.
      unfold recorded. cbn [fst snd]. by rewrite Hparse.
    + exists (Raise e), caps0. rewrite (set_node_capacities_same s caps0 Hcaps).
      split; [done |]. split; [by left |]. split; [| done].
      split; [done |]. intros [Hbad _]%Forall_cons_1. cbn [snd] in Hbad.
      rewrite Hparse in Hbad. by destruct Hbad.
Qed.

(** The first reading of the nodes, on a cluster that answers. *)
Lemma kube_node_capacities_first (s : state) :
  _node_capacities s = None →
  faults s = [] →
  ∃ r caps,
    let s1 := set_node_capacities (Some caps)
                (set_api_calls (api_calls s ++ [ListNodes]) s) in
    _kube_node_capacities s = (r, s1)
    ∧ (∀ name c, caps !! name = Some c →
         ∃ node, cluster_nodes s !! name = Some node ∧ parse_node_capacity node = Ok c)
    ∧ (is_Ok r ↔ map_Forall (λ _ node, is_Ok (parse_node_capacity node)) (cluster_nodes s))
    ∧ (is_Ok r → r = Ok caps ∧ caps = foldl recorded ∅ (map_to_list (cluster_nodes s))).
Proof.
  intros Hnone Hf. unfold _kube_node_capacities, Node_objects.
  unfold mbind at 1. unfold M_bind at 1. unfold get at 1. rewrite Hnone.
  unfold mbind at 1. unfold M_bind at 1. unfold modify at 1.
  unfold mbind at 1. unfold M_bind at 1.
  unfold mbind at 1. unfold M_bind at 1.
  rewrite (api_no_faults ListNodes (set_node_capacities (Some ∅) s) Hf).
  unfold mbind at 1. unfold M_bind at 1. unfold get at 1. unfold mret at 1. unfold M_ret at 1.
  unfold mbind at 1. unfold M_bind at 1.
  set (s1 := set_api_calls _ (set_node_capacities (Some ∅) s)).
  change (cluster_nodes s1) with (cluster_nodes s).
  match goal with
  | |- context [for_each ?l ?body ?s0] => change (for_each l body s0) with (for_each l record_node s0)
  end.
  destruct (record_nodes (map_to_list (cluster_nodes s)) s1 ∅ eq_refl)
    as (r & caps & Hrun & Hfrom & Hok & Hfold).
  rewrite Hrun. cbn [set_node_capacities].
  assert (Hall : Forall (λ named : string * Node, is_Ok (parse_node_capacity named.2))
                   (map_to_list (cluster_nodes s))
                 ↔ map_Forall (λ _ node, is_Ok (parse_node_capacity node)) (cluster_nodes s)).
  { rewrite map_Forall_to_list. apply Forall_iff. by intros [? ?]. }
  assert (Hnodes : ∀ name c, caps !! name = Some c →
            ∃ node, cluster_nodes s !! name = Some node ∧ parse_node_capacity node = Ok c).
  { intros name c Hc. destruct (Hfrom name c Hc) as [Hc0 | (node & Hin & Hp)]; [done |].
    exists node. split; [by apply elem_of_map_to_list | done]. }
  destruct r as [[]|e].
  - exists (Ok caps), caps. unfold_M. cbn.
    split; [reflexivity |]. split; [exact Hnodes |].
    split; [rewrite <- Hall, <- Hok; done |].
    intros _. split; [done | by apply Hfold].
  - exists (Raise e), caps. cbn.
    split; [reflexivity |]. split; [exact Hnodes |].
    split; [rewrite <- Hall, <- Hok; done |]. by intros [].
Qed.

Lemma foldl_recorded_absent (l : list (string * Node)) (caps0 : gmap string capacity)
    (k : string) :
  k ∉ l.*1 → foldl recorded caps0 l !! k = caps0 !! k.
Proof.
  revert caps0. induction l as [|[name node] l IH]; intros caps0 Hk; [done |].
  cbn [foldl]. apply not_elem_of_cons in Hk as [Hne Hk]. rewrite IH by done.
  unfold recorded. cbn [fst snd] in *. destruct (parse_node_capacity node); [| done].
  by rewrite lookup_insert_ne.
Qed.

Lemma foldl_recorded_present (l : list (string * Node)) (caps0 : gmap string capacity)
    (k : string) (node : Node) (c : capacity) :
  NoDup l.*1 → (k, node) ∈ l → parse_node_capacity node = Ok c →
  foldl recorded caps0 l !! k = Some c.
Proof.
  revert caps0. induction l as [|[name node'] l IH]; intros caps0 Hnd Hin Hparse.
  - by apply elem_of_nil in Hin.
  - cbn [foldl]. apply NoDup_cons in Hnd as [Hname Hnd].
    apply elem_of_cons in Hin as [[= <- <-] | Hin].
    + rewrite foldl_recorded_absent by done. unfold recorded. cbn [fst snd].
      by rewrite Hparse, lookup_insert_eq.
    + by apply IH.
Qed.

(** X14. Once [_kube_node_capacities] has returned, what it returned is
    kept on the object, and every later call returns it without a call to
    the cluster, whatever has become of the nodes and whatever the cluster
    would answer. *)
Theorem kube_node_capacities_cached (s s1 : state) (caps : gmap string capacity) :
  _kube_node_capacities s = (Ok caps, s1) →
  _node_capacities s1 = Some caps
  ∧ ∀ s2, _node_capacities s2 = _node_capacities s1 →
          _kube_node_capacities s2 = (Ok caps, s2).
Proof.
  intros Hrun.
  assert (Hkept : _node_capacities s1 = Some caps).
  { destruct (_node_capacities s) as [caps0|] eqn:Hcaps.
    - unfold _kube_node_capacities in Hrun. unfold_M. rewrite Hcaps in Hrun.
      by injection Hrun as <- <-.
    - unfold _kube_node_capacities, Node_objects in Hrun.
      unfold mbind at 1 in Hrun. unfold M_bind at 1 in Hrun. unfold get at 1 in Hrun.
      rewrite Hcaps in Hrun.
      unfold mbind at 1 in Hrun. unfold M_bind at 1 in Hrun. unfold modify at 1 in Hrun.
      unfold mbind at 1 in Hrun. unfold M_bind at 1 in Hrun.
      destruct ((api ListNodes ;; s0 ← get; mret (map_to_list (cluster_nodes s0)))
                  (set_node_capacities (Some ∅) s))
        as [[nodes|e] s'] eqn:Hlist; [| done].
      assert (Hs' : _node_capacities s' = Some ∅).
      { revert Hlist. unfold_M. unfold api.
        destruct (faults _) as [|[?|] ?]; by intros [= _ <-]. }
      unfold mbind at 1 in Hrun. unfold M_bind at 1 in Hrun.
      match type of Hrun with
      | context [for_each ?l ?body ?s0] =>
          change (for_each l body s0) with (for_each l record_node s0) in Hrun
      end.
      destruct (record_nodes nodes s' ∅ Hs') as (r & caps' & Hloop & _).
      rewrite Hloop in Hrun. destruct r as [[]|e]; [| done].
      unfold_M. cbn in Hrun. by injection Hrun as <- <-. }
  split; [exact Hkept |].
  intros s2 Hs2. unfold _kube_node_capacities. unfold_M. by rewrite Hs2, Hkept.
Qed.

Lemma kube_node_capacities_cached_witness :
  ∃ caps,
    _kube_node_capacities scenario_state
    = (Ok caps, (_kube_node_capacities scenario_state).2)
    ∧ ∀ nodes outcomes,
        let s2 := set_faults outcomes
                    (set_node_capacities (Some caps) (example_state ∅ nodes [])) in
        _kube_node_capacities s2 = (Ok caps, s2).
Proof.
  eexists. split; [exact scenario_capacities |].
  intros nodes outcomes s2.
  apply (kube_node_capacities_cached scenario_state _ _ scenario_capacities).
  vm_compute. reflexivity.
Defined.

(** X15. On a cluster that answers and whose nodes can all be read, the
    first call of [_kube_node_capacities] lists the nodes once and returns
    one entry for every node of the cluster, under its name, and no other:
    the capacity the node reports, its cpu read by [cpu2float], its memory
    by [memory2int] and its pod slots by [int]. *)
Theorem kube_node_capacities_reads_nodes (s : state) :
  _node_capacities s = None →
  faults s = [] →
  map_Forall (λ _ node, is_Ok (parse_node_capacity node)) (cluster_nodes s) →
  ∃ caps s1,
    _kube_node_capacities s = (Ok caps, s1)
    ∧ (∀ name node, cluster_nodes s !! name = Some node →
         ∃ c, caps !! name = Some c ∧ parse_node_capacity node = Ok c)
    ∧ (∀ name, cluster_nodes s !! name = None → caps !! name = None)
    ∧ api_calls s1 = api_calls s ++ [ListNodes]
    ∧ _node_capacities s1 = Some caps.
Proof.
  intros Hnone Hf Hall.
  destruct (kube_node_capacities_first s Hnone Hf) as (r & caps & Hrun & Hfrom & Hok & Hfold).
  destruct (Hfold (proj2 Hok Hall)) as [-> Hcaps].
  eexists caps, _. split; [exact Hrun |].
  split.
  { intros name node Hnode. pose proof (Hall name node Hnode) as Hparse. cbn beta in Hparse.
    destruct (parse_node_capacity node) as [c|e] eqn:Hp; [| by destruct Hparse].
    exists c. split; [| done]. rewrite Hcaps.
    apply (foldl_recorded_present _ _ _ node); [apply NoDup_fst_map_to_list | | done].
    by apply elem_of_map_to_list. }
  split.
  { intros name Hname. rewrite Hcaps, foldl_recorded_absent; [done |].
    intros ([k node] & -> & Hin%elem_of_map_to_list)%list_elem_of_fmap.
    cbn [fst] in Hname. congruence. }
  split; reflexivity.
Qed.

Lemma kube_node_capacities_reads_nodes_witness :
  ∃ caps s1,
    _kube_node_capacities scenario_state = (Ok caps, s1)
    ∧ caps !! "node-1"
      = Some {| cpu := Py.round_int 4; memory := (8 * 1024 ^ 3)%Z; pods := 10%Z |}
    ∧ caps !! "node-2" = None
    ∧ api_calls s1 = [ListNodes].
Proof.
  destruct (kube_node_capacities_reads_nodes scenario_state eq_refl eq_refl)
    as (caps & s1 & Hrun & Hin & Hout & Hcalls & _).
  { intros name node Hnode. unfold scenario_state, example_state in Hnode.
    cbn [cluster_nodes] in Hnode.
    apply lookup_singleton_Some in Hnode as [_ <-]. by vm_compute. }
  exists caps, s1. split; [exact Hrun |].
  split; [| split; [by apply Hout | exact Hcalls]].
  destruct (Hin "node-1" _ eq_refl) as (c & Hl & Hc).
  vm_compute in Hc. injection Hc as <-. exact Hl.
Defined.

(** X16. A node that cannot be read spoils the view for good. On a cluster
    that answers, when some node reports a capacity that cannot be read,
    the first call of [_kube_node_capacities] raises; but what it had
    recorded before stays on the object, so that every later call returns,
    without raising and without asking the cluster again, a view in which
    that node is missing; the entries it has are nodes of the cluster. *)
Theorem kube_node_capacities_poisoned (s : state) (bad : string) (node : Node) (e : exn) :
  _node_capacities s = None →
  faults s = [] →
  cluster_nodes s !! bad = Some node →
  parse_node_capacity node = Raise e →
  ∃ e' s1 partial,
    _kube_node_capacities s = (Raise e', s1)
    ∧ _kube_node_capacities s1 = (Ok partial, s1)
    ∧ partial !! bad = None
    ∧ ∀ name c, partial !! name = Some c →
        ∃ node', cluster_nodes s !! name = Some node' ∧ parse_node_capacity node' = Ok c.
Proof.
  intros Hnone Hf Hbad Hparse.
  destruct (kube_node_capacities_first s Hnone Hf) as (r & partial & Hrun & Hfrom & Hok & _).
  destruct r as [caps|e'].
  { exfalso. pose proof (proj1 Hok I bad node Hbad) as H. cbn beta in H.
    rewrite Hparse in H. by destruct H. }
  eexists e', _, partial. split; [exact Hrun |].
  split; [by unfold _kube_node_capacities; unfold_M |].
  split; [| exact Hfrom].
  destruct (partial !! bad) as [c|] eqn:Hc; [| done].
  destruct (Hfrom bad c Hc) as (node' & Hnode' & Hp). congruence.
Qed.

Lemma kube_node_capacities_poisoned_witness :
  ∃ s1 partial,
    _kube_node_capacities half_read_state = (Raise (KeyError "cpu"), s1)
    ∧ _kube_node_capacities s1 = (Ok partial, s1)
    ∧ partial !! "node-2" = None.
Proof.
  destruct (kube_node_capacities_poisoned half_read_state "node-2"
              {| node_capacity := list_to_map [("memory", "8Gi"); ("pods", "10")] |}
              (KeyError "cpu") eq_refl eq_refl eq_refl eq_refl)
    as (e' & s1 & partial & Hrun & Hagain & Hbad & _).
  exists s1, partial. split; [| split; [exact Hagain | exact Hbad]].
  rewrite Hrun. f_equal. f_equal.
  assert (Hfirst : (_kube_node_capacities half_read_state).1 = Raise (KeyError "cpu"))
    by (vm_compute; reflexivity).
  rewrite Hrun in Hfirst. by injection Hfirst.
Defined.

(** X26. A listing of the nodes that fails leaves an empty view for good.
    The dictionary of capacities is put on the object before the cluster is
    asked for the nodes: when that request fails, the first call of
    [_kube_node_capacities] raises the error of the request, and every
    later call returns the empty dictionary without asking the cluster
    again, whatever nodes the cluster has. *)
Theorem kube_node_capacities_unlisted (s : state) (e : exn) (rest : list (option exn)) :
  _node_capacities s = None →
  faults s = Some e :: rest →
  ∃ s1,
    _kube_node_capacities s = (Raise e, s1)
    ∧ api_calls s1 = api_calls s ++ [ListNodes]
    ∧ _node_capacities s1 = Some ∅
    ∧ ∀ s2, _node_capacities s2 = _node_capacities s1 →
            _kube_node_capacities s2 = (Ok ∅, s2).
Proof.
  intros Hnone Hf. unfold _kube_node_capacities at 1, Node_objects.
  unfold_M. rewrite Hnone. unfold api. cbn. rewrite Hf. cbn.
  eexists. split; [reflexivity |]. cbn. split; [done |]. split; [done |].
  intros s2 Hs2. unfold _kube_node_capacities. unfold_M. by rewrite Hs2.
Qed.

Lemma kube_node_capacities_unlisted_witness :
  let s := example_state ∅ {[ "node-1" := example_node "4" "8Gi" "10" ]}
             [Some RequestsConnectionError] in
  ∃ s1,
    _kube_node_capacities s = (Raise RequestsConnectionError, s1)
    ∧ _kube_node_capacities s1 = (Ok ∅, s1)
    ∧ api_calls s1 = [ListNodes]
    ∧ cluster_nodes s1 = {[ "node-1" := example_node "4" "8Gi" "10" ]}.
Proof.
  intros s.
  destruct (kube_node_capacities_unlisted s RequestsConnectionError [] eq_refl eq_refl)
    as (s1 & Hrun & Hcalls & _ & Hlater).
  exists s1. split; [exact Hrun |]. split; [by apply Hlater |]. split; [exact Hcalls |].
  replace s1 with (_kube_node_capacities s).2 by (by rewrite Hrun). reflexivity.
Defined.

(** ** The budget and its cache *)

(** A call within the second after the stamp returns the budget of the
    object, and makes no call to the cluster. *)
Lemma kube_resources_hit describe (s : state) :
  (now s - _resources_timestamp s <=? 1000000)%Z = true →
  _kube_resources describe s
  = (Ok (_available_resources s), set_log (log s ++ [(DEBUG, "Returning cached data...")]) s).
Proof. intros Hhit. unfold _kube_resources. unfold_M. by rewrite Hhit. Qed.

(** X17. The budget is cached. On a cluster that answers and whose
    quantities can be read, the budget that [_kube_resources] computes on a
    miss is what every call of the following second returns, without a call
    to the cluster and without a change to it, whatever pods have come or
    gone in between and whatever the cluster would answer. *)
Theorem kube_resources_cached describe (s s1 : state) (caps : gmap string capacity)
    (f : spec_float) (costs : list (spec_float * Z)) (b : budget) :
  (now s - _resources_timestamp s <=? 1000000)%Z = false →
  faults s = [] →
  _kube_node_capacities s = (Ok caps, s1) →
  environ_get (environ s) "MEISTER_OVERPROVISIONING" ≫= Py.float = Ok f →
  Forall2 (λ named cost, pod_cost named.2 = Ok cost) (charged_pods (cluster_pods s)) costs →
  scale f (budget_of (fold_left charge_one costs (total_capacity caps))) = Ok b →
  ∃ s',
    _kube_resources describe s = (Ok (Some b), s')
    ∧ ∀ s2, same_cache s' s2 →
            (0 <= now s2 - now s <= 1000000)%Z →
            ∃ s3, _kube_resources describe s2 = (Ok (Some b), s3)
                  ∧ api_calls s3 = api_calls s2
                  ∧ cluster_pods s3 = cluster_pods s2
                  ∧ same_cache s2 s3.
Proof.
  intros Hmiss Hf Hcaps Hover Hcosts Hscale.
  destruct (kube_resources_miss describe s s1 caps f costs b
              Hmiss Hf Hcaps Hover Hcosts Hscale)
    as (s' & Hrun & Ha & Ht & _).
  exists s'. split; [exact Hrun |].
  intros s2 [Ha2 Ht2] Hnow.
  rewrite kube_resources_hit by (rewrite Ht2, Ht; apply Z.leb_le; lia).
  eexists. split; [by rewrite Ha2, Ha |]. done.
Qed.

Lemma kube_resources_cached_witness :
  ∃ budget s',
    _kube_resources no_numbers scenario_state = (Ok (Some budget), s')
    ∧ Py.float "2.5" = Ok (cpu budget)
    ∧ ∀ pods outcomes,
        (_kube_resources no_numbers
           (set_now (now scenario_state + 1000000)
              (set_faults outcomes (set_cluster_pods pods s')))).1
        = Ok (Some budget).
Proof.
  destruct (kube_resources_cached no_numbers scenario_state _ _ _ _
              {| cpu := Py.round_decimal false 25 (-1);
                 memory := Py.Float (Py.round_int (6 * 1024 ^ 3));
                 pods := Py.Float (Py.round_int 9) |}
              eq_refl eq_refl scenario_capacities scenario_overprovisioning scenario_costs)
    as (s' & Hrun & Hlater); [vm_compute; reflexivity |].
  eexists _, s'. split; [exact Hrun |]. split; [reflexivity |].
  intros pods outcomes.
  destruct (Hlater (set_now (now scenario_state + 1000000)
                      (set_faults outcomes (set_cluster_pods pods s'))))
    as (s3 & -> & _); [by split | unfold set_now; cbn [now]; lia | reflexivity].
Defined.

(** X18. The budget is stamped before it is scaled. On a cluster that
    answers, when the overprovisioning factor is missing from the
    environment, or cannot be read as a number, [_kube_resources] raises on
    a miss; but by then it has stored the budget, not scaled, and stamped
    it as fresh, so that the calls of the following second do not raise:
    they return that budget. *)
Theorem kube_resources_unscaled describe (s s1 : state) (caps : gmap string capacity)
    (e : exn) (costs : list (spec_float * Z)) :
  (now s - _resources_timestamp s <=? 1000000)%Z = false →
  faults s = [] →
  _kube_node_capacities s = (Ok caps, s1) →
  environ_get (environ s) "MEISTER_OVERPROVISIONING" ≫= Py.float = Raise e →
  Forall2 (λ named cost, pod_cost named.2 = Ok cost) (charged_pods (cluster_pods s)) costs →
  let unscaled := budget_of (fold_left charge_one costs (total_capacity caps)) in
  ∃ s',
    _kube_resources describe s = (Raise e, s')
    ∧ _available_resources s' = Some unscaled
    ∧ _resources_timestamp s' = now s
    ∧ ∀ s2, same_cache s' s2 →
            (0 <= now s2 - now s <= 1000000)%Z →
            (_kube_resources describe s2).1 = Ok (Some unscaled).
Proof.
  intros Hmiss Hf Hcaps Hover Hcosts unscaled.
  destruct (kube_resources_walk describe s s1 caps Hmiss Hf Hcaps)
    as (s5 & Hrun & Ha5 & Ht5 & He5 & Hn5 & _).
  rewrite Hrun. unfold charge_and_scale.
  unfold mbind at 1. unfold M_bind at 1.
  rewrite (charge_all (map_to_list (cluster_pods s)) costs Hcosts s5 (total_capacity caps) Ha5).
  fold unscaled. unfold stamp_and_scale.
  unfold mbind at 1. unfold M_bind at 1. unfold modify at 1.
  unfold mbind at 1. unfold M_bind at 1.
  erewrite overprovisioning_of; [| exact He5 | exact Hover].
  eexists. split; [reflexivity |]. cbn.
  split; [reflexivity |]. split; [exact Hn5 |].
  intros s2 [Ha2 Ht2] Hnow.
  rewrite kube_resources_hit.
  - cbn in *. by rewrite Ha2.
  - cbn in Ht2. rewrite Ht2, Hn5. apply Z.leb_le. lia.
Qed.

Lemma unscaled_capacities :
  _kube_node_capacities unscaled_state
  = (Ok {[ "node-1" := {| cpu := Py.round_int 4; memory := (8 * 1024 ^ 3)%Z; pods := 10%Z |} ]},
     (_kube_node_capacities unscaled_state).2).
Proof. vm_compute. reflexivity. Qed.

Lemma kube_resources_unscaled_witness :
  ∃ s',
    _kube_resources no_numbers unscaled_state
    = (Raise (KeyError "MEISTER_OVERPROVISIONING"), s')
    ∧ (_kube_resources no_numbers (set_now (now unscaled_state + 1) s')).1
      = Ok (Some {| cpu := Py.fsub (Py.round_int 4) (Py.round_decimal false 15 (-1));
                    memory := Py.Int (8 * 1024 ^ 3 - 2 * 1024 ^ 3);
                    pods := Py.Int (10 - 1) |}).
Proof.
  destruct (kube_resources_unscaled no_numbers unscaled_state _ _
              (KeyError "MEISTER_OVERPROVISIONING") _
              eq_refl eq_refl unscaled_capacities eq_refl scenario_costs)
    as (s' & Hrun & _ & _ & Hlater).
  exists s'. split; [exact Hrun |].
  rewrite (Hlater (set_now (now unscaled_state + 1) s'));
    [| by split | unfold set_now; cbn [now]; lia].
  reflexivity.
Defined.

(** ** Pods whose quantities cannot be read *)

(** The charge of a pod whose cost cannot be read raises what reading it
    raises. *)
Lemma charge_unreadable (named : string * Pod) (s : state) (a : capacity) (e : exn) :
  takes_resources named.2 = true →
  pod_cost named.2 = Raise e →
  _available_resources s = Some (budget_of a) →
  (charge (classify named) s).1 = Raise e.
Proof.
  intros Htakes Hcost Ha. destruct named as [name pod]. cbn [snd] in *.
  unfold charge, classify. cbn [snd]. rewrite Htakes.
  unfold mbind at 1. unfold M_bind at 1. unfold lift at 1.
  unfold mbind at 1. unfold M_bind at 1. unfold lift at 1.
  assert (Hcases : (∃ d, charged_resources pod = Ok d ∧ quantity_pair d = Raise e)
                   ∨ charged_resources pod = Raise e).
  { revert Hcost. unfold pod_cost, charged_resources.
    destruct (containers (pod_obj pod)) as [|c cs]; [intros [= <-]; by right |].
    destruct (requests (resources c)) as [r|], (limits (resources c)) as [l|];
      intros H; left; eexists; (split; [reflexivity | exact H]). }
  destruct Hcases as [(d & -> & Hpair) | ->]; [| reflexivity].
  unfold quantity_pair in Hpair.
  unfold mbind at 1. unfold M_bind at 1. unfold lift at 1.
  destruct (dict_get d "cpu" ≫= cpu2float) as [c|e0]; [| by injection Hpair as ->].
  unfold mbind at 1. unfold M_bind at 1.
  erewrite update_available_ok; [| exact Ha | reflexivity].
  unfold mbind at 1. unfold M_bind at 1. unfold lift at 1.
  destruct (dict_get d "memory" ≫= memory2int) as [m|e0]; [done | by injection Hpair as ->].
Qed.

(** The loop over the classified pods stops at the first pod whose cost
    cannot be read, and raises what reading it raises. *)
Lemma charge_loop_raises (l : list (string * Pod)) (bad : string * Pod) (e : exn) :
  bad ∈ l → takes_resources bad.2 = true → pod_cost bad.2 = Raise e →
  ∀ s a, _available_resources s = Some (budget_of a) →
    ∃ e' named,
      (for_each (map classify l) charge s).1 = Raise e'
      ∧ named ∈ l ∧ takes_resources named.2 = true ∧ pod_cost named.2 = Raise e'.
Proof.
  intros Hin Htakes Hcost. induction l as [|x l IH]; intros s a Ha.
  - by apply elem_of_nil in Hin.
  - cbn [map for_each]. unfold mbind at 1. unfold M_bind at 1.
    destruct (takes_resources x.2) eqn:Hx.
    + destruct (pod_cost x.2) as [cost|e0] eqn:Hc.
      * rewrite (charge_kept x s a cost Hx Hc Ha).
        apply elem_of_cons in Hin as [-> | Hin]; [congruence |].
        destruct (IH Hin (set_available_resources (Some (budget_of (charge_one a cost))) s)
                    (charge_one a cost) eq_refl)
          as (e' & named & Hrun & Hnamed & Ht & Hc').
        exists e', named. split; [exact Hrun |]. split; [by apply list_elem_of_further | done].
      * pose proof (charge_unreadable x s a e0 Hx Hc Ha) as Hr.
        destruct (charge (classify x) s) as [r s1]. cbn [fst] in Hr. subst r.
        exists e0, x. split; [reflexivity |]. split; [apply list_elem_of_here | done].
    + rewrite (charge_dropped x s Hx).
      apply elem_of_cons in Hin as [-> | Hin]; [congruence |].
      destruct (IH Hin s a Ha) as (e' & named & Hrun & Hnamed & Ht & Hc').
      exists e', named. split; [exact Hrun |]. split; [by apply list_elem_of_further | done].
Qed.

#[local] Instance unstamped_bookkeeping (s0 : state) : Bookkeeping (unstamped s0).
Proof. by split. Qed.

(** X19. A pod that is pending or running and whose quantities cannot be
    read makes [_kube_resources] raise on every miss: on a cluster that
    answers, the call raises what reading one such pod raises, the budget
    is not stamped, so that the next call is a miss again, and the pods
    that succeeded or failed have been deleted all the same. *)
Theorem kube_resources_unreadable_pod describe (s s1 : state) (caps : gmap string capacity)
    (name : string) (pod : Pod) (e : exn) :
  (now s - _resources_timestamp s <=? 1000000)%Z = false →
  faults s = [] →
  _kube_node_capacities s = (Ok caps, s1) →
  cluster_pods s !! name = Some pod →
  takes_resources pod = true →
  pod_cost pod = Raise e →
  ∃ e' s',
    _kube_resources describe s = (Raise e', s')
    ∧ (∃ name' pod', cluster_pods s !! name' = Some pod'
                     ∧ takes_resources pod' = true ∧ pod_cost pod' = Raise e')
    ∧ _resources_timestamp s' = _resources_timestamp s
    ∧ (now s' - _resources_timestamp s' <=? 1000000)%Z = false
    ∧ cluster_pods s'
      = delete_all (over_names (map_to_list (cluster_pods s))) (cluster_pods s).
Proof.
  intros Hmiss Hf Hcaps Hpod Htakes Hcost.
  destruct (kube_resources_walk describe s s1 caps Hmiss Hf Hcaps)
    as (s5 & Hrun & Ha5 & Ht5 & _ & Hn5 & Hp5 & _).
  assert (Hin : (name, pod) ∈ map_to_list (cluster_pods s)) by (by apply elem_of_map_to_list).
  destruct (charge_loop_raises _ (name, pod) e Hin Htakes Hcost s5 _ Ha5)
    as (e' & [name' pod'] & Hloop & Hnamed & Ht & Hc).
  assert (Hkept : unstamped s5 (for_each (map classify (map_to_list (cluster_pods s))) charge s5).2).
  { apply (triple_for_each (unstamped s5)); [| done].
    intros outcome _. apply (triple_charge (unstamped s5)). by intros. }
  rewrite Hrun. unfold charge_and_scale. unfold mbind at 1. unfold M_bind at 1.
  destruct (for_each _ charge s5) as [r s6]. cbn [fst snd] in *. subst r.
  exists e', s6. split; [reflexivity |].
  split; [exists name', pod'; split; [by apply elem_of_map_to_list | done] |].
  destruct Hkept as (Hts & Hnow & Hpods).
  split; [by rewrite Hts |]. split; [by rewrite Hnow, Hts, Hn5, Ht5 |].
  by rewrite Hpods.
Qed.

Lemma unreadable_capacities :
  _kube_node_capacities unreadable_state
  = (Ok {[ "node-1" := {| cpu := Py.round_int 4; memory := (8 * 1024 ^ 3)%Z; pods := 10%Z |} ]},
     (_kube_node_capacities unreadable_state).2).
Proof. vm_compute. reflexivity. Qed.

Lemma kube_resources_unreadable_pod_witness :
  ∃ e' s',
    _kube_resources no_numbers unreadable_state = (Raise e', s')
    ∧ _resources_timestamp s' = 0%Z
    ∧ cluster_pods s' !! "A" = cluster_pods unreadable_state !! "A"
    ∧ cluster_pods s' !! "B" = None.
Proof.
  destruct (kube_resources_unreadable_pod no_numbers unreadable_state _ _ "A"
              (example_pod "A" Running (quantities "1" "1G") None)
              (ValueError "invalid literal for int() with base 10")
              eq_refl eq_refl unreadable_capacities eq_refl eq_refl eq_refl)
    as (e' & s' & Hrun & _ & Hts & _ & Hpods).
  exists e', s'. split; [exact Hrun |]. split; [exact Hts |].
  rewrite Hpods. split.
  - rewrite (lookup_after_cleanup (cluster_pods unreadable_state) "A"
               (example_pod "A" Running (quantities "1" "1G") None) eq_refl).
    reflexivity.
  - rewrite (lookup_after_cleanup (cluster_pods unreadable_state) "B"
               (example_pod "B" Succeeded (quantities "1" "1Gi") None) eq_refl).
    reflexivity.
Defined.

(** ** Dispatch and the rest *)

(** The state that [terminate] leaves on a cluster that answers. *)
Lemma terminate_state (name : string) (s : state) :
  faults s = [] →
  terminate name s
  = (Ok tt,
     if bool_decide (is_Some (cluster_pods s !! name))
     then set_cluster_pods (delete name (cluster_pods s))
            (set_api_calls (api_calls s ++ [PodExists name; PodDelete name])
               (set_log (log s ++ [(DEBUG, "Terminating pod " +:+ name)]) s))
     else set_api_calls (api_calls s ++ [PodExists name]) s).
Proof.
  intros Hf. unfold terminate, Pod_exists, Pod_delete. unfold_M. unfold modify.
  unfold api at 1. rewrite Hf. cbn [cluster_pods set_api_calls].
  destruct (bool_decide (is_Some (cluster_pods s !! name))); [| reflexivity].
  unfold api. cbn. rewrite Hf. cbn. rewrite <- app_assoc. reflexivity.
Qed.

(** X20. In an environment that lacks a variable of the template, on a
    cluster that answers, [schedule(job)] first deletes the pod of the job,
    if there is one, and then raises [KeyError] for the variable: the old
    worker is gone and no pod is created in its place. *)
Theorem schedule_incomplete_environment conflict py_str schema (job : Job) (s : state) (key : string) :
  first_missing (environ s) = Some key →
  faults s = [] →
  ∃ s',
    schedule conflict py_str schema job s = (Raise (KeyError key), s')
    ∧ cluster_pods s' = delete (_worker_name (job_id job)) (cluster_pods s)
    ∧ cluster_pods s' !! _worker_name (job_id job) = None
    ∧ ∀ name, PodCreate name ∈ api_calls s' → PodCreate name ∈ api_calls s.
Proof.
  intros Hmiss Hf.
  pose proof (kube_pod_template_missing py_str schema (environ s) job key Hmiss) as Hraise.
  unfold schedule.
  unfold mbind at 1. unfold M_bind at 1. unfold LOG at 1. unfold modify at 1.
  set (s0 := set_log _ s).
  unfold mbind at 1. unfold M_bind at 1.
  rewrite (terminate_state _ s0 Hf).
  unfold _schedule_kube_pod. unfold_M.
  set (s1 := if bool_decide _ then _ else _).
  assert (Henv : environ s1 = environ s) by (unfold s1; by destruct (bool_decide _)).
  assert (Hpods : cluster_pods s1 = delete (_worker_name (job_id job)) (cluster_pods s)).
  { unfold s1. destruct (bool_decide _) eqn:Hex; [reflexivity |].
    apply bool_decide_eq_false in Hex. cbn. symmetry. apply delete_id.
    change (cluster_pods s0) with (cluster_pods s) in Hex.
    destruct (cluster_pods s !! _) eqn:Hl; [| done]. exfalso. apply Hex. eauto. }
  rewrite Henv, Hraise. exists s1. split; [reflexivity |]. split; [exact Hpods |].
  split; [rewrite Hpods; apply lookup_delete_eq |].
  intros name. unfold s1. destruct (bool_decide _); cbn;
    intros [Hin | Hin]%elem_of_app; try done;
    repeat (apply elem_of_cons in Hin as [Hin | Hin]; [discriminate Hin |]);
    by apply elem_of_nil in Hin.
Qed.

Lemma schedule_incomplete_environment_witness :
  let job := example_job None None None None in
  let s := set_environ (delete "WORKER_IMAGE" example_environ)
             (example_state {[ "worker-7" := example_pod "worker-7" Running None None ]} ∅ []) in
  ∃ s',
    schedule (PykubeHTTPError "AlreadyExists") render_number example_schema job s
    = (Raise (KeyError "WORKER_IMAGE"), s')
    ∧ cluster_pods s' !! "worker-7" = None.
Proof.
  intros job s.
  destruct (schedule_incomplete_environment (PykubeHTTPError "AlreadyExists")
              render_number example_schema job s
              "WORKER_IMAGE" eq_refl eq_refl)
    as (s' & Hrun & _ & Hgone & _).
  exists s'. split; [exact Hrun | exact Hgone].
Defined.

(** X21. A pod just scheduled is not charged while the budget is fresh.
    Whatever the cluster answers to [schedule(job)], a budget read within
    the second after the stamp is the budget of before the call, returned
    without a call to the cluster. *)
Theorem schedule_not_charged conflict py_str describe schema (job : Job) (s : state) :
  (now s - _resources_timestamp s <=? 1000000)%Z = true →
  let s1 := (schedule conflict py_str schema job s).2 in
  _kube_resources describe s1
  = (Ok (_available_resources s),
     set_log (log s1 ++ [(DEBUG, "Returning cached data...")]) s1).
Proof.
  intros Hfresh s1.
  assert (Hacc : accounts_of s s1).
  { apply (triple_schedule (accounts_of s) conflict py_str schema job); done. }
  destruct Hacc as (_ & Ha & Ht & _ & Hn & _).
  rewrite kube_resources_hit by (by rewrite Hn, Ht).
  by rewrite Ha.
Qed.

Lemma schedule_not_charged_witness :
  let job := example_job (Some 1%Q) (Some 512%Q) None None in
  let left := {| cpu := Py.round_int 4; memory := Py.Int 8; pods := Py.Int 10 |} in
  let s := set_available_resources (Some left) (set_now 500000 (example_state ∅ ∅ [])) in
  let s1 := (schedule (PykubeHTTPError "AlreadyExists") render_number example_schema job s).2 in
  is_Some (cluster_pods s1 !! "worker-7")
  ∧ (_kube_resources no_numbers s1).1 = Ok (Some left).
Proof.
  intros job left s s1. split; [eexists; vm_compute; reflexivity |].
  unfold s1.
  by rewrite (schedule_not_charged (PykubeHTTPError "AlreadyExists") render_number no_numbers
                example_schema job s eq_refl).
Defined.

(** ** What the creators leave in the store *)

Lemma grows_refl (P : Job → Prop) (db : database) : grows P db db.
Proof. split; [exists []; by rewrite app_nil_r | done]. Qed.

Lemma grows_trans (P : Job → Prop) (db1 db2 db3 : database) :
  grows P db1 db2 → grows P db2 db3 → grows P db1 db3.
Proof.
  intros [(m1 & H1 & F1) [? ?]] [(m2 & H2 & F2) [? ?]].
  split; [| split; congruence].
  exists (m1 ++ m2). split; [by rewrite H2, H1, app_assoc | by apply Forall_app].
Qed.

Lemma grows_weaken (P : Job → Prop) (db db' : database) :
  grows P db db' → grows (λ _, True) db db'.
Proof.
  intros [(m & H & _) ?]. split; [| done]. exists m. split; [done |].
  by apply Forall_forall.
Qed.

Lemma find_app_Some {T} (f : T → bool) (l l' : list T) (x : T) :
  List.find f l = Some x → List.find f (l ++ l') = Some x.
Proof.
  induction l as [|y l IH]; simpl; [done |]. destruct (f y); [done | exact IH].
Qed.

Lemma find_app_None {T} (f : T → bool) (l l' : list T) :
  List.find f l = None → List.find f (l ++ l') = List.find f l'.
Proof.
  induction l as [|y l IH]; simpl; [done |]. destruct (f y); [done | exact IH].
Qed.

(** [get_or_create], when the row it makes of the keyword arguments agrees
    with them: the store grows by at most that row, and asked again, in
    that store or in one grown from it, it finds the same row and writes
    nothing. *)
Lemma get_or_create_again (P : Job → Prop) (model : string) (kwargs : list (field * value))
    (db : database) :
  let made := with_id (Some (fresh_id (job_rows db)))
                (foldr (λ '(f, v) j, store_field f v j) (blank_job model) kwargs) in
  row_matches model kwargs made = true →
  P made →
  let '(row, _, db') := get_or_create model kwargs db in
  grows P db db'
  ∧ row ∈ job_rows db'
  ∧ row_matches model kwargs row = true
  ∧ ∀ db2, grows (λ _, True) db' db2 → get_or_create model kwargs db2 = (row, false, db2).
Proof.
  intros made Hmade HP. unfold get_or_create.
  destruct (List.find _ (job_rows db)) as [row|] eqn:Hfind.
  - split; [apply grows_refl |].
    pose proof (find_some _ _ Hfind) as [Hin Hrow].
    split; [by apply list_elem_of_In |]. split; [exact Hrow |].
    intros db2 [(more & Hrows & _) _]. rewrite Hrows.
    by rewrite (find_app_Some _ _ _ _ Hfind).
  - fold made. split.
    { split; [| done]. exists [made]. split; [done |]. by constructor. }
    split; [cbn; apply elem_of_app; right; apply list_elem_of_here |].
    split; [exact Hmade |].
    intros db2 [(more & Hrows & _) _]. rewrite Hrows. cbn [job_rows set_job_rows].
    rewrite <- app_assoc, (find_app_None _ _ _ Hfind). cbn [app List.find].
    by rewrite Hmade.
Qed.

Lemma rex_row_made (cbn : ChallengeBinaryNode) (crash : Crash) (id : option Z) :
  let made := with_id id
                (foldr (λ '(f, v) j, store_field f v j) (blank_job RexCreator.RexJob)
                   (rex_kwargs cbn crash)) in
  row_matches RexCreator.RexJob (rex_kwargs cbn crash) made = true ∧ fresh_rex_row made.
Proof.
  split; [| done].
  unfold row_matches, rex_kwargs. cbn.
  rewrite Z.eqb_refl, bool_decide_eq_true_2 by done. reflexivity.
Qed.

(** One crash of one binary, in the store. *)
Lemma crash_body_store (cbn : ChallengeBinaryNode) (crash : Crash) (db : database) :
  let p := RexCreator.crash_body cbn crash db in
  grows fresh_rex_row db (db_after p)
  ∧ (¬ skipped crash →
     ∃ row, row ∈ job_rows (db_after p)
            ∧ row_matches RexCreator.RexJob (rex_kwargs cbn crash) row = true)
  ∧ ∀ db2, grows (λ _, True) (db_after p) db2 →
           RexCreator.crash_body cbn crash db2 = replayed p db2.
Proof.
  unfold RexCreator.crash_body, skipped.
  destruct (bool_decide _) eqn:Hskip.
  - cbn. split; [apply grows_refl |]. split; [| done].
    apply bool_decide_eq_true in Hskip. done.
  - fold (rex_kwargs cbn crash).
    pose proof (get_or_create_again fresh_rex_row RexCreator.RexJob (rex_kwargs cbn crash) db
                  (proj1 (rex_row_made cbn crash _)) (proj2 (rex_row_made cbn crash _))) as Hgoc.
    destruct (get_or_create RexCreator.RexJob (rex_kwargs cbn crash) db) as [[job created] db'].
    destruct Hgoc as (Hgrows & Hin & Hrow & Hagain).
    assert (Hafter : ∀ p, db_after
                            match PRIORITY_MAP !! kind crash with
                            | Some pr =>
                                {| yielded := [setattr job F_priority (VInt pr)];
                                   db_after := db';
                                   logged := p pr |}
                            | None =>
                                {| yielded := []; db_after := db';
                                   logged := [(ERROR, "No priority for crash kind '"
                                                      +:+ kind crash +:+ "', this is a bug")] |}
                            end = db')
      by (intros p; by destruct (PRIORITY_MAP !! kind crash)).
    cbv zeta. rewrite Hafter.
    split; [exact Hgrows |]. split; [intros _; by exists job |].
    intros db2 Hdb2. rewrite (Hagain db2 Hdb2).
    by destruct (PRIORITY_MAP !! kind crash).
Qed.

Section ForYieldStore.

Context {A : Type} (P : Job → Prop) (body : A → database → produced).

Hypothesis body_grows : ∀ x db, grows P db (db_after (body x db)).
Hypothesis body_replays : ∀ x db db2,
    grows (λ _, True) (db_after (body x db)) db2 → body x db2 = replayed (body x db) db2.

Lemma for_yield_grows (l : list A) (db : database) :
    grows P db (db_after (for_yield l body db)).
  Proof.
    revert db. induction l as [|x l IH]; intros db; cbn [for_yield db_after].
    - apply grows_refl.
    - eapply grows_trans; [apply body_grows | apply IH].
  Qed.

Lemma for_yield_replays (l : list A) (db db2 : database) :
    grows (λ _, True) (db_after (for_yield l body db)) db2 →
    for_yield l body db2 = replayed (for_yield l body db) db2.
  Proof.
    revert db. induction l as [|x l IH]; intros db Hdb2; cbn [for_yield] in *.
    - reflexivity.
    - cbn [db_after] in Hdb2.
      assert (Hx : grows (λ _, True) (db_after (body x db)) db2).
      { eapply grows_trans; [| exact Hdb2]. eapply grows_weaken, for_yield_grows. }
      rewrite (body_replays x db db2 Hx). cbn [replayed db_after yielded logged].
      rewrite (IH _ Hdb2). reflexivity.
  Qed.

  (** What the body establishes for an element, and growth keeps, holds of
      every element after the loop. *)
Lemma for_yield_establishes (Q : A → database → Prop) (l : list A) (db : database) :
    (∀ x db, Q x (db_after (body x db))) →
    (∀ x db db', Q x db → grows (λ _, True) db db' → Q x db') →
    ∀ x, x ∈ l → Q x (db_after (for_yield l body db)).
  Proof.
    intros Hbody Hkeeps. revert db.
    induction l as [|y l IH]; intros db x Hx; [by apply elem_of_nil in Hx |].
    cbn [for_yield db_after]. apply elem_of_cons in Hx as [-> | Hx].
    - eapply Hkeeps; [apply Hbody |]. eapply grows_weaken, for_yield_grows.
    - by apply IH.
  Qed.

End ForYieldStore.

Lemma rex_crashes_grows (cbn : ChallengeBinaryNode) (db : database) :
  grows fresh_rex_row db (db_after (for_yield (crashes cbn) (RexCreator.crash_body cbn) db)).
Proof. apply for_yield_grows. intros crash db'. apply crash_body_store. Qed.

Lemma rex_crashes_replays (cbn : ChallengeBinaryNode) (db db2 : database) :
  grows (λ _, True) (db_after (for_yield (crashes cbn) (RexCreator.crash_body cbn) db)) db2 →
  for_yield (crashes cbn) (RexCreator.crash_body cbn) db2
  = replayed (for_yield (crashes cbn) (RexCreator.crash_body cbn) db) db2.
Proof.
  apply (for_yield_replays fresh_rex_row).
  - intros crash db'. apply crash_body_store.
  - intros crash db' db2'. apply crash_body_store.
Qed.

(** X22. Draining the exploit creator only appends to the store: the rows
    that were there stay as they were, in place; what is appended are
    [RexJob] rows with no priority written to them, for the priority of a
    job is set on the instance that is yielded and not saved; binaries and
    polls are untouched. And the drain settles: drained again on the store
    it left, or on one that has since grown by appended rows, the creator
    yields the same jobs, logs the same lines and writes nothing. *)
Theorem rex_creator_store (db : database) :
  let p := RexCreator.jobs db in
  grows fresh_rex_row db (db_after p)
  ∧ ∀ db2, grows (λ _, True) (db_after p) db2 →
           RexCreator.jobs db2 = replayed p db2.
Proof.
  unfold RexCreator.jobs. split.
  - apply for_yield_grows. intros cbn db'. apply rex_crashes_grows.
  - intros db2 Hdb2.
    replace (challenge_binary_nodes db2) with (challenge_binary_nodes db).
    + apply (for_yield_replays fresh_rex_row); [| | exact Hdb2].
      * intros cbn db'. apply rex_crashes_grows.
      * intros cbn db' db2'. apply rex_crashes_replays.
    + destruct Hdb2 as (_ & -> & _).
      assert (Hg : grows fresh_rex_row db
                (db_after (for_yield (challenge_binary_nodes db)
                   (λ cbn, for_yield (crashes cbn) (RexCreator.crash_body cbn)) db))).
      { apply for_yield_grows. intros cbn db'. apply rex_crashes_grows. }
      by destruct Hg as (_ & -> & _).
Qed.

Lemma row_matches_grows (model : string) (kwargs : list (field * value)) (db db' : database) :
  (∃ row, row ∈ job_rows db ∧ row_matches model kwargs row = true) →
  grows (λ _, True) db db' →
  ∃ row, row ∈ job_rows db' ∧ row_matches model kwargs row = true.
Proof.
  intros (row & Hin & Hrow) [(more & Hrows & _) _]. exists row.
  split; [rewrite Hrows; apply elem_of_app; by left | done].
Qed.

(** X23. After a drain of the exploit creator every crash, of every binary,
    whose kind is not one of the four that are skipped has a [RexJob] row
    for that binary and that crash, with [limit_cpu = 1] and
    [limit_memory = 10]: also a crash whose kind has no priority, for which
    an error is logged and no job is yielded. *)
Theorem rex_creator_rows (db : database) (node : ChallengeBinaryNode) (crash : Crash) :
  node ∈ challenge_binary_nodes db →
  crash ∈ crashes node →
  ¬ skipped crash →
  ∃ row,
    row ∈ job_rows (db_after (RexCreator.jobs db))
    ∧ worker row = RexCreator.RexJob
    ∧ cbn row = Some (cbn_id node)
    ∧ payload row = [("crash_id", crash_id crash)]
    ∧ (∃ q, limit_cpu row = Some q ∧ (q == 1)%Q)
    ∧ (∃ q, limit_memory row = Some q ∧ (q == 10)%Q).
Proof.
  intros Hnode Hcrash Hkind.
  assert (Hrow : ∃ row, row ∈ job_rows (db_after (RexCreator.jobs db))
                        ∧ row_matches RexCreator.RexJob (rex_kwargs node crash) row = true).
  { unfold RexCreator.jobs.
    apply (for_yield_establishes fresh_rex_row
             (λ node0, for_yield (crashes node0) (RexCreator.crash_body node0))
             (λ node0 db0, rex_crashes_grows node0 db0)
             (λ node0 db0, node0 = node → ∃ row, row ∈ job_rows db0
                ∧ row_matches RexCreator.RexJob (rex_kwargs node crash) row = true)
             (challenge_binary_nodes db) db) with (x := node); [| | done | done].
    - intros node0 db0 ->.
      apply (for_yield_establishes fresh_rex_row (RexCreator.crash_body node)
               (λ crash0 db1, proj1 (crash_body_store node crash0 db1))
               (λ crash0 db1, crash0 = crash → ∃ row, row ∈ job_rows db1
                  ∧ row_matches RexCreator.RexJob (rex_kwargs node crash) row = true)
               (crashes node) db0) with (x := crash); [| | done | done].
      + intros crash0 db1 ->. by apply crash_body_store.
      + intros crash0 db1 db1' Hq Hg ->. by eapply row_matches_grows; [apply Hq |].
    - intros node0 db0 db0' Hq Hg ->. by eapply row_matches_grows; [apply Hq |]. }
  destruct Hrow as (row & Hin & Hmatch). exists row. split; [exact Hin |].
  unfold row_matches, rex_kwargs in Hmatch. cbn [forallb] in Hmatch.
  repeat (apply andb_prop in Hmatch as [? Hmatch]).
  repeat match goal with H : _ && _ = true |- _ => apply andb_prop in H as [? ?] end.
  split; [by apply String.eqb_eq |].
  split.
  { cbn [getattr] in *. destruct (cbn row) as [c|]; simpl in *; [| done].
    f_equal. by apply Z.eqb_eq. }
  split.
  { cbn [getattr value_eqb] in *.
    match goal with
    | H : bool_decide (payload row = _) = true |- _ => by apply bool_decide_eq_true in H
    end. }
  split; by apply value_eqb_num.
Qed.

Lemma rex_creator_rows_witness :
  let node := {| cbn_id := 1;
                 crashes := [ {| crash_id := 31; kind := "arbitrary_transmit" |};
                              {| crash_id := 32; kind := "ip_overwrite" |} ] |} in
  let crash := {| crash_id := 31; kind := "arbitrary_transmit" |} in
  PRIORITY_MAP !! kind crash = None
  ∧ map job_summary (yielded (RexCreator.jobs unlisted_database))
    = [(Some 1%Z, [("crash_id", 32%Z)], 100%Z)]
  ∧ ∃ row,
      row ∈ job_rows (db_after (RexCreator.jobs unlisted_database))
      ∧ worker row = RexCreator.RexJob
      ∧ cbn row = Some 1%Z
      ∧ payload row = [("crash_id", 31%Z)].
Proof.
  intros node crash. split; [vm_compute; reflexivity |]. split; [vm_compute; reflexivity |].
  destruct (rex_creator_rows unlisted_database node crash)
    as (row & Hin & Hworker & Hcbn & Hpayload & _).
  - apply list_elem_of_here.
  - apply list_elem_of_here.
  - unfold skipped. intros Hin.
    repeat (apply elem_of_cons in Hin as [Hin | Hin]; [discriminate Hin |]).
    by apply elem_of_nil in Hin.
  - exists row. split; [exact Hin |]. split; [exact Hworker |].
    split; [exact Hcbn | exact Hpayload].
Defined.

(** ** The scheduler loop with a cluster *)

(** X24. [BaseScheduler.run] raises [NotImplementedError], of [_run],
    exactly when [KUBERNETES_SERVICE_HOST] is set to a string that is not
    empty; it has then drained no creator, asked the brain nothing, opened
    no transaction, and has left the store and the scheduler as they were. *)
Theorem run_with_cluster (brain_sort : list Job → list (Job * Z))
    (creators : list Creator) (s : state) (db : database) :
  run brain_sort creators s db = (Raise (NotImplementedError "Implement it!"), s, db, [])
  ↔ ∃ host, environ s !! "KUBERNETES_SERVICE_HOST" = Some host ∧ host ≠ "".
Proof.
  unfold run, _is_kubernetes_unavailable, _run.
  destruct (environ s !! "KUBERNETES_SERVICE_HOST") as [host|] eqn:Hhost.
  - destruct (String.eqb_spec host "") as [-> | Hne].
    + split; [discriminate | intros (host & [= <-] & Hne); done].
    + split; [intros _; by exists host | done].
  - split; [discriminate | intros (host & Hsome & _); discriminate].
Qed.

(** ** The budget, in general *)

(** X25. On a cache miss, on a cluster that answers and whose quantities
    can be read, [_kube_resources] returns this budget. Its cpus: the cpus
    of the nodes added one after the other to [0.0], less the cpu of every
    pod that is pending or running, subtracted one after the other in the
    order of the listing, times the overprovisioning factor, all in floats.
    Its memory and its pod slots: the sum of those of the nodes less the
    memory of these pods, and less one slot for each, in integers, and then
    converted to a float and multiplied by the factor. The cpu and the
    memory of a pod are what [cpu2float] and [memory2int] read in the
    requests of its first container, or in its limits when it has no
    requests, and zero when it has neither. The pods that succeeded or
    failed are deleted, one [delete] each after one listing of the pods,
    and the other pods stay. *)
Theorem kube_resources_budget describe (s s1 : state) (caps : gmap string capacity)
    (f : spec_float) (costs : list (spec_float * Z)) (r : budget) :
  (now s - _resources_timestamp s <=? 1000000)%Z = false →
  faults s = [] →
  _kube_node_capacities s = (Ok caps, s1) →
  environ_get (environ s) "MEISTER_OVERPROVISIONING" ≫= Py.float = Ok f →
  Forall2 (λ named cost, pod_cost named.2 = Ok cost) (charged_pods (cluster_pods s)) costs →
  let nodes := (map_to_list caps).*2 in
  let left := {| cpu := minus_floats (sum_floats (cpu <$> nodes)) costs.*1;
                 memory := Py.Int (sumZ (memory <$> nodes) - sumZ costs.*2);
                 pods := Py.Int (sumZ (pods <$> nodes)
                                 - Z.of_nat (length (charged_pods (cluster_pods s)))) |} in
  scale f left = Ok r →
  ∃ s',
    _kube_resources describe s = (Ok (Some r), s')
    ∧ (∀ name pod, cluster_pods s !! name = Some pod →
         cluster_pods s' !! name = if is_over pod then None else Some pod)
    ∧ api_calls s'
      = api_calls s1 ++ ListPods :: map PodDelete (over_names (map_to_list (cluster_pods s)))
    ∧ (∀ name, name ∈ over_names (map_to_list (cluster_pods s))
               ↔ ∃ pod, cluster_pods s !! name = Some pod ∧ is_over pod = true).
Proof.
  intros Hmiss Hf Hcaps Hover Hcosts nodes left Hscale.
  assert (Hleft : budget_of (fold_left charge_one costs (total_capacity caps)) = left).
  { rewrite fold_charge_one, total_capacity_sums. unfold left, budget_of. cbn [cpu memory pods].
    by rewrite (Forall2_length _ _ _ Hcosts). }
  destruct (kube_resources_miss describe s s1 caps f costs r Hmiss Hf Hcaps Hover Hcosts)
    as (s' & Hrun & _ & _ & Hpods & Hcalls); [by rewrite Hleft |].
  exists s'. split; [exact Hrun |].
  split; [intros name pod Hpod; rewrite Hpods; by apply lookup_after_cleanup |].
  split; [exact Hcalls |].
  intros name. apply elem_of_over_names.
Qed.

Lemma two_nodes_capacities :
  _kube_node_capacities two_nodes_state
  = (Ok {[ "node-1" := {| cpu := Py.round_int 4; memory := (8 * 1024 ^ 3)%Z; pods := 10%Z |};
           "node-2" := {| cpu := Py.round_decimal false 5 (-1); memory := (4 * 1024 ^ 3)%Z;
                          pods := 5%Z |} ]},
     (_kube_node_capacities two_nodes_state).2).
Proof. vm_compute. reflexivity. Qed.

Lemma kube_resources_budget_witness :
  ∃ s',
    _kube_resources no_numbers two_nodes_state
    = (Ok (Some {| cpu := Py.round_decimal false 275 (-2);
                   memory := Py.Float (Py.round_int (12 * 1024 ^ 3 - 2 * 1024 ^ 3
                                                     - 512 * 1024 ^ 2));
                   pods := Py.Float (Py.round_int 13) |}), s')
    ∧ cluster_pods s' !! "A" = cluster_pods two_nodes_state !! "A"
    ∧ cluster_pods s' !! "B" = None
    ∧ cluster_pods s' !! "C" = cluster_pods two_nodes_state !! "C"
    ∧ api_calls s' = [ListNodes; ListPods; PodDelete "B"].
Proof.
  destruct (kube_resources_budget no_numbers two_nodes_state _ _ (Py.round_int 1)
              [(Py.round_decimal false 25 (-2), (512 * 1024 ^ 2)%Z);
               (Py.round_decimal false 15 (-1), (2 * 1024 ^ 3)%Z)]
              {| cpu := Py.round_decimal false 275 (-2);
                 memory := Py.Float (Py.round_int (12 * 1024 ^ 3 - 2 * 1024 ^ 3
                                                   - 512 * 1024 ^ 2));
                 pods := Py.Float (Py.round_int 13) |}
              eq_refl eq_refl two_nodes_capacities)
    as (s' & Hrun & Hpods & Hcalls & _).
  - vm_compute. reflexivity.
  - assert (Hcharged : charged_pods (cluster_pods two_nodes_state)
                       = [("C", example_pod "C" Pending None (quantities "250m" "512Mi"));
                          ("A", example_pod "A" Running (quantities "1500m" "2Gi") None)])
      by (vm_compute; reflexivity).
    rewrite Hcharged.
    constructor; [vm_compute; reflexivity |]. constructor; [vm_compute; reflexivity |].
    constructor.
  - vm_compute. reflexivity.
  - exists s'. split; [exact Hrun |].
    split; [rewrite (Hpods "A" _ eq_refl); reflexivity |].
    split; [rewrite (Hpods "B" _ eq_refl); reflexivity |].
    split; [rewrite (Hpods "C" _ eq_refl); reflexivity |].
    rewrite Hcalls. vm_compute. reflexivity.
Defined.

(** ** The scheduler loop and the cluster *)


